(** * A UTXO ledger indexer: block acceptance, balances and rollback

    Shallow embedding of [src/index.ts] and [src/utils.ts] (the file with
    [calculateBlockHash] and [parseValue]).

    Conventions of the model.
    - A JavaScript [string] is a Rocq [string]; its characters are the bytes
      of its UTF-8 encoding, so [TextEncoder.encode] is the list of character
      codes.
    - [height] and [index] are JavaScript numbers holding integers: [Z].
      The rollback target is an integer as well.
    - An output [value] is a JavaScript number: an IEEE 754 binary64 value,
      here a primitive float.  [+=] is the binary64 addition; [toFixed(8)],
      [toString] and [Number(text)] are computed from the exact value of the
      number.  A request body is JSON, which cannot write [NaN]: the model
      gives no meaning to storing one and refuses it.
    - A [NUMERIC(20,8)] column holds an integer count of units of 10^-8;
      the sums of the database are exact.
    - The text of the [SELECT] of [processBlock] is built by splicing each
      [txId] between quotes.  [select_utxos_in] reads it as the list of the
      strings so quoted, which it is when no spliced [txId] contains a quote
      or a NUL ([plain]); the statements about what this query finds carry
      that hypothesis.
    - The two SQL tables are lists of rows in insertion order.  A statement
      that violates a constraint of [createTables] raises a storage error.
    - A request handler runs its statements between [BEGIN] and
      [COMMIT]/[ROLLBACK]: the working copy of the tables replaces the
      committed ones only on [COMMIT]. *)

From Stdlib Require Import ZArith List String Ascii Bool Lia QArith Qround Qabs.
From Stdlib Require Import DecimalString DecimalZ Permutation FinFun.
From Stdlib Require Import PrimFloat.
From Stdlib Require FloatOps SpecFloat.
Import ListNotations.

#[local] Set Warnings "-inexact-float".

Local Open Scope Z_scope.

(** ** Strings and bytes *)

Definition bytes_of_string (s : string) : list Z :=
  map (fun c => Z.of_N (N_of_ascii c)) (list_ascii_of_string s).

(** [String(n)] for an integer number [n]. *)
Definition string_of_Z (n : Z) : string := NilZero.string_of_int (Z.to_int n).

(** [array.join('')] *)
Definition join (l : list string) : string :=
  fold_right String.append EmptyString l.

Definition hex_digit (d : Z) : ascii :=
  match d with
  | 0 => "0" | 1 => "1" | 2 => "2" | 3 => "3" | 4 => "4" | 5 => "5"
  | 6 => "6" | 7 => "7" | 8 => "8" | 9 => "9" | 10 => "a" | 11 => "b"
  | 12 => "c" | 13 => "d" | 14 => "e" | _ => "f"
  end%char.

(** [b.toString(16).padStart(2, '0')] for a byte [b]. *)
Definition hex_byte (b : Z) : string :=
  String (hex_digit (b / 16)) (String (hex_digit (b mod 16)) EmptyString).

(** ** SHA-256 (FIPS 180-4), the digest behind [crypto.subtle.digest] *)

Module Sha256.

Definition w32 (x : Z) : Z := x mod 2 ^ 32.
Definition add32 (x y : Z) : Z := w32 (x + y).
Definition rotr (n x : Z) : Z :=
  Z.lor (Z.shiftr x n) (w32 (Z.shiftl x (32 - n))).
Definition shr (n x : Z) : Z := Z.shiftr x n.

Definition Ch (x y z : Z) : Z :=
  Z.lxor (Z.land x y) (Z.land (w32 (Z.lnot x)) z).
Definition Maj (x y z : Z) : Z :=
  Z.lxor (Z.lxor (Z.land x y) (Z.land x z)) (Z.land y z).
Definition Sigma0 (x : Z) : Z :=
  Z.lxor (Z.lxor (rotr 2 x) (rotr 13 x)) (rotr 22 x).
Definition Sigma1 (x : Z) : Z :=
  Z.lxor (Z.lxor (rotr 6 x) (rotr 11 x)) (rotr 25 x).
Definition sigma0 (x : Z) : Z :=
  Z.lxor (Z.lxor (rotr 7 x) (rotr 18 x)) (shr 3 x).
Definition sigma1 (x : Z) : Z :=
  Z.lxor (Z.lxor (rotr 17 x) (rotr 19 x)) (shr 10 x).

(** The constants are the first 32 bits of the fractional parts of the
    cube roots ([K]) and of the square roots ([H0]) of the first primes. *)
Definition is_prime (n : nat) : bool :=
  forallb (fun d => negb (n mod d =? 0)%nat) (seq 2 (n - 2)).

Definition primes : list Z := map Z.of_nat (filter is_prime (seq 2 310)).

(** The largest number whose [k]-th power is at most [n], bit by bit. *)
Fixpoint root_bits (k n : Z) (bits : nat) (r : Z) : Z :=
  match bits with
  | O => r
  | S b =>
      let r' := r + 2 ^ Z.of_nat b in
      root_bits k n b (if r' ^ k <=? n then r' else r)
  end.

Definition root_fraction (k p : Z) : Z :=
  w32 (root_bits k (p * 2 ^ (32 * k)) 40 0).

Definition K : list Z := Eval vm_compute in map (root_fraction 3) primes.

Definition H0 : list Z :=
  Eval vm_compute in map (root_fraction 2) (firstn 8 primes).

(** Big-endian bytes of a number, [n] of them. *)
Fixpoint be_bytes (n : nat) (x : Z) : list Z :=
  match n with
  | O => []
  | S n' => (x / 256 ^ Z.of_nat n') mod 256 :: be_bytes n' x
  end.

Definition be_word (bs : list Z) : Z :=
  fold_left (fun acc b => acc * 256 + b) bs 0.

(** The message, one bit, zeros up to 56 modulo 64, and the length in bits. *)
Definition pad (msg : list Z) : list Z :=
  let len := Z.of_nat (List.length msg) in
  msg ++ [0x80] ++ repeat 0 (Z.to_nat ((55 - len) mod 64))
      ++ be_bytes 8 (8 * len).

(** [chunks k fuel l] cuts [l] into pieces of [k] elements. *)
Fixpoint chunks {A} (k : nat) (fuel : nat) (l : list A) : list (list A) :=
  match fuel, l with
  | O, _ | _, [] => []
  | S fuel', _ => firstn k l :: chunks k fuel' (skipn k l)
  end.

(** The schedule is kept newest word first. *)
Definition next_word (ws : list Z) : Z :=
  add32 (add32 (sigma1 (nth 1 ws 0)) (nth 6 ws 0))
        (add32 (sigma0 (nth 14 ws 0)) (nth 15 ws 0)).

Fixpoint extend (n : nat) (ws : list Z) : list Z :=
  match n with
  | O => ws
  | S n' => extend n' (next_word ws :: ws)
  end.

Definition schedule (block : list Z) : list Z :=
  rev (extend 48 (rev (map be_word (chunks 4 16 block)))).

Definition round (st : list Z) (kw : Z * Z) : list Z :=
  match st with
  | [a; b; c; d; e; f; g; h] =>
      let T1 := add32 (add32 (add32 h (Sigma1 e)) (add32 (Ch e f g) (fst kw)))
                      (snd kw) in
      let T2 := add32 (Sigma0 a) (Maj a b c) in
      [add32 T1 T2; a; b; c; add32 d T1; e; f; g]
  | _ => st
  end.

Definition compress (h : list Z) (block : list Z) : list Z :=
  map (fun p => add32 (fst p) (snd p))
      (combine h (fold_left round (combine K (schedule block)) h)).

Definition digest (msg : list Z) : list Z :=
  let p := pad msg in
  flat_map (be_bytes 4) (fold_left compress (chunks 64 (List.length p) p) H0).

End Sha256.

(** ** JavaScript numbers

    A number is a binary64 value; [+] on numbers is the primitive addition.
    What follows computes, from the sign, mantissa and exponent of a number,
    its exact value and the decimal texts written from it, and the number a
    decimal text denotes. *)

Definition number : Set := float.
Bind Scope float_scope with number.

(** [isNaN(x)] *)
Definition isNaN (x : number) : bool := is_nan x.

(** The binary64 value nearest to [a/d], ties to the even mantissa, with
    the given sign.  The quotient is taken with at least 55 bits and the
    place of the remainder against half the divisor decides the rounding. *)
Definition nearest (negative : bool) (a d : positive) : SpecFloat.spec_float :=
  let e := Z.log2 (Zpos a) - Z.log2 (Zpos d) - 55 in
  let num := if e <? 0 then Zpos a * 2 ^ (- e) else Zpos a in
  let den := if e <? 0 then Zpos d else Zpos d * 2 ^ e in
  let r := num mod den in
  let loc := if r =? 0 then SpecFloat.loc_Exact
             else SpecFloat.loc_Inexact (2 * r ?= den) in
  SpecFloat.binary_round_aux FloatOps.prec FloatOps.emax negative
                             (num / den) e loc.

(** The number a decimal text denotes, for a text that writes [q]: what
    [Number(text)] and [JSON.parse] return. *)
Definition of_decimal (q : Q) : number :=
  match Qnum q with
  | 0 => zero
  | Zpos a => FloatOps.SF2Prim (nearest false a (Qden q))
  | Zneg a => FloatOps.SF2Prim (nearest true a (Qden q))
  end.

Definition pow2 (e : Z) : Q :=
  if 0 <=? e then 2 ^ e # 1 else 1 # Z.to_pos (2 ^ (- e)).

Definition pow10 (e : Z) : Q :=
  if 0 <=? e then 10 ^ e # 1 else 1 # Z.to_pos (10 ^ (- e)).

(** The exact value of a finite number (0 for the others). *)
Definition exact (x : number) : Q :=
  match FloatOps.Prim2SF x with
  | SpecFloat.S754_finite s m e =>
      Qred ((if s then Zneg m else Zpos m) # 1) * pow2 e
  | _ => 0
  end.

(** The text [x.toFixed(8)]: a sign and the digits of an integer count of
    10^-8, or the text of [x.toString()] when [x] is not finite or is
    10^21 or more in magnitude. *)
Inductive Fixed : Type :=
| Digits (negative : bool) (n : Z)
| General (x : number).

(** [x.toFixed(8)]: the integer [n] for which [n / 10^8] is nearest to the
    magnitude of [x], the larger one of two. *)
Definition toFixed8 (x : number) : Fixed :=
  if negb (is_finite x) then General x
  else
    let v := Qabs (exact x) in
    if Qle_bool (10 ^ 21 # 1) v then General x
    else Digits (x <? 0)%float (Qfloor (v * (100000000 # 1) + (1 # 2))).

(** The least [n] with [v < 10^n], for a positive [v]. *)
Fixpoint magnitude_from (fuel : nat) (v : Q) (n : Z) : Z :=
  match fuel with
  | O => n
  | S fuel' =>
      if Qle_bool (pow10 n) v then magnitude_from fuel' v (n + 1) else n
  end.

Definition magnitude (v : Q) : Z :=
  let est := (Z.log2 (Qnum v) - Z.log2 (Zpos (Qden v))) * 30103 / 100000 in
  magnitude_from 8 v (est - 2).

(** The decimal of [k] significant digits nearest to [v] among those that
    read back as [x], if there is one; of two equally near, the even one. *)
Definition candidate (x : number) (v : Q) (n k : Z) : option Q :=
  let t := Qred (v * pow10 (k - n)) in
  let lo := Qfloor t in
  let written (c : Z) := Qred ((c # 1) * pow10 (n - k)) in
  let back (c : Z) := (of_decimal (written c) =? x)%float in
  match back lo, back (lo + 1) with
  | false, false => None
  | true, false => Some (written lo)
  | false, true => Some (written (lo + 1))
  | true, true =>
      match Qcompare (t - (lo # 1)) ((lo + 1 # 1) - t) with
      | Lt => Some (written lo)
      | Gt => Some (written (lo + 1))
      | Eq => Some (written (if Z.even lo then lo else lo + 1))
      end
  end.

Fixpoint shortest (x : number) (v : Q) (n : Z) (ks : list Z) : Q :=
  match ks with
  | [] => v
  | k :: ks' =>
      match candidate x v n k with
      | Some d => d
      | None => shortest x v n ks'
      end
  end.

(** The decimal that [x.toString()] writes for a finite [x]: the one of
    fewest significant digits that reads back as [x]. *)
Definition decimal (x : number) : Q :=
  let v := Qabs (exact x) in
  if Qeq_bool v 0 then 0
  else
    let d := shortest (abs x) (Qred v) (magnitude v)
               [1; 2; 3; 4; 5; 6; 7; 8; 9; 10; 11; 12; 13; 14; 15; 16; 17] in
    if (x <? 0)%float then - d else d.

(** ** utils: [calculateBlockHash] and [parseValue] *)

Definition calculateBlockHash (height : Z) (transactionIds : list string)
  : string :=
  let data := (string_of_Z height ++ join transactionIds)%string in
  let buffer := bytes_of_string data in
  let hashArray := Sha256.digest buffer in
  join (map hex_byte hashArray).

(** What [Number] and [parseValue] are applied to: a JavaScript number (an
    output's declared [value]), the text of a [NUMERIC(20,8)] value as the
    driver returns it, given here by its count of 10^-8 units, or the text
    [toFixed(8)] made. *)
Inductive any : Type :=
| JsNumber (x : number)
| PgNumeric (units : Z)
| FixedText (t : Fixed).

Definition Number (v : any) : number :=
  match v with
  | JsNumber x => x
  | PgNumeric u => of_decimal (u # 100000000)
  | FixedText (Digits negative n) =>
      if n =? 0 then (if negative then neg_zero else zero)
      else of_decimal ((if negative then - n else n) # 100000000)
  | FixedText (General x) => x
  end.

Definition parseValue (v : any) : number :=
  let num := Number v in
  if isNaN num then 0%float else num.

Module Output.
Record t : Type := mk { address : string; value : number }.
End Output.

Module Input.
Record t : Type := mk { txId : string; index : Z }.
End Input.

Module Transaction.
Record t : Type :=
  mk { id : string; inputs : list Input.t; outputs : list Output.t }.
End Transaction.

Module Block.
Record t : Type :=
    mk { id : string; height : Z; transactions : list Transaction.t }.
End Block.

(** ** The tables of [createTables] *)

Module BlockRow.
Record row : Type :=
    mk { height : Z; id : string; transaction_ids : list string }.
End BlockRow.

Module Utxo.
Record row : Type :=
    mk { tx_id : string; output_index : Z; address : string;
         value : Z;                       (* NUMERIC(20,8), in 10^-8 units *)
         block_height : Z; spent_tx_id : option string }.

Definition set_spent (s : option string) (r : row) : row :=
    mk (tx_id r) (output_index r) (address r) (value r) (block_height r) s.

Definition key (r : row) : string * Z := (tx_id r, output_index r).
End Utxo.

Record Tables : Type := mkTables
  { blocks : list BlockRow.row; utxos : list Utxo.row }.

Definition empty_tables : Tables := mkTables [] [].

Inductive violation : Type :=
| UniqueViolation (constraint : string)
| NumericOverflow
| IntegerOutOfRange.

(** The [Error]s thrown by [processBlock] and [rollbackToHeight], one
    constructor per [throw], and the errors a statement can raise. *)
Inductive Error : Type :=
| InvalidHeight (expected got : Z)
| InvalidHash (computed got : string)
| MissingUtxo (tx : string)
| UtxoNotFound (tx : string) (ref : Input.t)
| AlreadySpent (tx : string) (ref : Input.t) (spender : string)
| ValueMismatch (tx : string) (inputSum outputSum : Fixed)
| NegativeTarget
| StorageError (v : violation).

(** ** Statements run on a client: state and exceptions *)

Definition M (A : Type) : Type := Tables -> (Error + A) * Tables.

Definition ret {A} (a : A) : M A := fun db => (inr a, db).
Definition throw {A} (e : Error) : M A := fun db => (inl e, db).
Definition bind {A B} (m : M A) (k : A -> M B) : M B :=
  fun db =>
    match m db with
    | (inl e, db') => (inl e, db')
    | (inr a, db') => k a db'
    end.

Notation "x <- m ;; k" := (bind m (fun x => k))
  (at level 61, m at next level, right associativity).
Notation "m ;;; k" := (bind m (fun _ => k))
  (at level 61, right associativity).

(** [for (const x of l) { await body(x) }] *)
Fixpoint for_each {A} (l : list A) (body : A -> M unit) : M unit :=
  match l with
  | [] => ret tt
  | x :: l' => body x ;;; for_each l' body
  end.

(** *** Column types *)

Definition int4 (z : Z) : bool := (- 2 ^ 31 <=? z) && (z <? 2 ^ 31).

(** Rounding a decimal to 8 fractional digits, half away from zero, as the
    conversion to [NUMERIC(20,8)] does; the result counts 10^-8 units. *)
Definition half_away (q : Q) : Z :=
  let n := Qfloor (Qabs q * (100000000 # 1) + (1 # 2)) in
  if Qnum q <? 0 then - n else n.

(** The units a [NUMERIC(20,8)] column takes for the finite number [x],
    which the driver sends as the text [x.toString()]. *)
Definition round8 (x : number) : Z := half_away (decimal x).

(** The value stored for [x], or none: an infinity and a value of 10^12 or
    more do not fit the column ([NaN], which no request body carries, is
    refused as well). *)
Definition numeric_20_8 (x : number) : option Z :=
  if is_finite x
  then let u := round8 x in
       if Z.abs u <? 10 ^ 20 then Some u else None
  else None.

(** *** Aggregates *)

Definition sql_max (l : list Z) : option Z :=
  match l with
  | [] => None
  | x :: l' => Some (fold_left Z.max l' x)
  end.

Definition sql_sum (l : list Z) : option Z :=
  match l with
  | [] => None
  | _ => Some (fold_left Z.add l 0)
  end.

Definition COALESCE {A} (x : option A) (d : A) : A :=
  match x with Some a => a | None => d end.

(** *** Queries of [index.ts] *)

(** [SELECT MAX(height) as max_height FROM blocks] *)
Definition select_max_height (db : Tables) : option Z :=
  sql_max (map BlockRow.height (blocks db)).

Definition current_height (db : Tables) : Z :=
  match select_max_height db with
  | Some maxHeight => if maxHeight =? 0 then 0 else maxHeight
  | None => 0
  end.

Definition getCurrentHeight : M Z := fun db => (inr (current_height db), db).

(** [CONCAT(tx_id, '_', output_index)] and the quoted text the caller builds
    from an input. *)
Definition concat_key (txid : string) (idx : Z) : string :=
  (txid ++ "_" ++ string_of_Z idx)%string.

Definition inputReferences (inputs : list Input.t) : list string :=
  map (fun i => concat_key (Input.txId i) (Input.index i)) inputs.

(** [SELECT ... FROM utxos WHERE CONCAT(tx_id, '_', output_index) IN (...)] *)
Definition select_utxos_in (refs : list string) : M (list Utxo.row) :=
  fun db =>
    (inr (filter (fun r =>
            existsb (String.eqb (concat_key (Utxo.tx_id r) (Utxo.output_index r)))
                    refs) (utxos db)), db).

(** [INSERT INTO blocks (height, id, transaction_ids) VALUES ($1, $2, $3)] *)
Definition insert_block (height : Z) (id : string) (txIds : list string)
  : M unit :=
  fun db =>
    if negb (int4 height) then (inl (StorageError IntegerOutOfRange), db)
    else if existsb (Z.eqb height) (map BlockRow.height (blocks db))
    then (inl (StorageError (UniqueViolation "blocks_pkey")), db)
    else if existsb (String.eqb id) (map BlockRow.id (blocks db))
    then (inl (StorageError (UniqueViolation "blocks_id_key")), db)
    else (inr tt,
          mkTables (blocks db ++ [BlockRow.mk height id txIds]) (utxos db)).

Record Spend : Type := mkSpend
  { sp_txId : string; sp_index : Z; spenderId : string }.

(** [UPDATE utxos SET spent_tx_id = $3
     WHERE tx_id = $1 AND output_index = $2 AND spent_tx_id IS NULL] *)
Definition spend_row (s : Spend) (r : Utxo.row) : Utxo.row :=
  if String.eqb (Utxo.tx_id r) (sp_txId s)
     && (Utxo.output_index r =? sp_index s)
     && match Utxo.spent_tx_id r with None => true | Some _ => false end
  then Utxo.set_spent (Some (spenderId s)) r
  else r.

Definition update_spend (s : Spend) : M unit :=
  fun db => (inr tt, mkTables (blocks db) (map (spend_row s) (utxos db))).

Record NewUtxo : Type := mkNew
  { n_txId : string; n_output_index : Z; n_address : string;
    n_value : number; n_block_height : Z }.

Definition key_eqb (a b : string * Z) : bool :=
  String.eqb (fst a) (fst b) && (snd a =? snd b).

Fixpoint distinct (l : list (string * Z)) : bool :=
  match l with
  | [] => true
  | k :: l' => negb (existsb (key_eqb k) l') && distinct l'
  end.

(** The row a tuple of the bulk insert becomes, or the error of a value
    that does not fit its column. *)
Definition utxo_row (u : NewUtxo) : violation + Utxo.row :=
  if negb (int4 (n_output_index u) && int4 (n_block_height u))
  then inl IntegerOutOfRange
  else match numeric_20_8 (n_value u) with
       | None => inl NumericOverflow
       | Some v => inr (Utxo.mk (n_txId u) (n_output_index u) (n_address u)
                                v (n_block_height u) None)
       end.

Fixpoint utxo_rows (us : list NewUtxo) : violation + list Utxo.row :=
  match us with
  | [] => inr []
  | u :: us' =>
      match utxo_row u, utxo_rows us' with
      | inl v, _ => inl v
      | _, inl v => inl v
      | inr r, inr rs => inr (r :: rs)
      end
  end.

(** [INSERT INTO utxos (...) VALUES (...),(...),...] *)
Definition insert_utxos (us : list NewUtxo) : M unit :=
  fun db =>
    match utxo_rows us with
    | inl v => (inl (StorageError v), db)
    | inr rows =>
        if distinct (map Utxo.key (utxos db ++ rows))
        then (inr tt, mkTables (blocks db) (utxos db ++ rows))
        else (inl (StorageError (UniqueViolation "utxos_pkey")), db)
    end.

(** [SELECT transaction_ids FROM blocks WHERE height > $1] *)
Definition select_transaction_ids_above (target : Z) : M (list (list string)) :=
  fun db =>
    (inr (map BlockRow.transaction_ids
            (filter (fun b => target <? BlockRow.height b) (blocks db))), db).

(** [UPDATE utxos SET spent_tx_id = NULL WHERE spent_tx_id = ANY($1)] *)
Definition unspend_row (txIds : list string) (r : Utxo.row) : Utxo.row :=
  match Utxo.spent_tx_id r with
  | Some s => if existsb (String.eqb s) txIds then Utxo.set_spent None r else r
  | None => r
  end.

Definition update_unspend (txIds : list string) : M unit :=
  fun db => (inr tt, mkTables (blocks db) (map (unspend_row txIds) (utxos db))).

(** [DELETE FROM utxos WHERE block_height > $1] *)
Definition delete_utxos_above (target : Z) : M unit :=
  fun db =>
    (inr tt,
     mkTables (blocks db)
       (filter (fun r => negb (target <? Utxo.block_height r)) (utxos db))).

(** [DELETE FROM blocks WHERE height > $1 RETURNING height] *)
Definition delete_blocks_above (target : Z) : M (list BlockRow.row) :=
  fun db =>
    (inr (filter (fun b => target <? BlockRow.height b) (blocks db)),
     mkTables (filter (fun b => negb (target <? BlockRow.height b)) (blocks db))
              (utxos db)).

(** [SELECT COALESCE(SUM(value), 0) AS balance FROM utxos
     WHERE address = $1 AND spent_tx_id IS NULL] *)
Definition unspent_at (address : string) (r : Utxo.row) : bool :=
  String.eqb (Utxo.address r) address
  && match Utxo.spent_tx_id r with None => true | Some _ => false end.

Definition select_balance (address : string) (db : Tables) : Z :=
  COALESCE (sql_sum (map Utxo.value (filter (unspent_at address) (utxos db)))) 0.

(** ** [processBlock] *)

Definition same_ref (input : Input.t) (r : Utxo.row) : bool :=
  String.eqb (Utxo.tx_id r) (Input.txId input)
  && (Utxo.output_index r =? Input.index input).

(** The loop over [tx.inputs]: the running [txInputsValue] and
    [inputsToSpend]. *)
Fixpoint resolve_inputs (tx : Transaction.t) (rows : list Utxo.row)
    (inputs : list Input.t) (acc : number * list Spend)
  : M (number * list Spend) :=
  match inputs with
  | [] => ret acc
  | input :: rest =>
      match find (same_ref input) rows with
      | None => throw (UtxoNotFound (Transaction.id tx) input)
      | Some utxo =>
          match Utxo.spent_tx_id utxo with
          | Some spender =>
              throw (AlreadySpent (Transaction.id tx) input spender)
          | None =>
              let value := parseValue (PgNumeric (Utxo.value utxo)) in
              resolve_inputs tx rows rest
                ((fst acc + value)%float,
                 snd acc ++ [mkSpend (Input.txId input) (Input.index input)
                                     (Transaction.id tx)])
          end
      end
  end.

(** [tx.outputs.forEach((output, index) => ...)]: the running
    [txOutputsValue] and [newUtxos]. *)
Fixpoint stage_outputs (tx : Transaction.t) (height : Z)
    (outputs : list Output.t) (index : Z) (acc : number * list NewUtxo)
  : number * list NewUtxo :=
  match outputs with
  | [] => acc
  | output :: rest =>
      stage_outputs tx height rest (index + 1)
        ((fst acc + parseValue (JsNumber (Output.value output)))%float,
         snd acc ++ [mkNew (Transaction.id tx) index (Output.address output)
                           (Output.value output) height])
  end.

(** One turn of [for (const tx of block.transactions)]. *)
Definition process_tx (block : Block.t) (tx : Transaction.t)
    (st : list Spend * list NewUtxo) : M (list Spend * list NewUtxo) :=
  let inputs := Transaction.inputs tx in
  ins <- (if (0 <? List.length inputs)%nat
          then
            rows <- select_utxos_in (inputReferences inputs) ;;
            if negb (List.length rows =? List.length inputs)%nat
            then throw (MissingUtxo (Transaction.id tx))
            else resolve_inputs tx rows inputs (0%float, fst st)
          else ret (0%float, fst st)) ;;
  let outs := stage_outputs tx (Block.height block) (Transaction.outputs tx) 0
                            (0%float, snd st) in
  let txInputsValue := fst ins in
  let txOutputsValue := fst outs in
  if (0 <? List.length inputs)%nat
     && negb (Number (FixedText (toFixed8 txInputsValue))
              =? Number (FixedText (toFixed8 txOutputsValue)))%float
  then throw (ValueMismatch (Transaction.id tx)
                            (toFixed8 txInputsValue) (toFixed8 txOutputsValue))
  else ret (snd ins, snd outs).

Fixpoint process_transactions (block : Block.t) (txs : list Transaction.t)
    (st : list Spend * list NewUtxo) : M (list Spend * list NewUtxo) :=
  match txs with
  | [] => ret st
  | tx :: rest =>
      st' <- process_tx block tx st ;;
      process_transactions block rest st'
  end.

Definition processBlock (block : Block.t) : M unit :=
  currentHeight <- getCurrentHeight ;;
  if negb (Block.height block =? currentHeight + 1)
  then throw (InvalidHeight (currentHeight + 1) (Block.height block))
  else
    let txIds := map Transaction.id (Block.transactions block) in
    let expectedHash := calculateBlockHash (Block.height block) txIds in
    if negb (String.eqb (Block.id block) expectedHash)
    then throw (InvalidHash expectedHash (Block.id block))
    else
      st <- process_transactions block (Block.transactions block) ([], []) ;;
      let inputsToSpend := fst st in
      let newUtxos := snd st in
      insert_block (Block.height block) (Block.id block) txIds ;;;
      (if (0 <? List.length inputsToSpend)%nat
       then for_each inputsToSpend update_spend
       else ret tt) ;;;
      (if (0 <? List.length newUtxos)%nat
       then insert_utxos newUtxos
       else ret tt).

(** ** [rollbackToHeight] *)

Definition rollbackToHeight (targetHeight : Z) : M (list Z) :=
  currentHeight <- getCurrentHeight ;;
  if targetHeight >=? currentHeight then ret []
  else if targetHeight <? 0 then throw NegativeTarget
  else
    txIdsResult <- select_transaction_ids_above targetHeight ;;
    let txIdsInRolledBackBlocks := List.concat txIdsResult in
    (if (0 <? List.length txIdsInRolledBackBlocks)%nat
     then update_unspend txIdsInRolledBackBlocks
     else ret tt) ;;;
    delete_utxos_above targetHeight ;;;
    blocksDeletedResult <- delete_blocks_above targetHeight ;;
    ret (map BlockRow.height blocksDeletedResult).

(** ** The request handlers *)

(** A client in a transaction: [BEGIN] starts from the committed tables,
    statements change the working copy. *)
Record Client : Type := mkClient { committed : Tables; working : Tables }.

Definition BEGIN (dbPool : Tables) : Client := mkClient dbPool dbPool.
Definition run {A} (m : M A) (client : Client) : (Error + A) * Client :=
  let r := m (working client) in
  (fst r, mkClient (committed client) (snd r)).
Definition COMMIT (client : Client) : Tables := working client.
Definition ROLLBACK (client : Client) : Tables := committed client.

Inductive Body : Type :=
| InvalidBlockStructure
| BlockIndexed (height : Z)
| Failed (error : Error)
| Balance (address : string) (balance : number)
| InvalidTargetHeight
| StateUnchanged (targetHeight : Z)
| RolledBack (targetHeight : Z) (blocks_removed : list Z).

Record Reply : Type := mkReply { code : Z; body : Body }.

(** [fastify.post('/blocks')] *)
Definition post_blocks (block : Block.t) (dbPool : Tables) : Reply * Tables :=
  if String.eqb (Block.id block) ""
  then (mkReply 400 InvalidBlockStructure, dbPool)
  else
    let client := BEGIN dbPool in
    match run (processBlock block) client with
    | (inr _, client') =>
        (mkReply 201 (BlockIndexed (Block.height block)), COMMIT client')
    | (inl error, client') =>
        (mkReply 400 (Failed error), ROLLBACK client')
    end.

(** [fastify.get('/balance/:address')] *)
Definition get_balance (address : string) (dbPool : Tables) : Reply :=
  let balance := parseValue (PgNumeric (select_balance address dbPool)) in
  mkReply 200 (Balance address balance).

(** [fastify.post('/rollback')]; [None] is a missing or non-numeric
    [height] parameter. *)
Definition post_rollback (height : option Z) (dbPool : Tables)
  : Reply * Tables :=
  match height with
  | None => (mkReply 400 InvalidTargetHeight, dbPool)
  | Some targetHeight =>
      let client := BEGIN dbPool in
      match run (rollbackToHeight targetHeight) client with
      | (inr rolledBackHeights, client') =>
          (mkReply 200
             (if (List.length rolledBackHeights =? 0)%nat
              then StateUnchanged targetHeight
              else RolledBack targetHeight rolledBackHeights),
           COMMIT client')
      | (inl error, client') =>
          (mkReply 400 (Failed error), ROLLBACK client')
      end
  end.

Inductive Request : Type :=
| PostBlocks (block : Block.t)
| GetBalance (address : string)
| PostRollback (height : option Z).

Definition handle (req : Request) (dbPool : Tables) : Reply * Tables :=
  match req with
  | PostBlocks block => post_blocks block dbPool
  | GetBalance address => (get_balance address dbPool, dbPool)
  | PostRollback height => post_rollback height dbPool
  end.

(** The tables the server can hold: those the handlers produce from the
    empty tables. *)
Inductive reachable : Tables -> Prop :=
| reach_empty : reachable empty_tables
| reach_handle req db : reachable db -> reachable (snd (handle req db)).

(** ** The scenario of the test suite *)

Module Scenario.
Local Open Scope string_scope.

Definition BLOCK_1 : Block.t :=
  Block.mk "d1582b9e2cac15e170c39ef2e85855ffd7e6a820550a8ca16a2f016d366503dc" 1
    [Transaction.mk "tx1" [] [Output.mk "addr1" 10]].
Definition BLOCK_2 : Block.t :=
  Block.mk "c4701d0bfd7179e1db6e33e947e6c718bbc4a1ae927300cd1e3bda91a930cba5" 2
    [Transaction.mk "tx2" [Input.mk "tx1" 0]
       [Output.mk "addr2" 4; Output.mk "addr3" 6]].
Definition BLOCK_3 : Block.t :=
  Block.mk "4e5f22a2abacfaf2dcaaeb1652aec4eb65028d0f831fa435e6b1ee931c6799ec" 3
    [Transaction.mk "tx3" [Input.mk "tx2" 1]
       [Output.mk "addr4" 2; Output.mk "addr5" 2; Output.mk "addr6" 2]].

Definition invalidHeightBlock : Block.t :=
  Block.mk (Block.id BLOCK_1) 2 (Block.transactions BLOCK_1).
Definition invalidHashBlock : Block.t :=
  Block.mk "totally_wrong_hash" 1 (Block.transactions BLOCK_1).
Definition doubleSpendBlock : Block.t :=
  Block.mk (calculateBlockHash 4 ["tx4_double_spend"]) 4
    [Transaction.mk "tx4_double_spend" [Input.mk "tx2" 1]
       [Output.mk "hacker" 6]].

Definition after (reqs : list Request) : Tables :=
  fold_left (fun db req => snd (handle req db)) reqs empty_tables.

Definition db1 : Tables := after [PostBlocks BLOCK_1].
Definition db2 : Tables := after [PostBlocks BLOCK_1; PostBlocks BLOCK_2].
Definition db3 : Tables :=
  after [PostBlocks BLOCK_1; PostBlocks BLOCK_2; PostBlocks BLOCK_3].

End Scenario.


(** ** The two halves of [processBlock]

    The loop over the transactions only reads the tables; the statements
    after it write them.  [processBlock_eq] below shows [processBlock] is
    the one followed by the other. *)

Definition validate (block : Block.t) (db : Tables)
  : Error + (list Spend * list NewUtxo) :=
  fst (process_transactions block (Block.transactions block) ([], []) db).

Definition write_block (block : Block.t) (st : list Spend * list NewUtxo)
  : M unit :=
  insert_block (Block.height block) (Block.id block)
               (map Transaction.id (Block.transactions block)) ;;;
  (if (0 <? List.length (fst st))%nat
   then for_each (fst st) update_spend
   else ret tt) ;;;
  (if (0 <? List.length (snd st))%nat
   then insert_utxos (snd st)
   else ret tt).

Definition apply_spends (spends : list Spend) (rows : list Utxo.row)
  : list Utxo.row :=
  fold_left (fun rs s => map (spend_row s) rs) spends rows.

Definition block_row (block : Block.t) : BlockRow.row :=
  BlockRow.mk (Block.height block) (Block.id block)
              (map Transaction.id (Block.transactions block)).

Definition heights (db : Tables) : list Z := map BlockRow.height (blocks db).

(** *** What one transaction contributes *)

(** The number read from the entry an input refers to. *)
Definition stored_value (rows : list Utxo.row) (input : Input.t) : number :=
  match find (same_ref input) rows with
  | Some utxo => parseValue (PgNumeric (Utxo.value utxo))
  | None => 0%float
  end.

(** [let sum = 0; for (const x of l) sum += x], in binary64. *)
Definition sum_values (l : list number) : number := fold_left add l 0%float.

(** The sum of the values of the entries the inputs refer to. *)
Definition input_total (rows : list Utxo.row) (tx : Transaction.t) : number :=
  sum_values (map (stored_value rows) (Transaction.inputs tx)).

(** The sum of the declared output values, as declared. *)
Definition output_total (tx : Transaction.t) : number :=
  sum_values (map (fun o => parseValue (JsNumber (Output.value o)))
                  (Transaction.outputs tx)).

(** [Number(a.toFixed(8)) === Number(b.toFixed(8))] *)
Definition conserved (a b : number) : bool :=
  (Number (FixedText (toFixed8 a)) =? Number (FixedText (toFixed8 b)))%float.

(** The [txId] can be spliced between quotes into the text of a statement:
    it contains no quote, and no NUL, which would end the text. *)
Definition plain (s : string) : bool :=
  negb (existsb (fun c => Ascii.eqb c "'" || Ascii.eqb c Ascii.zero)
                (list_ascii_of_string s)).

Definition plain_inputs (txs : list Transaction.t) : Prop :=
  forall tx i, In tx txs -> In i (Transaction.inputs tx) ->
    plain (Input.txId i) = true.

Definition spends_of (tx : Transaction.t) : list Spend :=
  map (fun i => mkSpend (Input.txId i) (Input.index i) (Transaction.id tx))
      (Transaction.inputs tx).

Fixpoint staged_from (txid : string) (height : Z) (outputs : list Output.t)
    (index : Z) : list NewUtxo :=
  match outputs with
  | [] => []
  | o :: rest =>
      mkNew txid index (Output.address o) (Output.value o) height
      :: staged_from txid height rest (index + 1)
  end.

Definition staged (block : Block.t) (tx : Transaction.t) : list NewUtxo :=
  staged_from (Transaction.id tx) (Block.height block)
              (Transaction.outputs tx) 0.

(** Every input finds an unspent entry among [rows]. *)
Definition resolvable (rows : list Utxo.row) (inputs : list Input.t) : Prop :=
  forall i, In i inputs ->
    exists u, find (same_ref i) rows = Some u /\ Utxo.spent_tx_id u = None.

(** The rows the [SELECT] of a transaction returns. *)
Definition selected (db : Tables) (tx : Transaction.t) : list Utxo.row :=
  filter (fun r =>
            existsb (String.eqb (concat_key (Utxo.tx_id r) (Utxo.output_index r)))
                    (inputReferences (Transaction.inputs tx))) (utxos db).

(** *** What a rollback leaves *)

Definition removed_tx_ids (target : Z) (db : Tables) : list string :=
  List.concat (map BlockRow.transaction_ids
                 (filter (fun b => target <? BlockRow.height b) (blocks db))).

Definition rolled_back (target : Z) (db : Tables) : Tables :=
  mkTables
    (filter (fun b => negb (target <? BlockRow.height b)) (blocks db))
    (filter (fun r => negb (target <? Utxo.block_height r))
            (map (unspend_row (removed_tx_ids target db)) (utxos db))).

(** [s] is a transaction of a recorded block above [target]. *)
Definition removed_spender (target : Z) (db : Tables) (s : string) : Prop :=
  exists b, In b (blocks db) /\ target < BlockRow.height b
            /\ In s (BlockRow.transaction_ids b).

(** What a rollback to [target] makes of a kept entry [r0]: the same entry,
    without its spender when that was a transaction of a block above
    [target]. *)
Definition restored (target : Z) (db : Tables) (r0 r : Utxo.row) : Prop :=
  Utxo.key r = Utxo.key r0
  /\ Utxo.address r = Utxo.address r0
  /\ Utxo.value r = Utxo.value r0
  /\ Utxo.block_height r = Utxo.block_height r0
  /\ match Utxo.spent_tx_id r0 with
     | None => Utxo.spent_tx_id r = None
     | Some s =>
         (removed_spender target db s -> Utxo.spent_tx_id r = None)
         /\ (~ removed_spender target db s -> Utxo.spent_tx_id r = Some s)
     end.

(** *** Invariants and reference definitions *)

(** The recorded heights are exactly 1..currentHeight, each once. *)
Definition contiguous (db : Tables) : Prop :=
  NoDup (heights db)
  /\ forall h, In h (heights db) <-> 1 <= h <= current_height db.

(** The sum of [value] over the entries of an address that nobody spent. *)
Fixpoint unspent_sum (address : string) (rows : list Utxo.row) : Z :=
  match rows with
  | [] => 0
  | r :: rest =>
      (if String.eqb (Utxo.address r) address
       then match Utxo.spent_tx_id r with
            | None => Utxo.value r
            | Some _ => 0
            end
       else 0) + unspent_sum address rest
  end.

(** The errors [processBlock] throws itself, before it writes. *)
Definition validation_error (e : Error) : Prop :=
  match e with
  | MissingUtxo _ | UtxoNotFound _ _ | AlreadySpent _ _ _
  | ValueMismatch _ _ _ => True
  | _ => False
  end.

(** ** Two transactions of one block spending the same output *)

Module SameBlockSpend.
Local Open Scope string_scope.

Definition txA : Transaction.t :=
  Transaction.mk "txA" [Input.mk "tx1" 0] [Output.mk "addrA" 10].
Definition txB : Transaction.t :=
  Transaction.mk "txB" [Input.mk "tx1" 0] [Output.mk "addrB" 10].

Definition block : Block.t :=
  Block.mk (calculateBlockHash 2 ["txA"; "txB"]) 2 [txA; txB].

End SameBlockSpend.

(** [PRIMARY KEY (tx_id, output_index)] *)
Definition primary_key (db : Tables) : Prop :=
  NoDup (map Utxo.key (utxos db)).

(** The entry an input refers to. *)
Definition ref (input : Input.t) : string * Z :=
  (Input.txId input, Input.index input).

(** ** Inputs that do not resolve *)

Module Unresolved.
Local Open Scope string_scope.

(** [tx1:0] twice in one transaction. *)
Definition twice : Block.t :=
  Block.mk (calculateBlockHash 2 ["tx2"]) 2
    [Transaction.mk "tx2" [Input.mk "tx1" 0; Input.mk "tx1" 0]
       [Output.mk "addr2" 20]].

(** The second transaction spends the output of the first. *)
Definition chained : Block.t :=
  Block.mk (calculateBlockHash 2 ["tx2"; "tx3"]) 2
    [Transaction.mk "tx2" [Input.mk "tx1" 0] [Output.mk "addr2" 10];
     Transaction.mk "tx3" [Input.mk "tx2" 0] [Output.mk "addr3" 10]].

(** The first transaction reuses the identifier [tx1], so the output
    [tx1:0] it creates has the key of a persisted entry. *)
Definition reused_first : Transaction.t :=
  Transaction.mk "tx1" [] [Output.mk "addrX" 5].
Definition reused_second : Transaction.t :=
  Transaction.mk "c" [Input.mk "tx1" 0] [Output.mk "addrY" 10].
Definition reused : Block.t :=
  Block.mk (calculateBlockHash 2 ["tx1"; "c"]) 2 [reused_first; reused_second].

End Unresolved.

(** ** Value conservation *)

(** The inputs of [tx] are distinct references to persisted entries that
    nobody spent. *)
Definition spendable (db : Tables) (tx : Transaction.t) : Prop :=
  NoDup (map ref (Transaction.inputs tx))
  /\ forall i, In i (Transaction.inputs tx) ->
       exists r, In r (utxos db) /\ Utxo.key r = ref i
                 /\ Utxo.spent_tx_id r = None.

(** A total in which every value is rounded to 8 fractional digits before
    it is added. *)
Definition total_of_rounded (values : list number) : number :=
  sum_values (map (fun x => Number (FixedText (toFixed8 x))) values).

Module Rounding.
Local Open Scope string_scope.

(** [tx1] issues 0.00000001; [tx2] spends it into two outputs of
    0.000000004 each. *)
Definition block1 : Block.t :=
  Block.mk (calculateBlockHash 1 ["tx1"]) 1
    [Transaction.mk "tx1" [] [Output.mk "addr1" 0.00000001]].
Definition tx2 : Transaction.t :=
  Transaction.mk "tx2" [Input.mk "tx1" 0]
    [Output.mk "addr2" 0.000000004; Output.mk "addr3" 0.000000004].
Definition block2 : Block.t :=
  Block.mk (calculateBlockHash 2 ["tx2"]) 2 [tx2].

Definition db1 : Tables := snd (post_blocks block1 empty_tables).

(** [tx2] of the test suite with outputs 4 and 5 for an input of 10. *)
Definition short : Block.t :=
  Block.mk (calculateBlockHash 2 ["tx2"]) 2
    [Transaction.mk "tx2" [Input.mk "tx1" 0]
       [Output.mk "addr2" 4; Output.mk "addr3" 5]].

(** A first block that issues [v], and a second one that spends it into a
    single output of [w]. *)
Definition issue (v : number) : Block.t :=
  Block.mk (calculateBlockHash 1 ["tx1"]) 1
    [Transaction.mk "tx1" [] [Output.mk "addr1" v]].
Definition spend (w : number) : Block.t :=
  Block.mk (calculateBlockHash 2 ["tx2"]) 2
    [Transaction.mk "tx2" [Input.mk "tx1" 0] [Output.mk "addr2" w]].
Definition issued (v : number) : Tables :=
  snd (post_blocks (issue v) empty_tables).

End Rounding.

(** ** A sum that is not a binary64 value *)

Module Precision.
Local Open Scope string_scope.

Definition block1 : Block.t :=
  Block.mk (calculateBlockHash 1 ["tx1"]) 1
    [Transaction.mk "tx1" []
       [Output.mk "addr1" 999999999999; Output.mk "addr1" 0.99999999]].

Definition db1 : Tables := snd (post_blocks block1 empty_tables).

End Precision.

(** ** Sequences of accepted blocks *)

(** Submits the blocks in order; [None] when one of them is refused. *)
Fixpoint accept_all (bs : list Block.t) (db : Tables) : option Tables :=
  match bs with
  | [] => Some db
  | b :: bs' =>
      if code (fst (post_blocks b db)) =? 201
      then accept_all bs' (snd (post_blocks b db))
      else None
  end.

Definition block_tx_ids (b : Block.t) : list string :=
  map Transaction.id (Block.transactions b).

Definition tx_ids (bs : list Block.t) : list string :=
  flat_map block_tx_ids bs.

(** The rollback statements for a given list of transaction identifiers. *)
Definition undo (target : Z) (txIds : list string) (db : Tables) : Tables :=
  mkTables
    (filter (fun b => negb (target <? BlockRow.height b)) (blocks db))
    (filter (fun r => negb (target <? Utxo.block_height r))
            (map (unspend_row txIds) (utxos db))).

(** Nothing in the tables is above height [n], and every spender is one of
    [ids]. *)
Definition below (n : Z) (ids : list string) (db : Tables) : Prop :=
  current_height db = n
  /\ (forall r, In r (utxos db) -> Utxo.block_height r <= n)
  /\ (forall r s, In r (utxos db) -> Utxo.spent_tx_id r = Some s -> In s ids).

Definition spend_all (spends : list Spend) (r : Utxo.row) : Utxo.row :=
  fold_left (fun r s => spend_row s r) spends r.

Module Reuse.
Local Open Scope string_scope.

(** The third block carries a transaction named [b] again, with no input
    and no output. *)
Definition block1 : Block.t :=
  Block.mk (calculateBlockHash 1 ["a"]) 1
    [Transaction.mk "a" [] [Output.mk "addr1" 10]].
Definition block2 : Block.t :=
  Block.mk (calculateBlockHash 2 ["b"]) 2
    [Transaction.mk "b" [Input.mk "a" 0] [Output.mk "addr2" 10]].
Definition block3 : Block.t :=
  Block.mk (calculateBlockHash 3 ["b"]) 3 [Transaction.mk "b" [] []].

End Reuse.

(** *** Texts *)

Definition chars (s : string) : list ascii := list_ascii_of_string s.

Definition lower_hex (c : ascii) : Prop :=
  In c (chars "0123456789abcdef").

(** The text [CONCAT] makes of a key. *)
Definition key_text (k : string * Z) : string := concat_key (fst k) (snd k).

(** ** A block refused by the storage after its row is written *)

Module LateFailure.
Local Open Scope string_scope.

(** A second block whose only transaction is again called [tx1]: its
    output [tx1:0] collides with the stored one. *)
Definition block : Block.t :=
  Block.mk (calculateBlockHash 2 ["tx1"]) 2
    [Transaction.mk "tx1" [] [Output.mk "addr9" 1]].

End LateFailure.

(** ** Further reference definitions *)


(** Every input of [tx] is the key of a persisted entry, each once. *)
Definition present (db : Tables) (tx : Transaction.t) : Prop :=
  NoDup (map ref (Transaction.inputs tx))
  /\ forall i, In i (Transaction.inputs tx) ->
       exists r, In r (utxos db) /\ Utxo.key r = ref i.

(** The entry a staged output is stored as. *)
Definition row_of (u : NewUtxo) : Utxo.row :=
  Utxo.mk (n_txId u) (n_output_index u) (n_address u) (round8 (n_value u))
          (n_block_height u) None.

(** All the spends and all the outputs a block stages, in order. *)
Definition block_spends (block : Block.t) : list Spend :=
  flat_map spends_of (Block.transactions block).

Definition block_outputs (block : Block.t) : list NewUtxo :=
  flat_map (staged block) (Block.transactions block).

(** Some input of some transaction of the block refers to the entry. *)
Definition referenced (block : Block.t) (r : Utxo.row) : bool :=
  existsb (fun tx => existsb (fun i => same_ref i r) (Transaction.inputs tx))
          (Block.transactions block).

(** The units the outputs of a block declare for an address, each value
    rounded as it is stored. *)
Definition credited (address : string) (block : Block.t) : Z :=
  fold_left Z.add
    (map (fun o => round8 (Output.value o))
       (filter (fun o => String.eqb (Output.address o) address)
          (flat_map Transaction.outputs (Block.transactions block)))) 0.

(** ** Two blocks with one hash *)

Module Collision.
Local Open Scope string_scope.

Definition empty_block (height : Z) : Block.t :=
  Block.mk (calculateBlockHash height []) height [].

(** Height 1 with the transaction [0x], and height 10 with the transaction
    [x]: both hash the text [10x]. *)
Definition first : Block.t :=
  Block.mk (calculateBlockHash 1 ["0x"]) 1 [Transaction.mk "0x" [] []].
Definition tenth : Block.t :=
  Block.mk (calculateBlockHash 10 ["x"]) 10 [Transaction.mk "x" [] []].

Definition nine : list Block.t :=
  first :: map empty_block [2; 3; 4; 5; 6; 7; 8; 9].

Definition db9 : Tables :=
  fold_left (fun db b => snd (post_blocks b db)) nine empty_tables.

End Collision.

(** ** Referential integrity *)

(** Every entry was created by a transaction of the recorded block at its
    height, and every spender is a transaction of a recorded block. *)
Definition integrity (db : Tables) : Prop :=
  forall r, In r (utxos db) ->
    (exists b, In b (blocks db)
               /\ BlockRow.height b = Utxo.block_height r
               /\ In (Utxo.tx_id r) (BlockRow.transaction_ids b))
    /\ (forall s, Utxo.spent_tx_id r = Some s ->
          exists b, In b (blocks db) /\ In s (BlockRow.transaction_ids b)).

(** ** [bootstrap] and the start of the server

    The body of the [try] (connect, create the tables, read the height,
    release) is one step that succeeds or throws; [attempt n] tells which,
    for the [n]-th time it runs.  The trace counts these runs and the
    [delay(3000)] calls. *)

Inductive BootResult : Type :=
| Ready                  (* the loop was left by [break] *)
| UrlRequired            (* [DATABASE_URL is required] *)
| OutOfRetries.          (* the last error is thrown again *)

Record Boot : Type := mkBoot
  { boot_result : BootResult; attempts : nat; delays : list Z }.

Section Bootstrap.
Variable attempt : nat -> bool.
(** Whether [fastify.listen] binds the port or throws. *)
Variable listens : bool.

(** [while (retries > 0) { try { ...; break } catch { retries--; ... } }],
    entered for the [n]-th run with the delays so far. *)
Fixpoint retry_loop (retries n : nat) (slept : list Z) : Boot :=
  match retries with
  | O => mkBoot Ready n slept
  | S retries' =>
      if attempt n then mkBoot Ready (S n) slept
      else if (retries' =? 0)%nat then mkBoot OutOfRetries (S n) slept
      else retry_loop retries' (S n) (slept ++ [3000])
  end.

Definition bootstrap (DATABASE_URL : option string) : Boot :=
  match DATABASE_URL with
  | None => mkBoot UrlRequired 0 []
  | Some databaseUrl =>
      if String.eqb databaseUrl "" then mkBoot UrlRequired 0 []
      else retry_loop 5 0 []
  end.

Inductive Process : Type :=
| Listening (port : Z)
| Exit (status : Z).

(** [try { await bootstrap(); await fastify.listen(...) }
     catch (err) { process.exit(1) }] *)
Definition start (DATABASE_URL : option string) : Process :=
  match boot_result (bootstrap DATABASE_URL) with
  | Ready => if listens then Listening 3000 else Exit 1
  | _ => Exit 1
  end.

End Bootstrap.

(** ** The blocks that are accepted *)






(** * Properties *)

(** ** Decimal text and the [CONCAT] key *)

Lemma chars_append (s1 s2 : string) :
  chars (s1 ++ s2) = (chars s1 ++ chars s2)%list.
Proof.
  induction s1 as [|c s1 IH]; simpl; [reflexivity|].
  unfold chars in *. simpl. now rewrite IH.
Qed.

Lemma uint_chars_no_sep (d : Decimal.uint) :
  ~ In "_"%char (chars (NilEmpty.string_of_uint d)).
Proof.
  induction d; simpl; intros H; try contradiction;
    destruct H as [H | H]; try discriminate H; auto.
Qed.

Lemma string_of_Z_no_sep (n : Z) : ~ In "_"%char (chars (string_of_Z n)).
Proof.
  unfold string_of_Z, NilZero.string_of_int, NilZero.string_of_uint.
  destruct (Z.to_int n) as [d | d]; destruct d; simpl;
    intros H; repeat (destruct H as [H | H]; [discriminate H|]);
    try contradiction;
    exact (uint_chars_no_sep _ H).
Qed.

Lemma string_of_Z_inj (n m : Z) : string_of_Z n = string_of_Z m -> n = m.
Proof.
  unfold string_of_Z. intros H.
  apply DecimalZ.to_int_inj.
  assert (ok : forall z, NilZero.int_of_string
                 (NilZero.string_of_int (Z.to_int z)) = Some (Z.to_int z)).
  { intros z. apply NilZero.isi; destruct z; simpl; intros [= E];
      try discriminate;
      try (exact (DecimalPos.Unsigned.to_uint_nonnil _ E)). }
  pose proof (ok n) as Hn. rewrite H, ok in Hn. now injection Hn.
Qed.

Lemma sep_split (s s' d d' : string) :
  ~ In "_"%char (chars d) -> ~ In "_"%char (chars d') ->
  (s ++ "_" ++ d)%string = (s' ++ "_" ++ d')%string -> s = s' /\ d = d'.
Proof.
  revert s'. induction s as [|c s IH]; intros [|c' s'] Hd Hd' E; simpl in E.
  - injection E as E. now split.
  - injection E as Ec E. exfalso. apply Hd. rewrite E, chars_append.
    apply in_or_app. right. now left.
  - injection E as Ec E. exfalso. apply Hd'. rewrite <- E, chars_append.
    apply in_or_app. right. now left.
  - injection E as Ec E. destruct (IH s' Hd Hd' E) as [-> ->]. now subst.
Qed.

Lemma concat_key_inj (t t' : string) (n n' : Z) :
  concat_key t n = concat_key t' n' -> t = t' /\ n = n'.
Proof.
  unfold concat_key. intros E.
  apply sep_split in E; try apply string_of_Z_no_sep.
  destruct E as [-> E]. split; [reflexivity | now apply string_of_Z_inj].
Qed.

(** ** Validation reads, it does not write *)

Lemma resolve_inputs_db tx rows inputs acc db :
  snd (resolve_inputs tx rows inputs acc db) = db.
Proof.
  revert acc. induction inputs as [|i inputs IH]; intros acc; simpl.
  - reflexivity.
  - destruct (find (same_ref i) rows) as [u|]; [|reflexivity].
    destruct (Utxo.spent_tx_id u); [reflexivity | apply IH].
Qed.

Lemma process_tx_db block tx st db : snd (process_tx block tx st db) = db.
Proof.
  unfold process_tx, bind.
  destruct (0 <? List.length (Transaction.inputs tx))%nat; simpl.
  - unfold select_utxos_in.
    match goal with |- context [negb ?c] => destruct c end; simpl.
    + match goal with
      | |- context [resolve_inputs ?a ?b ?c ?d ?e] =>
          pose proof (resolve_inputs_db a b c d e) as H;
          destruct (resolve_inputs a b c d e) as [[e'|r] db']
      end; simpl in *; subst; [reflexivity|].
      match goal with |- context [if ?c then _ else _] => destruct c end;
        reflexivity.
    + reflexivity.
  - reflexivity.
Qed.

Lemma process_transactions_db block txs st db :
  snd (process_transactions block txs st db) = db.
Proof.
  revert st. induction txs as [|tx txs IH]; intros st; simpl.
  - reflexivity.
  - unfold bind. pose proof (process_tx_db block tx st db) as H.
    destruct (process_tx block tx st db) as [[e|st'] db']; simpl in *; subst.
    + reflexivity.
    + apply IH.
Qed.

Lemma processBlock_eq block db :
  processBlock block db =
  if negb (Block.height block =? current_height db + 1)
  then (inl (InvalidHeight (current_height db + 1) (Block.height block)), db)
  else if negb (String.eqb (Block.id block)
                  (calculateBlockHash (Block.height block)
                     (map Transaction.id (Block.transactions block))))
  then (inl (InvalidHash
               (calculateBlockHash (Block.height block)
                  (map Transaction.id (Block.transactions block)))
               (Block.id block)), db)
  else match validate block db with
       | inl e => (inl e, db)
       | inr st => write_block block st db
       end.
Proof.
  unfold processBlock, bind, getCurrentHeight, validate. simpl.
  destruct (negb (Block.height block =? current_height db + 1));
    [reflexivity|].
  destruct (negb (String.eqb _ _)); [reflexivity|].
  unfold throw, write_block, bind.
  pose proof (process_transactions_db block (Block.transactions block)
                ([], []) db) as H.
  destruct (process_transactions block (Block.transactions block) ([], []) db)
    as [[e|st] db']; simpl in *; subst; reflexivity.
Qed.

(** ** One transaction *)

Lemma resolve_inputs_ok tx rows inputs acc db :
  resolvable rows inputs ->
  resolve_inputs tx rows inputs acc db
  = (inr (fold_left add (map (stored_value rows) inputs) (fst acc),
          (snd acc ++ map (fun i => mkSpend (Input.txId i) (Input.index i)
                                            (Transaction.id tx)) inputs)%list),
     db).
Proof.
  revert acc. induction inputs as [|i inputs IH]; intros acc Hres; simpl.
  - unfold ret. rewrite app_nil_r. now destruct acc.
  - destruct (Hres i (or_introl eq_refl)) as (u & Hu & Hs).
    unfold stored_value at 2. rewrite Hu, Hs.
    rewrite IH by (intros j Hj; apply Hres; now right).
    simpl. now rewrite <- app_assoc.
Qed.

Lemma resolve_inputs_inv tx rows inputs acc db r :
  fst (resolve_inputs tx rows inputs acc db) = inr r ->
  resolvable rows inputs.
Proof.
  revert acc. induction inputs as [|i inputs IH]; intros acc H j Hj.
  - contradiction.
  - simpl in H. destruct (find (same_ref i) rows) as [u|] eqn:Hu;
      [|discriminate H].
    destruct (Utxo.spent_tx_id u) eqn:Hs; [discriminate H|].
    destruct Hj as [<- | Hj]; [now exists u | exact (IH _ H j Hj)].
Qed.

Lemma resolve_inputs_error tx rows inputs acc db e :
  fst (resolve_inputs tx rows inputs acc db) = inl e ->
  exists i, In i inputs /\
    (e = UtxoNotFound (Transaction.id tx) i
     \/ exists s, e = AlreadySpent (Transaction.id tx) i s).
Proof.
  revert acc. induction inputs as [|i inputs IH]; intros acc H; simpl in H.
  - discriminate H.
  - destruct (find (same_ref i) rows) as [u|] eqn:Hu.
    + destruct (Utxo.spent_tx_id u) eqn:Hs.
      * injection H as <-. exists i. split; [now left | right; eauto].
      * destruct (IH _ H) as (j & Hj & He). exists j. split; [now right|easy].
    + injection H as <-. exists i. split; [now left | now left].
Qed.

Lemma stage_outputs_eq tx height outputs index acc :
  stage_outputs tx height outputs index acc
  = (fold_left add
       (map (fun o => parseValue (JsNumber (Output.value o))) outputs)
       (fst acc),
     (snd acc ++ staged_from (Transaction.id tx) height outputs index)%list).
Proof.
  revert index acc. induction outputs as [|o outputs IH]; intros index acc.
  - simpl. rewrite app_nil_r. now destruct acc.
  - simpl. rewrite IH. simpl. now rewrite <- app_assoc.
Qed.

(** [process_tx] in closed form. *)
Lemma process_tx_eq block tx st db :
  process_tx block tx st db =
  match Transaction.inputs tx with
  | [] => (inr (fst st, (snd st ++ staged block tx)%list), db)
  | _ :: _ =>
      if negb (List.length (selected db tx)
               =? List.length (Transaction.inputs tx))%nat
      then (inl (MissingUtxo (Transaction.id tx)), db)
      else
        match fst (resolve_inputs tx (selected db tx) (Transaction.inputs tx)
                     (0%float, fst st) db) with
        | inl e => (inl e, db)
        | inr _ =>
            if negb (conserved (input_total (selected db tx) tx)
                               (output_total tx))
            then (inl (ValueMismatch (Transaction.id tx)
                         (toFixed8 (input_total (selected db tx) tx))
                         (toFixed8 (output_total tx))), db)
            else (inr ((fst st ++ spends_of tx)%list,
                       (snd st ++ staged block tx)%list), db)
        end
  end.
Proof.
  unfold process_tx, bind, staged, output_total, sum_values.
  rewrite stage_outputs_eq. simpl fst. simpl snd.
  destruct (Transaction.inputs tx) as [|i inputs] eqn:Hin.
  - reflexivity.
  - change (0 <? List.length (i :: inputs))%nat with true.
    unfold select_utxos_in, selected. rewrite Hin. cbv beta iota.
    set (rows := filter _ (utxos db)).
    destruct (negb (List.length rows =? List.length (i :: inputs))%nat);
      [reflexivity|].
    destruct (fst (resolve_inputs tx rows (i :: inputs) (0%float, fst st) db))
      as [e|r] eqn:Hr.
    + pose proof (resolve_inputs_db tx rows (i :: inputs) (0%float, fst st) db).
      destruct (resolve_inputs tx rows (i :: inputs) (0%float, fst st) db)
        as [[e'|r'] db']; simpl in *; subst; [congruence | discriminate].
    + apply resolve_inputs_inv in Hr.
      rewrite (resolve_inputs_ok _ _ _ _ _ Hr).
      unfold input_total, sum_values, spends_of, conserved. rewrite Hin.
      simpl fst. simpl snd. simpl andb.
      destruct (negb (_ =? _)%float); reflexivity.
Qed.

(** ** The writes of an accepted block *)

Lemma for_each_update_spend spends db :
  for_each spends update_spend db
  = (inr tt, mkTables (blocks db) (apply_spends spends (utxos db))).
Proof.
  revert db. induction spends as [|s spends IH]; intros db; simpl.
  - unfold ret. now destruct db.
  - unfold bind, update_spend. rewrite IH. reflexivity.
Qed.

Lemma utxo_rows_nil : utxo_rows [] = inr [].
Proof. reflexivity. Qed.

Lemma write_block_inv block st db r db' :
  write_block block st db = (r, db') ->
  match r with
  | inl e => exists v, e = StorageError v
  | inr _ =>
      existsb (Z.eqb (Block.height block)) (heights db) = false
      /\ exists rows,
           utxo_rows (snd st) = inr rows
           /\ db' = mkTables (blocks db ++ [block_row block])
                             (apply_spends (fst st) (utxos db) ++ rows)
           /\ (snd st <> [] ->
               distinct (map Utxo.key
                           (apply_spends (fst st) (utxos db) ++ rows)) = true)
  end.
Proof.
  unfold write_block, bind, insert_block, heights.
  destruct (negb (int4 (Block.height block))).
  { intros [= <- <-]. eauto. }
  destruct (existsb (Z.eqb (Block.height block)) _).
  { intros [= <- <-]. eauto. }
  destruct (existsb (String.eqb (Block.id block)) _).
  { intros [= <- <-]. eauto. }
  assert (Hsp : forall d,
    (if (0 <? List.length (fst st))%nat
     then for_each (fst st) update_spend else ret tt) d
    = (inr tt, mkTables (blocks d) (apply_spends (fst st) (utxos d)))).
  { intros d. destruct (fst st) as [|s l] eqn:E.
    - simpl. unfold ret. now destruct d.
    - change (0 <? List.length (s :: l))%nat with true.
      apply for_each_update_spend. }
  rewrite Hsp. cbn [blocks utxos].
  destruct (snd st) as [|u us] eqn:E.
  - simpl. unfold ret. intros [= <- <-]. split; [reflexivity|].
    exists []. rewrite app_nil_r. unfold block_row.
    repeat split; congruence.
  - change (0 <? List.length (u :: us))%nat with true.
    unfold insert_utxos. cbn [blocks utxos].
    destruct (utxo_rows (u :: us)) as [v|rows].
    { intros [= <- <-]. eauto. }
    destruct (distinct _) eqn:Hd.
    + intros [= <- <-]. split; [reflexivity|].
      exists rows. unfold block_row. repeat split; auto.
    + intros [= <- <-]. eauto.
Qed.

Lemma process_tx_error block tx st db e :
  fst (process_tx block tx st db) = inl e -> validation_error e.
Proof.
  rewrite process_tx_eq.
  destruct (Transaction.inputs tx) as [|i l]; [discriminate|].
  destruct (negb (_ =? _)%nat); [intros [= <-]; exact I|].
  destruct (fst (resolve_inputs _ _ _ _ _)) as [e'|r] eqn:Hr.
  - intros [= <-]. apply resolve_inputs_error in Hr.
    destruct Hr as (j & _ & [-> | [s ->]]); exact I.
  - destruct (negb (conserved _ _)); [intros [= <-]; exact I | discriminate].
Qed.

Lemma process_transactions_error block txs st db e :
  fst (process_transactions block txs st db) = inl e -> validation_error e.
Proof.
  revert st. induction txs as [|tx txs IH]; intros st; simpl.
  - discriminate.
  - unfold bind. pose proof (process_tx_error block tx st db) as H.
    pose proof (process_tx_db block tx st db) as Hdb.
    destruct (process_tx block tx st db) as [[e'|st'] db']; simpl in *.
    + intros [= <-]. now apply H.
    + subst. apply IH.
Qed.

Lemma validate_error block db e :
  validate block db = inl e -> validation_error e.
Proof. apply process_transactions_error. Qed.

(** ** The current height *)

Lemma fold_max_spec (l : list Z) (x : Z) :
  x <= fold_left Z.max l x
  /\ (forall y, In y l -> y <= fold_left Z.max l x)
  /\ (fold_left Z.max l x = x \/ In (fold_left Z.max l x) l).
Proof.
  revert x. induction l as [|a l IH]; intros x; simpl.
  - repeat split; [lia | contradiction | now left].
  - destruct (IH (Z.max x a)) as (H1 & H2 & H3). repeat split.
    + lia.
    + intros y [<- | Hy]; [lia | now apply H2].
    + destruct H3 as [H3 | H3]; [|now right; right].
      destruct (Z.max_spec x a) as [[_ E] | [_ E]]; rewrite E in *.
      * right. left. now rewrite H3.
      * now left.
Qed.

Lemma sql_max_spec (l : list Z) (m : Z) :
  sql_max l = Some m <-> In m l /\ forall x, In x l -> x <= m.
Proof.
  destruct l as [|a l]; simpl.
  - split; [discriminate | now intros [[] _]].
  - destruct (fold_max_spec l a) as (H1 & H2 & H3). split.
    + intros [= <-]. split.
      * destruct H3 as [-> | H3]; [now left | now right].
      * intros x [<- | Hx]; [exact H1 | now apply H2].
    + intros [Hm Hub]. f_equal. apply Z.le_antisymm.
      * destruct H3 as [-> | H3]; apply Hub; [now left | now right].
      * destruct Hm as [<- | Hm]; [exact H1 | now apply H2].
Qed.

Lemma current_height_intro (db : Tables) (m : Z) :
  In m (heights db) -> (forall x, In x (heights db) -> x <= m) ->
  current_height db = m.
Proof.
  intros Hm Hub. unfold current_height, select_max_height.
  fold (heights db).
  rewrite (proj2 (sql_max_spec (heights db) m) (conj Hm Hub)).
  destruct (Z.eqb_spec m 0); congruence.
Qed.

Lemma current_height_empty (db : Tables) :
  blocks db = [] -> current_height db = 0.
Proof.
  unfold current_height, select_max_height. now intros ->.
Qed.

Lemma current_height_bound (db : Tables) (x : Z) :
  In x (heights db) -> x <= current_height db.
Proof.
  unfold current_height, select_max_height. fold (heights db).
  destruct (sql_max (heights db)) as [m|] eqn:E.
  - apply sql_max_spec in E. destruct E as [_ Hub]. intros Hx.
    specialize (Hub x Hx). destruct (Z.eqb_spec m 0); lia.
  - destruct (heights db); [contradiction | discriminate E].
Qed.

Lemma current_height_in (db : Tables) :
  blocks db <> [] -> In (current_height db) (heights db).
Proof.
  unfold current_height, select_max_height. fold (heights db). intros Hne.
  destruct (sql_max (heights db)) as [m|] eqn:E.
  - apply sql_max_spec in E. destruct E as [Hin _].
    destruct (Z.eqb_spec m 0); congruence.
  - unfold heights in E. destruct (blocks db); [congruence | discriminate E].
Qed.

Lemma current_height_push (db : Tables) (row : BlockRow.row) us :
  BlockRow.height row = current_height db + 1 ->
  current_height (mkTables (blocks db ++ [row]) us) = BlockRow.height row.
Proof.
  intros Hh. apply current_height_intro; unfold heights; cbn [blocks];
    rewrite map_app.
  - apply in_or_app. right. now left.
  - intros x Hx. apply in_app_or in Hx. destruct Hx as [Hx | [<- | []]].
    + apply current_height_bound in Hx. lia.
    + lia.
Qed.

(** ** Accepting a block *)

Lemma processBlock_accepted block db db' :
  processBlock block db = (inr tt, db') ->
  Block.height block = current_height db + 1
  /\ Block.id block
     = calculateBlockHash (Block.height block)
         (map Transaction.id (Block.transactions block))
  /\ exists st rows,
       validate block db = inr st
       /\ utxo_rows (snd st) = inr rows
       /\ db' = mkTables (blocks db ++ [block_row block])
                         (apply_spends (fst st) (utxos db) ++ rows)
       /\ (snd st <> [] ->
           distinct (map Utxo.key
                       (apply_spends (fst st) (utxos db) ++ rows)) = true).
Proof.
  rewrite processBlock_eq.
  destruct (Z.eqb_spec (Block.height block) (current_height db + 1));
    [|discriminate].
  destruct (String.eqb_spec (Block.id block)
              (calculateBlockHash (Block.height block)
                 (map Transaction.id (Block.transactions block))));
    [|discriminate].
  simpl. destruct (validate block db) as [e'|st] eqn:Hv; [discriminate|].
  intros H. apply write_block_inv in H. destruct H as (_ & rows & H1 & H2 & H3).
  repeat split; auto. exists st, rows. auto.
Qed.

Lemma processBlock_error_kinds block db e db' :
  processBlock block db = (inl e, db') ->
  (e = InvalidHeight (current_height db + 1) (Block.height block)
   /\ Block.height block <> current_height db + 1 /\ db' = db)
  \/ (exists c, e = InvalidHash c (Block.id block)
      /\ Block.height block = current_height db + 1 /\ db' = db)
  \/ (validation_error e
      /\ Block.height block = current_height db + 1 /\ db' = db)
  \/ (exists v, e = StorageError v
      /\ Block.height block = current_height db + 1).
Proof.
  rewrite processBlock_eq.
  destruct (Z.eqb_spec (Block.height block) (current_height db + 1)); simpl.
  2:{ intros [= <- <-]. left. auto. }
  destruct (negb (String.eqb _ _)).
  { intros [= <- <-]. right. left. eauto. }
  destruct (validate block db) as [e'|st] eqn:Hv.
  - intros [= <- <-]. right. right. left. split; [|auto].
    exact (validate_error _ _ _ Hv).
  - intros H. apply write_block_inv in H. destruct H as [v ->].
    right. right. right. eauto.
Qed.

Lemma wrong_height_is_thrown block db :
  Block.height block <> current_height db + 1 ->
  processBlock block db
  = (inl (InvalidHeight (current_height db + 1) (Block.height block)), db).
Proof.
  intros Hne. rewrite processBlock_eq.
  destruct (Z.eqb_spec (Block.height block) (current_height db + 1));
    [contradiction | reflexivity].
Qed.

(** C6 -- Strict successor acceptance.  [processBlock] throws the
    invalid-height error exactly when [block.height] differs from
    [currentHeight + 1], and then the tables are untouched; a block that is
    accepted has height [currentHeight + 1], which is the current height
    afterwards: no block is accepted out of order, below the current height
    or leaving a gap. *)
Theorem strict_successor_acceptance (block : Block.t) (db : Tables) :
  ((exists expected got,
       fst (processBlock block db) = inl (InvalidHeight expected got))
   <-> Block.height block <> current_height db + 1)
  /\ (Block.height block <> current_height db + 1 ->
      processBlock block db
      = (inl (InvalidHeight (current_height db + 1) (Block.height block)), db))
  /\ (forall db', processBlock block db = (inr tt, db') ->
        Block.height block = current_height db + 1
        /\ current_height db' = current_height db + 1)
  /\ (code (fst (post_blocks block db)) = 201 ->
      Block.height block = current_height db + 1
      /\ current_height (snd (post_blocks block db)) = current_height db + 1).
Proof.
  assert (Hthrow : Block.height block <> current_height db + 1 ->
      processBlock block db
      = (inl (InvalidHeight (current_height db + 1) (Block.height block)), db)).
  { intros Hne. rewrite processBlock_eq.
    destruct (Z.eqb_spec (Block.height block) (current_height db + 1));
      [contradiction | reflexivity]. }
  assert (Hacc : forall db', processBlock block db = (inr tt, db') ->
        Block.height block = current_height db + 1
        /\ current_height db' = current_height db + 1).
  { intros db' H. apply processBlock_accepted in H.
    destruct H as (Hh & _ & st & rows & _ & _ & -> & _). split; [exact Hh|].
    rewrite <- Hh. apply (current_height_push db (block_row block)).
    exact Hh. }
  split; [split|split; [exact Hthrow|split; [exact Hacc|]]].
  - intros (expected & got & H) Heq.
    destruct (processBlock block db) as [[e|[]] db'] eqn:E; [|discriminate H].
    simpl in H. injection H as ->.
    apply processBlock_error_kinds in E.
    destruct E as [(_ & Hne & _) | [(c & E & _) | [(E & _) | (v & E & _)]]];
      try discriminate E; [contradiction | exact E].
  - intros Hne. rewrite (Hthrow Hne). simpl. eauto.
  - intros H. unfold post_blocks, run, BEGIN, COMMIT, ROLLBACK in H |- *.
    destruct (String.eqb (Block.id block) ""); [discriminate H|].
    cbn [working committed] in *.
    destruct (processBlock block db) as [[e|[]] db'] eqn:E;
      [discriminate H|]. simpl. now apply (Hacc db').
Qed.

(** ** Failures *)

Lemma rollbackToHeight_error target db e db' :
  rollbackToHeight target db = (inl e, db') -> e = NegativeTarget /\ db' = db.
Proof.
  unfold rollbackToHeight, bind, getCurrentHeight. cbn [fst snd].
  destruct (target >=? current_height db); [discriminate|].
  destruct (target <? 0).
  - intros [= <- <-]. now split.
  - unfold select_transaction_ids_above.
    destruct (0 <? List.length _)%nat; discriminate.
Qed.

(** C4 -- Atomicity on failure.  A request that is answered with an error
    (status 400) leaves the blocks and the UTXO set exactly as they were:
    the handlers run [processBlock] and [rollbackToHeight] in a transaction
    that is rolled back on any error.  The validation errors of
    [processBlock] (height, hash, missing, already spent, value mismatch) and
    the negative-target error of [rollbackToHeight] are moreover thrown
    before the function has written anything. *)
Theorem failure_leaves_state_unchanged (db : Tables) :
  (forall req, code (fst (handle req db)) = 400 -> snd (handle req db) = db)
  /\ (forall block e db',
        processBlock block db = (inl e, db') ->
        (forall v, e <> StorageError v) -> db' = db)
  /\ (forall target e db',
        rollbackToHeight target db = (inl e, db') ->
        e = NegativeTarget /\ db' = db).
Proof.
  split; [|split].
  - intros [block | address | [target|]]; simpl; try reflexivity.
    + unfold post_blocks, run, BEGIN, COMMIT, ROLLBACK.
      destruct (String.eqb (Block.id block) ""); [reflexivity|].
      cbn [working committed].
      destruct (processBlock block db) as [[e|[]] db']; simpl;
        [reflexivity | discriminate].
    + unfold post_rollback, run, BEGIN, COMMIT, ROLLBACK.
      cbn [working committed].
      destruct (rollbackToHeight target db) as [[e|l] db']; simpl;
        [reflexivity | discriminate].
  - intros block e db' H Hne. apply processBlock_error_kinds in H.
    destruct H as [(_ & _ & H) | [(c & _ & _ & H) | [(_ & _ & H) | (v & E & _)]]];
      auto. now destruct (Hne v).
  - intros target e db' H. now apply rollbackToHeight_error in H.
Qed.

(** ** Rolling back *)

Lemma unspend_row_nil (r : Utxo.row) : unspend_row [] r = r.
Proof. unfold unspend_row. now destruct (Utxo.spent_tx_id r). Qed.

Lemma rollbackToHeight_eq target db :
  rollbackToHeight target db =
  if target >=? current_height db then (inr [], db)
  else if target <? 0 then (inl NegativeTarget, db)
  else (inr (map BlockRow.height
               (filter (fun b => target <? BlockRow.height b) (blocks db))),
        rolled_back target db).
Proof.
  unfold rollbackToHeight, bind, getCurrentHeight. cbn [fst snd].
  destruct (target >=? current_height db); [reflexivity|].
  destruct (target <? 0); [reflexivity|].
  unfold select_transaction_ids_above, rolled_back, removed_tx_ids.
  set (T := List.concat _).
  destruct (0 <? List.length T)%nat eqn:E.
  - reflexivity.
  - assert (T = []) as ->.
    { destruct T; [reflexivity | discriminate E]. }
    unfold ret, delete_utxos_above, delete_blocks_above. cbn [blocks utxos].
    do 3 f_equal. symmetry. rewrite <- (map_id (utxos db)) at 2.
    apply map_ext. apply unspend_row_nil.
Qed.

Lemma heights_filter (f : Z -> bool) (l : list BlockRow.row) :
  map BlockRow.height (filter (fun b => f (BlockRow.height b)) l)
  = filter f (map BlockRow.height l).
Proof.
  induction l as [|b l IH]; simpl; [reflexivity|].
  destruct (f (BlockRow.height b)); simpl; now rewrite IH.
Qed.

Lemma contiguous_nonneg db : contiguous db -> 0 <= current_height db.
Proof.
  intros [_ H]. destruct (blocks db) eqn:E.
  - rewrite current_height_empty by assumption. lia.
  - assert (Hne : blocks db <> []) by congruence.
    apply current_height_in in Hne. apply H in Hne. lia.
Qed.

Lemma contiguous_rolled_back target db :
  contiguous db -> 0 <= target < current_height db ->
  current_height (rolled_back target db) = target
  /\ contiguous (rolled_back target db).
Proof.
  intros [Hnd Hin] Ht.
  assert (Hh : heights (rolled_back target db)
               = filter (fun h => negb (target <? h)) (heights db)).
  { unfold heights, rolled_back. cbn [blocks].
    apply (heights_filter (fun h => negb (target <? h))). }
  assert (Hmem : forall h, In h (heights (rolled_back target db))
                           <-> 1 <= h <= target).
  { intros h. rewrite Hh, filter_In, Hin.
    destruct (Z.ltb_spec target h); simpl; split; intros; lia. }
  assert (Hcur : current_height (rolled_back target db) = target).
  { destruct (Z.eq_dec target 0) as [-> | Hnz].
    - apply current_height_empty.
      destruct (blocks (rolled_back 0 db)) as [|b l] eqn:E; [reflexivity|].
      assert (In (BlockRow.height b) (heights (rolled_back 0 db))).
      { unfold heights. rewrite E. now left. }
      apply Hmem in H. lia.
    - apply current_height_intro.
      + apply Hmem. lia.
      + intros x Hx. apply Hmem in Hx. lia. }
  split; [exact Hcur|]. split.
  - rewrite Hh. now apply NoDup_filter.
  - intros h. rewrite Hcur. apply Hmem.
Qed.

Lemma contiguous_rollback target db r db' :
  contiguous db -> rollbackToHeight target db = (r, db') ->
  contiguous db' /\ current_height db' <= current_height db.
Proof.
  intros Hc. rewrite rollbackToHeight_eq.
  destruct (Z.geb_spec target (current_height db)).
  { intros [= <- <-]. split; [exact Hc | lia]. }
  destruct (Z.ltb_spec target 0).
  { intros [= <- <-]. split; [exact Hc | lia]. }
  intros [= <- <-].
  destruct (contiguous_rolled_back target db Hc) as [E Hc']; [lia|].
  split; [exact Hc' | lia].
Qed.

Lemma contiguous_accept block db db' :
  contiguous db -> processBlock block db = (inr tt, db') -> contiguous db'.
Proof.
  intros Hc H. pose proof (contiguous_nonneg db Hc) as Hpos.
  destruct Hc as [Hnd Hin].
  apply processBlock_accepted in H.
  destruct H as (Hh & _ & st & rows & _ & _ & -> & _).
  assert (Hcur : current_height
            (mkTables (blocks db ++ [block_row block])
                      (apply_spends (fst st) (utxos db) ++ rows))
          = current_height db + 1).
  { rewrite <- Hh. apply (current_height_push db (block_row block)).
    exact Hh. }
  assert (Hhs : heights
            (mkTables (blocks db ++ [block_row block])
                      (apply_spends (fst st) (utxos db) ++ rows))
          = (heights db ++ [current_height db + 1])%list).
  { unfold heights. cbn [blocks]. rewrite map_app. simpl. now rewrite Hh. }
  split.
  - rewrite Hhs. apply (Permutation_NoDup (Permutation_cons_append _ _)).
    constructor; [|exact Hnd]. intros Hx. apply Hin in Hx. lia.
  - intros h. rewrite Hcur, Hhs, in_app_iff, Hin. simpl. lia.
Qed.

Lemma contiguous_handle req db :
  contiguous db -> contiguous (snd (handle req db)).
Proof.
  intros Hc. destruct req as [block | address | [target|]]; simpl; auto.
  - unfold post_blocks, run, BEGIN, COMMIT, ROLLBACK.
    destruct (String.eqb (Block.id block) ""); [exact Hc|].
    cbn [working committed].
    destruct (processBlock block db) as [[e|[]] db'] eqn:E; simpl;
      [exact Hc | exact (contiguous_accept _ _ _ Hc E)].
  - unfold post_rollback, run, BEGIN, COMMIT, ROLLBACK.
    cbn [working committed].
    destruct (rollbackToHeight target db) as [[e|l] db'] eqn:E; simpl;
      [exact Hc | exact (proj1 (contiguous_rollback _ _ _ _ Hc E))].
Qed.

Lemma contiguous_empty : contiguous empty_tables.
Proof.
  split; [constructor|]. intros h. simpl.
  change (current_height empty_tables) with 0. lia.
Qed.

Lemma reachable_contiguous db : reachable db -> contiguous db.
Proof.
  induction 1 as [|req db _ IH]; [exact contiguous_empty|].
  now apply contiguous_handle.
Qed.

(** C5 -- Height contiguity.  In every state reached from the empty tables
    by requests, the recorded heights are exactly 1..currentHeight, each
    once; the current height of tables without blocks is 0; and accepting a
    block and rolling back both preserve the invariant. *)
Theorem height_contiguity :
  (forall db, reachable db -> contiguous db)
  /\ (forall db, blocks db = [] -> current_height db = 0)
  /\ (forall block db, contiguous db -> contiguous (snd (post_blocks block db)))
  /\ (forall height db,
        contiguous db -> contiguous (snd (post_rollback height db))).
Proof.
  split; [exact reachable_contiguous|].
  split; [exact current_height_empty|].
  split.
  - intros block db. exact (contiguous_handle (PostBlocks block) db).
  - intros height db. exact (contiguous_handle (PostRollback height) db).
Qed.

Lemma db2_reachable : reachable Scenario.db2.
Proof.
  exact (reach_handle (PostBlocks Scenario.BLOCK_2) _
           (reach_handle (PostBlocks Scenario.BLOCK_1) _ reach_empty)).
Qed.

Lemma db3_reachable : reachable Scenario.db3.
Proof.
  exact (reach_handle (PostBlocks Scenario.BLOCK_3) _ db2_reachable).
Qed.

(** C8 -- Rollback target bounds.  In every reachable state a negative
    target makes [rollbackToHeight] throw (the request is answered 400 and
    nothing changes); a non-negative target at or above the current height
    returns the empty list and leaves blocks and UTXOs unchanged; and no
    rollback request ever raises the current height. *)
Theorem rollback_target_bounds (db : Tables) :
  reachable db ->
  (forall target, target < 0 ->
     rollbackToHeight target db = (inl NegativeTarget, db)
     /\ post_rollback (Some target) db
        = (mkReply 400 (Failed NegativeTarget), db))
  /\ (forall target, 0 <= target -> current_height db <= target ->
        rollbackToHeight target db = (inr [], db)
        /\ post_rollback (Some target) db
           = (mkReply 200 (StateUnchanged target), db))
  /\ (forall height,
        current_height (snd (post_rollback height db)) <= current_height db).
Proof.
  intros Hr. pose proof (reachable_contiguous db Hr) as Hc.
  pose proof (contiguous_nonneg db Hc) as Hpos.
  split; [|split].
  - intros target Ht.
    assert (E : rollbackToHeight target db = (inl NegativeTarget, db)).
    { rewrite rollbackToHeight_eq.
      destruct (Z.geb_spec target (current_height db)); [lia|].
      destruct (Z.ltb_spec target 0); [reflexivity | lia]. }
    split; [exact E|].
    unfold post_rollback, run, BEGIN, ROLLBACK. cbn [working committed].
    now rewrite E.
  - intros target Ht Hge.
    assert (E : rollbackToHeight target db = (inr [], db)).
    { rewrite rollbackToHeight_eq.
      destruct (Z.geb_spec target (current_height db)); [reflexivity | lia]. }
    split; [exact E|].
    unfold post_rollback, run, BEGIN, COMMIT. cbn [working committed].
    now rewrite E.
  - intros [target|]; [|simpl; lia].
    unfold post_rollback, run, BEGIN, COMMIT, ROLLBACK.
    cbn [working committed].
    destruct (rollbackToHeight target db) as [[e|l] db'] eqn:E; simpl;
      [lia | exact (proj2 (contiguous_rollback _ _ _ _ Hc E))].
Qed.

Lemma rollback_target_bounds_witness :
  rollbackToHeight (-1) Scenario.db2 = (inl NegativeTarget, Scenario.db2)
  /\ rollbackToHeight 5 Scenario.db2 = (inr [], Scenario.db2)
  /\ rollbackToHeight 2 Scenario.db2 = (inr [], Scenario.db2).
Proof.
  pose proof (rollback_target_bounds Scenario.db2 db2_reachable)
    as (Hneg & Hnoop & _).
  split; [|split].
  - apply Hneg. lia.
  - apply Hnoop; [lia | vm_compute; discriminate].
  - apply Hnoop; [lia | vm_compute; discriminate].
Defined.

(** ** Balances *)

Lemma fold_add_shift (l : list Z) (a : Z) :
  fold_left Z.add l a = a + fold_left Z.add l 0.
Proof.
  revert a. induction l as [|x l IH]; intros a; simpl; [lia|].
  rewrite (IH (a + x)), (IH x). lia.
Qed.

Lemma select_balance_eq address db :
  select_balance address db = unspent_sum address (utxos db).
Proof.
  unfold select_balance.
  assert (H : forall l, COALESCE (sql_sum l) 0 = fold_left Z.add l 0).
  { now intros [|x l]. }
  rewrite H. induction (utxos db) as [|r rows IH]; [reflexivity|].
  simpl. unfold unspent_at at 1.
  destruct (String.eqb (Utxo.address r) address); simpl; [|now rewrite IH].
  destruct (Utxo.spent_tx_id r); simpl; [now rewrite IH|].
  now rewrite fold_add_shift, IH.
Qed.



(** ** Spending *)

Lemma spend_row_keeps_spender (s : Spend) (r : Utxo.row) (t : string) :
  Utxo.spent_tx_id r = Some t -> spend_row s r = r.
Proof.
  unfold spend_row. intros ->. now rewrite andb_false_r.
Qed.

(** C1 -- Single-spend, evaluated on a block whose two transactions both
    spend [tx1:0].  An [UPDATE] never replaces a spender that is set, and a
    later block spending [tx2:1] again is refused as already spent; but the
    block with [txA] and [txB] is accepted (201): the entry is recorded as
    spent by [txA], the update for [txB] changes no row, and the outputs of
    both transactions are created, so 10 units become 20. *)
Theorem same_block_double_spend_is_accepted :
  (forall s r t, Utxo.spent_tx_id r = Some t ->
                 Utxo.spent_tx_id (spend_row s r) = Some t)
  /\ fst (post_blocks Scenario.doubleSpendBlock Scenario.db3)
     = mkReply 400 (Failed (AlreadySpent "tx4_double_spend"
                              (Input.mk "tx2" 1) "tx3"))
  /\ post_blocks SameBlockSpend.block Scenario.db1
     = (mkReply 201 (BlockIndexed 2),
        mkTables
          [block_row Scenario.BLOCK_1; block_row SameBlockSpend.block]
          [Utxo.mk "tx1" 0 "addr1" 1000000000 1 (Some "txA"%string);
           Utxo.mk "txA" 0 "addrA" 1000000000 2 None;
           Utxo.mk "txB" 0 "addrB" 1000000000 2 None])
  /\ update_spend (mkSpend "tx1" 0 "txB")
       (snd (update_spend (mkSpend "tx1" 0 "txA") Scenario.db1))
     = update_spend (mkSpend "tx1" 0 "txA") Scenario.db1.
Proof.
  split; [|split; [|split]].
  - intros s r t H. now rewrite (spend_row_keeps_spender s r t H).
  - vm_compute. reflexivity.
  - vm_compute. reflexivity.
  - vm_compute. reflexivity.
Qed.

(** ** The block identity *)

Lemma hex_digit_lower (d : Z) : lower_hex (hex_digit d).
Proof.
  unfold lower_hex, hex_digit.
  destruct d as [|p|p]; simpl; try tauto;
    repeat (try tauto; destruct p as [p|p|]; simpl; try tauto).
Qed.

Lemma round_length st kw :
  List.length st = 8%nat -> List.length (Sha256.round st kw) = 8%nat.
Proof.
  do 9 (destruct st as [|? st]; try discriminate). reflexivity.
Qed.

Lemma fold_round_length kws st :
  List.length st = 8%nat ->
  List.length (fold_left Sha256.round kws st) = 8%nat.
Proof.
  revert st. induction kws as [|kw kws IH]; intros st H; simpl; auto.
  apply IH. now apply round_length.
Qed.

Lemma compress_length h blk :
  List.length h = 8%nat -> List.length (Sha256.compress h blk) = 8%nat.
Proof.
  intros H. unfold Sha256.compress.
  rewrite length_map, length_combine, fold_round_length, H; auto.
Qed.

Lemma digest_length (msg : list Z) :
  List.length (Sha256.digest msg) = 32%nat.
Proof.
  unfold Sha256.digest.
  set (cs := Sha256.chunks 64 _ _).
  assert (H : List.length (fold_left Sha256.compress cs Sha256.H0) = 8%nat).
  { generalize Sha256.H0 (eq_refl : List.length Sha256.H0 = 8%nat).
    induction cs as [|c cs IH]; intros h Hh; simpl; auto.
    apply IH. now apply compress_length. }
  revert H. generalize (fold_left Sha256.compress cs Sha256.H0) as ws.
  intros ws H.
  do 9 (destruct ws as [|? ws]; try discriminate). reflexivity.
Qed.

Lemma hex_join (bs : list Z) :
  String.length (join (map hex_byte bs)) = (2 * List.length bs)%nat
  /\ Forall lower_hex (chars (join (map hex_byte bs))).
Proof.
  induction bs as [|b bs [IHl IHc]]; simpl.
  - split; [reflexivity | constructor].
  - split.
    + rewrite IHl. lia.
    + unfold chars in *. simpl.
      constructor; [apply hex_digit_lower|].
      constructor; [apply hex_digit_lower | exact IHc].
Qed.

(** Known answers for messages of zero, one, two and three blocks. *)
Example digest_known_answers :
  join (map hex_byte (Sha256.digest []))
  = "e3b0c44298fc1c149afbf4c8996fb92427ae41e4649b934ca495991b7852b855"%string
  /\ join (map hex_byte (Sha256.digest (bytes_of_string
       "abcdbcdecdefdefgefghfghighijhijkijkljklmklmnlmnomnopnopq")))
     = "248d6a61d20638b8e5c026930c3e6039a33ce45964ff2167f6ecedd419db06c1"%string
  /\ calculateBlockHash (-7)
       ["transaction-identifier-number-one"%string;
        "transaction-identifier-number-two"%string;
        "transaction-identifier-number-three"%string;
        "xxxxxxxxxxxxxxxxxxxxxxxxxxxxxxxxxxxxxxxx"%string]
     = "da2f1db553911aee7bbe583a6748d01e01a30ab2441a23fafc0e486285d0e4f2"%string.
Proof. vm_compute. repeat split; reflexivity. Qed.

Example hash_of_test_blocks :
  calculateBlockHash 1 ["tx1"%string] = Block.id Scenario.BLOCK_1
  /\ calculateBlockHash 2 ["tx2"%string] = Block.id Scenario.BLOCK_2
  /\ calculateBlockHash 3 ["tx3"%string] = Block.id Scenario.BLOCK_3.
Proof. vm_compute. repeat split; reflexivity. Qed.

(** C7, as amended -- Block identity.  [calculateBlockHash height ids] is
    the hex text, two lowercase digits per byte and 64 characters in all, of
    the SHA-256 digest of the bytes of the decimal text of [height] followed
    by the identifiers in order, without separator.  A block whose [id]
    differs from it is rejected and nothing is written: with the invalid-hash
    error when its height is [currentHeight + 1], and with the
    invalid-height error otherwise, because the height is checked first. *)
Theorem block_identity (block : Block.t) (db : Tables) :
  let computed :=
    calculateBlockHash (Block.height block)
      (map Transaction.id (Block.transactions block)) in
  (forall height ids,
      calculateBlockHash height ids
      = join (map hex_byte
                (Sha256.digest
                   (bytes_of_string (string_of_Z height ++ join ids))))
      /\ String.length (calculateBlockHash height ids) = 64%nat
      /\ Forall lower_hex (chars (calculateBlockHash height ids)))
  /\ (Block.id block <> computed ->
      (Block.height block = current_height db + 1 ->
       processBlock block db
       = (inl (InvalidHash computed (Block.id block)), db))
      /\ (Block.height block <> current_height db + 1 ->
          processBlock block db
          = (inl (InvalidHeight (current_height db + 1) (Block.height block)),
             db))
      /\ snd (post_blocks block db) = db
      /\ code (fst (post_blocks block db)) = 400).
Proof.
  intros computed. split.
  - intros height ids. split; [reflexivity|].
    unfold calculateBlockHash.
    destruct (hex_join (Sha256.digest
                (bytes_of_string (string_of_Z height ++ join ids))))
      as [Hl Hc].
    split; [|exact Hc]. rewrite Hl, digest_length. reflexivity.
  - intros Hne.
    assert (Hhash : Block.height block = current_height db + 1 ->
       processBlock block db
       = (inl (InvalidHash computed (Block.id block)), db)).
    { intros Hh. rewrite processBlock_eq.
      destruct (Z.eqb_spec (Block.height block) (current_height db + 1));
        [|contradiction]. simpl. fold computed.
      destruct (String.eqb_spec (Block.id block) computed);
        [contradiction | reflexivity]. }
    assert (Hheight : Block.height block <> current_height db + 1 ->
       processBlock block db
       = (inl (InvalidHeight (current_height db + 1) (Block.height block)),
          db)).
    { apply wrong_height_is_thrown. }
    split; [exact Hhash|]. split; [exact Hheight|].
    unfold post_blocks, run, BEGIN, COMMIT, ROLLBACK. cbn [working committed].
    destruct (String.eqb (Block.id block) ""); [now split|].
    destruct (Z.eq_dec (Block.height block) (current_height db + 1)) as [E|E].
    + rewrite (Hhash E). now split.
    + rewrite (Hheight E). now split.
Qed.

Lemma block_identity_witness :
  processBlock Scenario.invalidHashBlock empty_tables
  = (inl (InvalidHash (Block.id Scenario.BLOCK_1) "totally_wrong_hash"),
     empty_tables).
Proof.
  pose proof (block_identity Scenario.invalidHashBlock empty_tables) as H.
  cbv zeta in H. destruct H as [_ H].
  assert (Hne : Block.id Scenario.invalidHashBlock
                <> calculateBlockHash (Block.height Scenario.invalidHashBlock)
                     (map Transaction.id
                        (Block.transactions Scenario.invalidHashBlock))).
  { vm_compute. discriminate. }
  destruct (H Hne) as [Hhash _].
  rewrite Hhash by reflexivity. vm_compute. reflexivity.
Defined.

(** The first request of the test suite: [BLOCK_1] resubmitted with height 2
    carries an [id] that is not the hash of its content, and is refused for
    its height. *)
Lemma wrong_id_refused_as_invalid_height :
  String.eqb (Block.id Scenario.invalidHeightBlock)
    (calculateBlockHash (Block.height Scenario.invalidHeightBlock)
       (map Transaction.id (Block.transactions Scenario.invalidHeightBlock)))
  = false
  /\ post_blocks Scenario.invalidHeightBlock empty_tables
     = (mkReply 400 (Failed (InvalidHeight 1 2)), empty_tables).
Proof. vm_compute. split; reflexivity. Qed.

(** ** Resolving inputs against the persisted entries *)

Lemma process_transactions_app block pre rest st db :
  process_transactions block (pre ++ rest) st db =
  match fst (process_transactions block pre st db) with
  | inl e => (inl e, db)
  | inr st' => process_transactions block rest st' db
  end.
Proof.
  revert st. induction pre as [|tx pre IH]; intros st; simpl.
  - reflexivity.
  - unfold bind. pose proof (process_tx_db block tx st db) as Hdb.
    destruct (process_tx block tx st db) as [[e|st'] db']; simpl in *; subst.
    + reflexivity.
    + apply IH.
Qed.

Lemma selection_keeps_keys_distinct {Row Key}
    (key : Row -> Key) (keep : Row -> bool) (rows : list Row) :
  NoDup (map key rows) -> NoDup (map key (filter keep rows)).
Proof.
  intros Hnd. induction rows as [|r rows IH]; simpl; [constructor|].
  simpl in Hnd. apply NoDup_cons_iff in Hnd. destruct Hnd as [Hfresh Hnd].
  destruct (keep r); simpl; [|now apply IH].
  constructor; [|now apply IH].
  intros Hin. apply Hfresh. apply in_map_iff in Hin.
  destruct Hin as (x & Hx & Hf). apply filter_In in Hf.
  apply in_map_iff. exists x. tauto.
Qed.

Lemma key_text_injective : Injective key_text.
Proof.
  intros [t n] [t' n'] H. unfold key_text in H. simpl in H.
  apply concat_key_inj in H. destruct H as [-> ->]. reflexivity.
Qed.

(** When the [SELECT] returns as many rows as there are inputs, the inputs
    are pairwise distinct and each is the key of a persisted entry. *)
Lemma selected_all db tx :
  primary_key db ->
  List.length (selected db tx) = List.length (Transaction.inputs tx) ->
  NoDup (map ref (Transaction.inputs tx))
  /\ forall i, In i (Transaction.inputs tx) ->
               exists r, In r (utxos db) /\ Utxo.key r = ref i.
Proof.
  intros Hpk Hlen.
  set (refs := inputReferences (Transaction.inputs tx)) in *.
  set (K := map key_text (map Utxo.key (selected db tx))).
  assert (Hrefs : refs = map key_text (map ref (Transaction.inputs tx))).
  { unfold refs, inputReferences. rewrite map_map. reflexivity. }
  assert (HK : NoDup K).
  { apply Injective_map_NoDup; [exact key_text_injective|].
    unfold selected. now apply selection_keeps_keys_distinct. }
  assert (Hincl : incl K refs).
  { intros k Hk. unfold K in Hk. rewrite map_map in Hk.
    apply in_map_iff in Hk. destruct Hk as (r & <- & Hr).
    unfold selected in Hr. apply filter_In in Hr. destruct Hr as [_ Hr].
    apply existsb_exists in Hr. destruct Hr as (x & Hx & Hq).
    apply String.eqb_eq in Hq. unfold key_text, Utxo.key. simpl.
    now rewrite Hq. }
  assert (Hle : (List.length refs <= List.length K)%nat).
  { unfold K, refs, inputReferences. rewrite !length_map, Hlen. lia. }
  split.
  - apply (NoDup_map_inv key_text). rewrite <- Hrefs.
    exact (NoDup_incl_NoDup HK Hle Hincl).
  - intros i Hi.
    assert (Hin : In (key_text (ref i)) K).
    { apply (NoDup_length_incl HK Hle Hincl). rewrite Hrefs.
      apply in_map. now apply in_map. }
    unfold K in Hin. apply in_map_iff in Hin.
    destruct Hin as (k & Hk & Hin). apply key_text_injective in Hk. subst k.
    apply in_map_iff in Hin. destruct Hin as (r & Hr & Hin).
    exists r. split; [|exact Hr]. unfold selected in Hin.
    now apply filter_In in Hin.
Qed.

(** C10, as amended -- Inputs resolve against the persisted entries only.
    Take a block that passes the height and hash checks, none of whose input
    [txId]s contains a quote or a NUL, and whose transactions before [tx]
    pass validation.  If the inputs of [tx] contain the same [(txId, index)]
    twice, or a reference that is the key of no persisted entry (as is an
    output that only an earlier transaction of the same block creates), then
    [processBlock] throws the missing-UTXO error of the row count for [tx]
    and writes nothing, and the request is answered 400. *)
Theorem unresolved_inputs_are_missing
    (block : Block.t) (db : Tables) (pre post : list Transaction.t)
    (tx : Transaction.t) (st : list Spend * list NewUtxo) :
  primary_key db ->
  plain_inputs (Block.transactions block) ->
  Block.height block = current_height db + 1 ->
  Block.id block
  = calculateBlockHash (Block.height block)
      (map Transaction.id (Block.transactions block)) ->
  Block.transactions block = (pre ++ tx :: post)%list ->
  fst (process_transactions block pre ([], []) db) = inr st ->
  (~ NoDup (map ref (Transaction.inputs tx))
   \/ exists i, In i (Transaction.inputs tx)
                /\ forall r, In r (utxos db) -> Utxo.key r <> ref i) ->
  processBlock block db = (inl (MissingUtxo (Transaction.id tx)), db)
  /\ (Block.id block <> ""%string ->
      post_blocks block db
      = (mkReply 400 (Failed (MissingUtxo (Transaction.id tx))), db)).
Proof.
  intros Hpk _ Hh Hid Htxs Hpre Hbad.
  assert (Hne : Transaction.inputs tx <> []).
  { destruct Hbad as [Hd | (i & Hi & _)]; intros E; rewrite E in *.
    - apply Hd. constructor.
    - contradiction. }
  assert (Hshort : (List.length (selected db tx)
                    =? List.length (Transaction.inputs tx))%nat = false).
  { apply Nat.eqb_neq. intros Hlen.
    destruct (selected_all db tx Hpk Hlen) as [Hnd Hall].
    destruct Hbad as [Hd | (i & Hi & Hno)]; [now apply Hd|].
    destruct (Hall i Hi) as (r & Hr & Hk). exact (Hno r Hr Hk). }
  assert (E : processBlock block db
              = (inl (MissingUtxo (Transaction.id tx)), db)).
  { rewrite processBlock_eq.
    destruct (Z.eqb_spec (Block.height block) (current_height db + 1));
      [|contradiction]. simpl.
    destruct (String.eqb_spec (Block.id block)
                (calculateBlockHash (Block.height block)
                   (map Transaction.id (Block.transactions block))));
      [|contradiction]. simpl.
    unfold validate. rewrite Htxs, process_transactions_app, Hpre.
    simpl. unfold bind. rewrite process_tx_eq.
    destruct (Transaction.inputs tx) as [|i l]; [congruence|].
    rewrite Hshort. reflexivity. }
  split; [exact E|]. intros Hid'.
  unfold post_blocks, run, BEGIN, ROLLBACK. cbn [working committed].
  destruct (String.eqb_spec (Block.id block) ""); [contradiction|].
  now rewrite E.
Qed.

Lemma unresolved_inputs_witness :
  processBlock Unresolved.twice Scenario.db1
  = (inl (MissingUtxo "tx2"), Scenario.db1)
  /\ processBlock Unresolved.chained Scenario.db1
     = (inl (MissingUtxo "tx3"), Scenario.db1).
Proof.
  split.
  - apply (unresolved_inputs_are_missing Unresolved.twice Scenario.db1
             [] []
             (Transaction.mk "tx2" [Input.mk "tx1" 0; Input.mk "tx1" 0]
                [Output.mk "addr2" 20])
             ([], [])).
    + vm_compute. constructor; [simpl; tauto | constructor].
    + intros t i [<- | []] [<- | [<- | []]]; reflexivity.
    + vm_compute. reflexivity.
    + vm_compute. reflexivity.
    + reflexivity.
    + reflexivity.
    + left. intros H. vm_compute in H.
      inversion H as [|? ? Hnin _]. apply Hnin. now left.
  - apply (unresolved_inputs_are_missing Unresolved.chained Scenario.db1
             [Transaction.mk "tx2" [Input.mk "tx1" 0] [Output.mk "addr2" 10]]
             []
             (Transaction.mk "tx3" [Input.mk "tx2" 0] [Output.mk "addr3" 10])
             ([mkSpend "tx1" 0 "tx2"], [mkNew "tx2" 0 "addr2" 10 2])).
    + vm_compute. constructor; [simpl; tauto | constructor].
    + intros t i [<- | [<- | []]] [<- | []]; reflexivity.
    + vm_compute. reflexivity.
    + vm_compute. reflexivity.
    + reflexivity.
    + vm_compute. reflexivity.
    + right. exists (Input.mk "tx2" 0). split; [now left|].
      intros r Hr. vm_compute in Hr. destruct Hr as [<- | []].
      vm_compute. discriminate.
Defined.

(** After [BLOCK_1], a block whose first transaction is again called [tx1]
    and whose second transaction spends [tx1:0]: the reference is to an
    output the first transaction creates, it resolves against the persisted
    [tx1:0], and the block is refused by the primary key of the bulk
    insert. *)
Lemma same_block_reference_resolves_to_persisted_entry :
  Block.transactions Unresolved.reused
  = [Unresolved.reused_first; Unresolved.reused_second]
  /\ map (fun u => (n_txId u, n_output_index u))
         (staged Unresolved.reused Unresolved.reused_first)
     = [("tx1"%string, 0)]
  /\ map ref (Transaction.inputs Unresolved.reused_second)
     = [("tx1"%string, 0)]
  /\ post_blocks Unresolved.reused Scenario.db1
     = (mkReply 400 (Failed (StorageError (UniqueViolation "utxos_pkey"))),
        Scenario.db1).
Proof. vm_compute. repeat split; reflexivity. Qed.

(** ** Value conservation *)

Lemma find_filter {A} (p q : A -> bool) (l : list A) :
  (forall x, p x = true -> q x = true) -> find p (filter q l) = find p l.
Proof.
  intros H. induction l as [|a l IH]; simpl; [reflexivity|].
  destruct (q a) eqn:Hq; simpl.
  - destruct (p a); [reflexivity | exact IH].
  - destruct (p a) eqn:Hp; [|exact IH].
    rewrite (H a Hp) in Hq. discriminate Hq.
Qed.

Lemma same_ref_key input r :
  same_ref input r = true <-> Utxo.key r = ref input.
Proof.
  unfold same_ref, Utxo.key, ref. rewrite andb_true_iff, String.eqb_eq,
    Z.eqb_eq. split; [intros [-> ->]; reflexivity | intros [= -> ->]; auto].
Qed.

Lemma find_selected db tx i :
  In i (Transaction.inputs tx) ->
  find (same_ref i) (selected db tx) = find (same_ref i) (utxos db).
Proof.
  intros Hi. apply find_filter. intros r Hr. apply same_ref_key in Hr.
  apply existsb_exists. exists (concat_key (Input.txId i) (Input.index i)).
  split.
  - unfold inputReferences.
    exact (in_map (fun j => concat_key (Input.txId j) (Input.index j)) _ _ Hi).
  - apply String.eqb_eq. unfold Utxo.key, ref in Hr. now injection Hr as -> ->.
Qed.

Lemma input_total_selected db tx :
  input_total (selected db tx) tx = input_total (utxos db) tx.
Proof.
  unfold input_total. f_equal. apply map_ext_in. intros i Hi.
  unfold stored_value. now rewrite find_selected.
Qed.

Lemma key_determines_row (l : list Utxo.row) (r r' : Utxo.row) :
  NoDup (map Utxo.key l) -> In r l -> In r' l -> Utxo.key r = Utxo.key r' ->
  r = r'.
Proof.
  induction l as [|a l IH]; simpl; intros Hnd Hr Hr' Hk; [contradiction|].
  inversion Hnd as [|? ? Hnin Hnd']; subst.
  destruct Hr as [-> | Hr], Hr' as [-> | Hr']; auto.
  - exfalso. apply Hnin. rewrite Hk. now apply in_map.
  - exfalso. apply Hnin. rewrite <- Hk. now apply in_map.
Qed.

Lemma spendable_resolves db tx :
  primary_key db -> spendable db tx ->
  List.length (selected db tx) = List.length (Transaction.inputs tx)
  /\ resolvable (selected db tx) (Transaction.inputs tx).
Proof.
  intros Hpk [Hnd Hall]. split.
  - set (K := map Utxo.key (selected db tx)).
    assert (HK : NoDup K) by (now apply selection_keeps_keys_distinct).
    assert (H1 : incl K (map ref (Transaction.inputs tx))).
    { intros k Hk. unfold K in Hk. apply in_map_iff in Hk.
      destruct Hk as (r & <- & Hr). unfold selected in Hr.
      apply filter_In in Hr. destruct Hr as [_ Hr].
      apply existsb_exists in Hr. destruct Hr as (x & Hx & Hq).
      apply String.eqb_eq in Hq. unfold inputReferences in Hx.
      apply in_map_iff in Hx. destruct Hx as (i & <- & Hi).
      apply concat_key_inj in Hq. destruct Hq as [Ht Hn].
      apply in_map_iff. exists i. split; [|exact Hi].
      unfold ref, Utxo.key. now rewrite Ht, Hn. }
    assert (H2 : incl (map ref (Transaction.inputs tx)) K).
    { intros k Hk. apply in_map_iff in Hk. destruct Hk as (i & <- & Hi).
      destruct (Hall i Hi) as (r & Hr & Hkey & _). rewrite <- Hkey.
      unfold K. apply in_map. unfold selected. apply filter_In.
      split; [exact Hr|]. apply existsb_exists.
      exists (concat_key (Input.txId i) (Input.index i)). split.
      - unfold inputReferences.
        exact (in_map (fun j => concat_key (Input.txId j) (Input.index j))
                 _ _ Hi).
      - apply String.eqb_eq. unfold Utxo.key, ref in Hkey.
        now injection Hkey as -> ->. }
    pose proof (NoDup_incl_length HK H1) as L1.
    pose proof (NoDup_incl_length Hnd H2) as L2.
    unfold K in *. rewrite !length_map in *. lia.
  - intros i Hi. destruct (Hall i Hi) as (r & Hr & Hkey & Hs).
    rewrite find_selected by exact Hi.
    destruct (find (same_ref i) (utxos db)) as [u|] eqn:Hf.
    + exists u. split; [reflexivity|].
      apply find_some in Hf. destruct Hf as [Hu Hm].
      apply same_ref_key in Hm.
      assert (u = r) as ->; [|exact Hs].
      apply (key_determines_row (utxos db)); auto. congruence.
    + exfalso. apply (find_none _ _ Hf) in Hr.
      apply same_ref_key in Hkey. congruence.
Qed.

Lemma validate_each block txs st db st' :
  fst (process_transactions block txs st db) = inr st' ->
  forall tx, In tx txs ->
    exists s1 s2, process_tx block tx s1 db = (inr s2, db).
Proof.
  revert st. induction txs as [|t txs IH]; intros st H tx Hin;
    [contradiction|].
  simpl in H. unfold bind in H.
  pose proof (process_tx_db block t st db) as Hdb.
  destruct (process_tx block t st db) as [[e|s2] db1] eqn:E; simpl in *;
    [discriminate H|]. subst db1.
  destruct Hin as [<- | Hin]; [eauto | exact (IH _ H tx Hin)].
Qed.

(** C3, as amended -- Value conservation.  Take a block that passes the
    height and hash checks, none of whose input [txId]s contains a quote or
    a NUL, and a transaction [tx] of it whose predecessors pass validation.
    With no input, [tx] passes whatever its outputs are.  With inputs that
    are distinct references to unspent persisted entries, the numbers read
    from the stored input values are added in binary64, the declared output
    values are added in binary64 as they are declared, and only the two
    totals are written with 8 fractional digits and read back as numbers:
    [processBlock] throws the value-mismatch error, naming both totals as
    written, when the two numbers read back differ, and [tx] passes when
    they are equal.  A block is accepted only if they are equal for each of
    its transactions with inputs. *)
Theorem value_conservation
    (block : Block.t) (db : Tables) (pre post : list Transaction.t)
    (tx : Transaction.t) (st : list Spend * list NewUtxo) :
  primary_key db ->
  plain_inputs (Block.transactions block) ->
  Block.height block = current_height db + 1 ->
  Block.id block
  = calculateBlockHash (Block.height block)
      (map Transaction.id (Block.transactions block)) ->
  Block.transactions block = (pre ++ tx :: post)%list ->
  fst (process_transactions block pre ([], []) db) = inr st ->
  (Transaction.inputs tx = [] ->
   fst (process_transactions block (pre ++ [tx]) ([], []) db)
   = inr (fst st, (snd st ++ staged block tx)%list))
  /\ (Transaction.inputs tx <> [] -> spendable db tx ->
      conserved (input_total (utxos db) tx) (output_total tx) = false ->
      processBlock block db
      = (inl (ValueMismatch (Transaction.id tx)
                (toFixed8 (input_total (utxos db) tx))
                (toFixed8 (output_total tx))), db))
  /\ (Transaction.inputs tx <> [] -> spendable db tx ->
      conserved (input_total (utxos db) tx) (output_total tx) = true ->
      fst (process_transactions block (pre ++ [tx]) ([], []) db)
      = inr ((fst st ++ spends_of tx)%list, (snd st ++ staged block tx)%list))
  /\ (forall db', processBlock block db = (inr tt, db') ->
      Transaction.inputs tx <> [] ->
      conserved (input_total (utxos db) tx) (output_total tx) = true).
Proof.
  intros Hpk _ Hh Hid Htxs Hpre.
  assert (Hone : process_transactions block (pre ++ [tx]) ([], []) db
                 = match process_tx block tx st db with
                   | (inl e, d) => (inl e, d)
                   | (inr s, d) => (inr s, d)
                   end).
  { rewrite process_transactions_app, Hpre. simpl. unfold bind, ret.
    destruct (process_tx block tx st db) as [[e|s] d]; reflexivity. }
  assert (Hres : Transaction.inputs tx <> [] -> spendable db tx ->
     process_tx block tx st db
     = if negb (conserved (input_total (utxos db) tx) (output_total tx))
       then (inl (ValueMismatch (Transaction.id tx)
                    (toFixed8 (input_total (utxos db) tx))
                    (toFixed8 (output_total tx))), db)
       else (inr ((fst st ++ spends_of tx)%list,
                  (snd st ++ staged block tx)%list), db)).
  { intros Hne Hsp. rewrite process_tx_eq.
    destruct (spendable_resolves db tx Hpk Hsp) as [Hlen Hok].
    destruct (Transaction.inputs tx) as [|i l] eqn:Hin; [congruence|].
    rewrite Hlen, Nat.eqb_refl. simpl negb. cbv iota.
    rewrite (resolve_inputs_ok _ _ _ _ _ Hok). simpl fst.
    now rewrite input_total_selected. }
  split; [|split; [|split]].
  - intros Hin. rewrite Hone, process_tx_eq, Hin. reflexivity.
  - intros Hne Hsp Hdiff. rewrite processBlock_eq.
    destruct (Z.eqb_spec (Block.height block) (current_height db + 1));
      [|contradiction]. simpl.
    destruct (String.eqb_spec (Block.id block)
                (calculateBlockHash (Block.height block)
                   (map Transaction.id (Block.transactions block))));
      [|contradiction]. simpl.
    unfold validate. rewrite Htxs, process_transactions_app, Hpre.
    simpl. unfold bind. rewrite (Hres Hne Hsp), Hdiff. reflexivity.
  - intros Hne Hsp Hsame. rewrite Hone, (Hres Hne Hsp), Hsame.
    reflexivity.
  - intros db' Hacc Hne. apply processBlock_accepted in Hacc.
    destruct Hacc as (_ & _ & st' & rows & Hv & _).
    assert (Hin : In tx (Block.transactions block)).
    { rewrite Htxs. apply in_or_app. right. now left. }
    destruct (validate_each _ _ _ _ _ Hv tx Hin) as (s1 & s2 & E).
    rewrite process_tx_eq in E.
    destruct (Transaction.inputs tx) as [|i l]; [congruence|].
    destruct (negb (_ =? _)%nat); [discriminate E|].
    destruct (fst (resolve_inputs _ _ _ _ _)); [discriminate E|].
    rewrite input_total_selected in E.
    destruct (conserved (input_total (utxos db) tx) (output_total tx));
      [reflexivity | discriminate E].
Qed.

Lemma value_conservation_witness :
  processBlock Rounding.short Scenario.db1
  = (inl (ValueMismatch "tx2" (Digits false 1000000000)
                        (Digits false 900000000)), Scenario.db1).
Proof.
  pose proof (value_conservation Rounding.short Scenario.db1 [] []
                (Transaction.mk "tx2" [Input.mk "tx1" 0]
                   [Output.mk "addr2" 4; Output.mk "addr3" 5])
                ([], [])) as H.
  assert (Hpk : primary_key Scenario.db1).
  { vm_compute. constructor; [simpl; tauto | constructor]. }
  assert (Hplain : plain_inputs (Block.transactions Rounding.short)).
  { intros t i [<- | []] [<- | []]. reflexivity. }
  assert (Hh : Block.height Rounding.short
               = current_height Scenario.db1 + 1) by (vm_compute; reflexivity).
  assert (Hid : Block.id Rounding.short
                = calculateBlockHash (Block.height Rounding.short)
                    (map Transaction.id (Block.transactions Rounding.short)))
    by (vm_compute; reflexivity).
  destruct (H Hpk Hplain Hh Hid eq_refl eq_refl) as (_ & Hmis & _).
  rewrite Hmis.
  - vm_compute. reflexivity.
  - discriminate.
  - split.
    + vm_compute. constructor; [simpl; tauto | constructor].
    + intros i [<- | []]. vm_compute. eexists. split; [now left|]. now split.
  - vm_compute. reflexivity.
Defined.

(** An input of 0.00000001 spent into two outputs of 0.000000004: written
    with 8 fractional digits one by one, the outputs total 0 and the input
    0.00000001, yet the block is accepted, because the outputs are added
    first, to 0.000000008, and that total is written 0.00000001.  Both
    outputs are stored as 0. *)
Lemma totals_are_rounded_not_values :
  total_of_rounded
    (map (stored_value (utxos Rounding.db1))
         (Transaction.inputs Rounding.tx2)) = 0.00000001%float
  /\ total_of_rounded (map Output.value (Transaction.outputs Rounding.tx2))
     = 0%float
  /\ post_blocks Rounding.block2 Rounding.db1
     = (mkReply 201 (BlockIndexed 2),
        mkTables
          [block_row Rounding.block1; block_row Rounding.block2]
          [Utxo.mk "tx1" 0 "addr1" 1 1 (Some "tx2"%string);
           Utxo.mk "tx2" 0 "addr2" 0 2 None;
           Utxo.mk "tx2" 1 "addr3" 0 2 None]).
Proof. vm_compute. repeat split; reflexivity. Qed.

(** The texts of numbers on known answers.  A tie of [toFixed] goes to
    the larger digit string; the number written 0.000000015 lies below
    that decimal, so [toFixed(8)] writes it 0.00000001 while the column,
    which is sent the text 1.5e-8, stores 0.00000002; a negative number
    that rounds to nothing reads back as -0, which equals 0. *)
Example number_texts :
  toFixed8 0.001953125 = Digits false 195313
  /\ toFixed8 0.000000015 = Digits false 1
  /\ round8 0.000000015 = 2
  /\ round8 0.000000005 = 1
  /\ toFixed8 (-0.000000001) = Digits true 0
  /\ Number (FixedText (Digits true 0)) = neg_zero
  /\ conserved (-0.000000001) 0 = true
  /\ toFixed8 1e21 = General 1e21
  /\ Qeq_bool (decimal 0.1) (1 # 10) = true
  /\ Qeq_bool (decimal 1e23) (10 ^ 23 # 1) = true
  /\ Qeq_bool (decimal 5e-324) (5 # Z.to_pos (10 ^ 324)) = true
  /\ (0.1 + 0.2)%float = 0.30000000000000004%float
  /\ Number (PgNumeric 30000000) = 0.3%float
  /\ Number (PgNumeric 99999999999999999999) = 1000000000000%float
  /\ numeric_20_8 infinity = None
  /\ numeric_20_8 1000000000000 = None
  /\ numeric_20_8 999999999999.9999 = Some 99999999999999990000.
Proof. vm_compute. repeat split; reflexivity. Qed.

(** Conservation is decided on binary64 totals.  0.00000002 cannot be
    spent into 0.000000015, whose total is written 0.00000001; an output
    declared as 100000000000.000007 is the number 100000000000 and spends
    an input of that value. *)
Example conservation_in_binary64 :
  post_blocks (Rounding.spend 0.000000015) (Rounding.issued 0.00000002)
  = (mkReply 400
       (Failed (ValueMismatch "tx2" (Digits false 2) (Digits false 1))),
     Rounding.issued 0.00000002)
  /\ fst (post_blocks (Rounding.spend 100000000000.000007)
                      (Rounding.issued 100000000000))
     = mkReply 201 (BlockIndexed 2)
  /\ map Utxo.value
         (utxos (snd (post_blocks (Rounding.spend 100000000000.000007)
                                  (Rounding.issued 100000000000))))
     = [10000000000000000000; 10000000000000000000].
Proof. vm_compute. repeat split; reflexivity. Qed.

(** ** Rollback after acceptance *)

Lemma post_blocks_accepted block db :
  code (fst (post_blocks block db)) = 201 ->
  processBlock block db = (inr tt, snd (post_blocks block db)).
Proof.
  unfold post_blocks, run, BEGIN, COMMIT, ROLLBACK. cbn [working committed].
  destruct (String.eqb (Block.id block) ""); [discriminate|].
  destruct (processBlock block db) as [[e|[]] db']; simpl;
    [discriminate | reflexivity].
Qed.

Lemma apply_spends_map spends rows :
  apply_spends spends rows = map (spend_all spends) rows.
Proof.
  unfold apply_spends, spend_all. revert rows.
  induction spends as [|s spends IH]; intros rows; simpl.
  - now rewrite map_id.
  - now rewrite IH, map_map.
Qed.

Lemma spend_row_cases s r :
  spend_row s r = r
  \/ (Utxo.spent_tx_id r = None
      /\ spend_row s r = Utxo.set_spent (Some (spenderId s)) r).
Proof.
  unfold spend_row. destruct (_ && _ && _) eqn:E; [right | now left].
  split; [|reflexivity]. apply andb_true_iff in E. destruct E as [_ E].
  now destruct (Utxo.spent_tx_id r).
Qed.

Lemma spend_all_height spends r :
  Utxo.block_height (spend_all spends r) = Utxo.block_height r.
Proof.
  unfold spend_all. revert r.
  induction spends as [|s spends IH]; intros r; simpl; [reflexivity|].
  rewrite IH. destruct (spend_row_cases s r) as [-> | [_ ->]]; reflexivity.
Qed.

Lemma spend_all_spender spends r t :
  Utxo.spent_tx_id (spend_all spends r) = Some t ->
  Utxo.spent_tx_id r = Some t \/ In t (map spenderId spends).
Proof.
  unfold spend_all. revert r.
  induction spends as [|s spends IH]; intros r; simpl; [now left|].
  intros H. apply IH in H. destruct H as [H | H]; [|now right; right].
  destruct (spend_row_cases s r) as [E | [_ E]]; rewrite E in H.
  - now left.
  - simpl in H. injection H as <-. right. now left.
Qed.

Lemma unspend_spend_row T s r :
  existsb (String.eqb (spenderId s)) T = true ->
  unspend_row T (spend_row s r) = unspend_row T r.
Proof.
  intros HT. destruct (spend_row_cases s r) as [-> | [Hn ->]];
    [reflexivity|].
  unfold unspend_row. simpl. rewrite HT, Hn.
  destruct r; simpl in *. now subst.
Qed.

Lemma unspend_spend_all T spends r :
  (forall s, In s spends -> existsb (String.eqb (spenderId s)) T = true) ->
  unspend_row T (spend_all spends r) = unspend_row T r.
Proof.
  unfold spend_all. revert r.
  induction spends as [|s spends IH]; intros r H; simpl; [reflexivity|].
  rewrite IH by (intros s' Hs'; apply H; now right).
  apply unspend_spend_row. apply H. now left.
Qed.

Lemma unspend_row_height T r :
  Utxo.block_height (unspend_row T r) = Utxo.block_height r.
Proof.
  unfold unspend_row. destruct (Utxo.spent_tx_id r); [|reflexivity].
  now destruct (existsb _ T).
Qed.

Lemma utxo_rows_inv news rows :
  utxo_rows news = inr rows ->
  forall r, In r rows ->
    Utxo.spent_tx_id r = None
    /\ exists u, In u news /\ Utxo.block_height r = n_block_height u.
Proof.
  revert rows. induction news as [|u news IH]; intros rows H r Hr.
  - injection H as <-. contradiction.
  - simpl in H. destruct (utxo_row u) as [v|r0] eqn:E; [discriminate H|].
    destruct (utxo_rows news) as [v|rs]; [discriminate H|].
    injection H as <-. destruct Hr as [<- | Hr].
    + unfold utxo_row in E. destruct (negb _); [discriminate E|].
      destruct (numeric_20_8 (n_value u)); [|discriminate E].
      injection E as <-. simpl. split; [reflexivity|].
      exists u. split; [now left | reflexivity].
    + destruct (IH rs eq_refl r Hr) as (Hs & u' & Hu' & Hh).
      split; [exact Hs|]. exists u'. split; [now right | exact Hh].
Qed.

Lemma staged_from_height txid height outputs index u :
  In u (staged_from txid height outputs index) -> n_block_height u = height.
Proof.
  revert index. induction outputs as [|o outputs IH]; intros index;
    simpl; [contradiction|].
  intros [<- | H]; [reflexivity | exact (IH _ H)].
Qed.

(** What the validation loop accumulates. *)
Lemma process_transactions_acc block txs st db st' :
  fst (process_transactions block txs st db) = inr st' ->
  (forall s, In s (fst st') ->
     In s (fst st) \/ In (spenderId s) (map Transaction.id txs))
  /\ (forall u, In u (snd st') ->
        In u (snd st) \/ n_block_height u = Block.height block).
Proof.
  revert st. induction txs as [|tx txs IH]; intros st H.
  - simpl in H. injection H as <-. split; intros; now left.
  - simpl in H. unfold bind in H. rewrite process_tx_eq in H.
    assert (Hcase : exists sp,
               (sp = [] \/ sp = spends_of tx)
               /\ fst (process_transactions block txs
                         ((fst st ++ sp)%list,
                          (snd st ++ staged block tx)%list) db) = inr st').
    { destruct (Transaction.inputs tx) as [|i l] eqn:Hin.
      - exists []. rewrite app_nil_r. split; [now left | exact H].
      - destruct (negb (_ =? _)%nat); [discriminate H|].
        destruct (fst (resolve_inputs _ _ _ _ _)); [discriminate H|].
        destruct (negb (conserved _ _)); [discriminate H|].
        exists (spends_of tx). split; [now right | exact H]. }
    destruct Hcase as (sp & Hsp & H').
    destruct (IH _ H') as [H1 H2]. cbn [fst snd] in H1, H2. split.
    + intros s Hs. destruct (H1 s Hs) as [Hin | Hin].
      * apply in_app_or in Hin. destruct Hin as [Hin | Hin]; [now left|].
        right. left. destruct Hsp as [-> | ->]; [contradiction|].
        unfold spends_of in Hin. apply in_map_iff in Hin.
        destruct Hin as (i & <- & _). reflexivity.
      * right. now right.
    + intros u Hu. destruct (H2 u Hu) as [Hin | Hin]; [|now right].
      apply in_app_or in Hin. destruct Hin as [Hin | Hin]; [now left|].
      right. exact (staged_from_height _ _ _ _ _ Hin).
Qed.

Lemma accepted_effect block db db' :
  processBlock block db = (inr tt, db') ->
  Block.height block = current_height db + 1
  /\ exists spends rows,
       db' = mkTables (blocks db ++ [block_row block])
                      (map (spend_all spends) (utxos db) ++ rows)
       /\ (forall s, In s spends -> In (spenderId s) (block_tx_ids block))
       /\ (forall r, In r rows ->
             Utxo.block_height r = Block.height block
             /\ Utxo.spent_tx_id r = None).
Proof.
  intros H. apply processBlock_accepted in H.
  destruct H as (Hh & _ & st & rows & Hv & Hrows & -> & _).
  split; [exact Hh|]. exists (fst st), rows.
  destruct (process_transactions_acc _ _ _ _ _ Hv) as [Hs Hu].
  rewrite apply_spends_map. split; [reflexivity|]. split.
  - intros s Hin. destruct (Hs s Hin) as [[] | Hid]. exact Hid.
  - intros r Hr. destruct (utxo_rows_inv _ _ Hrows r Hr) as (Hn & u & Hin & E).
    split; [|exact Hn]. rewrite E.
    destruct (Hu u Hin) as [[] | Hh']. exact Hh'.
Qed.

Lemma below_accept n ids block db db' :
  below n ids db -> processBlock block db = (inr tt, db') ->
  below (n + 1) (ids ++ block_tx_ids block) db'.
Proof.
  intros (Hcur & Hbh & Hsp) H.
  destruct (accepted_effect _ _ _ H) as (Hh & spends & rows & -> & Hs & Hr).
  split; [|split].
  - rewrite <- Hcur, <- Hh.
    apply (current_height_push db (block_row block)). exact Hh.
  - cbn [utxos]. intros r Hin. apply in_app_or in Hin.
    destruct Hin as [Hin | Hin].
    + apply in_map_iff in Hin. destruct Hin as (r0 & <- & Hr0).
      rewrite spend_all_height. specialize (Hbh r0 Hr0). lia.
    + destruct (Hr r Hin) as [E _]. lia.
  - cbn [utxos]. intros r s Hin Hspent. apply in_or_app.
    apply in_app_or in Hin. destruct Hin as [Hin | Hin].
    + apply in_map_iff in Hin. destruct Hin as (r0 & <- & Hr0).
      apply spend_all_spender in Hspent. destruct Hspent as [Hold | Hnew].
      * left. exact (Hsp r0 s Hr0 Hold).
      * right. apply in_map_iff in Hnew. destruct Hnew as (x & <- & Hx).
        now apply Hs.
    + destruct (Hr r Hin) as [_ E]. congruence.
Qed.

Lemma below_empty : below 0 [] empty_tables.
Proof.
  split; [reflexivity|]. split; intros r; simpl; contradiction.
Qed.

Lemma accept_all_below bs n ids db db' :
  below n ids db -> accept_all bs db = Some db' ->
  below (n + Z.of_nat (List.length bs)) (ids ++ tx_ids bs) db'.
Proof.
  revert n ids db. induction bs as [|b bs IH]; intros n ids db Hb H.
  - simpl in *. injection H as <-. now rewrite Z.add_0_r, app_nil_r.
  - simpl in H.
    destruct (Z.eqb_spec (code (fst (post_blocks b db))) 201) as [E|];
      [|discriminate H].
    apply post_blocks_accepted in E.
    pose proof (below_accept _ _ _ _ _ Hb E) as Hb'.
    specialize (IH _ _ _ Hb' H).
    replace (n + Z.of_nat (List.length (b :: bs)))
      with (n + 1 + Z.of_nat (List.length bs))
      by (simpl List.length; lia).
    unfold tx_ids in *. simpl. now rewrite app_assoc.
Qed.

Lemma filter_all {A} (p : A -> bool) (l : list A) :
  (forall x, In x l -> p x = true) -> filter p l = l.
Proof.
  induction l as [|a l IH]; simpl; intros H; [reflexivity|].
  rewrite (H a (or_introl eq_refl)). f_equal. apply IH.
  intros x Hx. apply H. now right.
Qed.

Lemma filter_none {A} (p : A -> bool) (l : list A) :
  (forall x, In x l -> p x = false) -> filter p l = [].
Proof.
  induction l as [|a l IH]; simpl; intros H; [reflexivity|].
  rewrite (H a (or_introl eq_refl)). apply IH.
  intros x Hx. apply H. now right.
Qed.

(** Undoing above [target] does not see a block accepted above it. *)
Lemma undo_accept target T block db db' :
  target <= current_height db ->
  processBlock block db = (inr tt, db') ->
  (forall t, In t (block_tx_ids block) -> existsb (String.eqb t) T = true) ->
  undo target T db' = undo target T db.
Proof.
  intros Hle H HT.
  destruct (accepted_effect _ _ _ H) as (Hh & spends & rows & -> & Hs & Hr).
  unfold undo. cbn [blocks utxos]. f_equal.
  - rewrite filter_app. simpl.
    destruct (Z.ltb_spec target (Block.height block)); [|lia].
    simpl. apply app_nil_r.
  - rewrite map_app, filter_app, map_map.
    rewrite (filter_none _ (map (unspend_row T) rows)).
    + rewrite app_nil_r. f_equal. apply map_ext_in. intros r _.
      apply unspend_spend_all. intros s Hin. apply HT. now apply Hs.
    + intros r Hin. apply in_map_iff in Hin. destruct Hin as (r0 & <- & Hr0).
      rewrite unspend_row_height. destruct (Hr r0 Hr0) as [E _].
      destruct (Z.ltb_spec target (Utxo.block_height r0)); [reflexivity|lia].
Qed.

(** Undoing above the current height, for identifiers that spent nothing,
    changes nothing. *)
Lemma undo_below n ids T db :
  below n ids db -> (forall t, In t T -> ~ In t ids) -> undo n T db = db.
Proof.
  intros (Hcur & Hbh & Hsp) Hdis. unfold undo. destruct db as [bl us].
  cbn [blocks utxos] in *. f_equal.
  - apply filter_all. intros b Hb.
    assert (In (BlockRow.height b) (heights (mkTables bl us))).
    { unfold heights. cbn [blocks]. now apply in_map. }
    apply current_height_bound in H.
    destruct (Z.ltb_spec n (BlockRow.height b)); [lia | reflexivity].
  - assert (E : map (unspend_row T) us = us).
    { rewrite <- (map_id us) at 2. apply map_ext_in. intros r Hr.
      unfold unspend_row. destruct (Utxo.spent_tx_id r) as [s|] eqn:Hs;
        [|reflexivity].
      destruct (existsb (String.eqb s) T) eqn:Ex; [|reflexivity].
      exfalso. apply existsb_exists in Ex. destruct Ex as (t & Ht & Hq).
      apply String.eqb_eq in Hq. subst t.
      exact (Hdis s Ht (Hsp r s Hr Hs)). }
    rewrite E. apply filter_all. intros r Hr. specialize (Hbh r Hr).
    destruct (Z.ltb_spec n (Utxo.block_height r)); [lia | reflexivity].
Qed.

Lemma accept_all_after target T post db dbN :
  target <= current_height db ->
  accept_all post db = Some dbN ->
  (forall t, In t (tx_ids post) -> existsb (String.eqb t) T = true) ->
  undo target T dbN = undo target T db
  /\ blocks dbN = (blocks db ++ map block_row post)%list
  /\ current_height dbN = current_height db + Z.of_nat (List.length post)
  /\ map Block.height post
     = map (fun i => current_height db + Z.of_nat i)
           (seq 1 (List.length post)).
Proof.
  revert db. induction post as [|b post IH]; intros db Hle H HT.
  - simpl in H. injection H as <-. simpl. rewrite app_nil_r, Z.add_0_r.
    auto.
  - simpl in H.
    destruct (Z.eqb_spec (code (fst (post_blocks b db))) 201) as [E|];
      [|discriminate H].
    apply post_blocks_accepted in E.
    remember (snd (post_blocks b db)) as db1 eqn:Edb1. clear Edb1.
    pose proof (undo_accept target T b db db1 Hle E) as Hundo.
    destruct (accepted_effect _ _ _ E) as (Hh & spends & rows & Hdb1 & _).
    assert (Hcur : current_height db1 = current_height db + 1).
    { rewrite Hdb1, <- Hh.
      apply (current_height_push db (block_row b)). exact Hh. }
    destruct (IH db1) as (U & B & C & Hs); [lia | exact H | |].
    { intros t Ht. apply HT. unfold tx_ids. simpl. apply in_or_app.
      now right. }
    split; [|split; [|split]].
    + rewrite U. apply Hundo. intros t Ht. apply HT. unfold tx_ids. simpl.
      apply in_or_app. now left.
    + rewrite B, Hdb1. cbn [blocks]. simpl. now rewrite <- app_assoc.
    + rewrite C, Hcur. simpl List.length. lia.
    + simpl. f_equal; [lia|].
      rewrite <- (seq_shift (List.length post) 1), Hs, map_map.
      apply map_ext. intros i. rewrite Hcur. lia.
Qed.

(** C2, as amended -- Rollback inverts acceptance.  Let the blocks [pre]
    and then the blocks [post] be accepted in order from the empty tables,
    with [post] not empty, and let no transaction identifier of [post] occur
    in [pre].  Then the rollback request for height K, the number of blocks
    of [pre], is answered with the heights K+1, ..., N of [post], and leaves
    exactly the tables that accepting [pre] alone produced. *)
Theorem rollback_inverts_acceptance
    (pre post : list Block.t) (dbK dbN : Tables) :
  accept_all pre empty_tables = Some dbK ->
  accept_all post dbK = Some dbN ->
  post <> [] ->
  (forall t, In t (tx_ids post) -> ~ In t (tx_ids pre)) ->
  let K := Z.of_nat (List.length pre) in
  post_rollback (Some K) dbN
  = (mkReply 200 (RolledBack K (map Block.height post)), dbK)
  /\ map Block.height post
     = map (fun i => K + Z.of_nat i) (seq 1 (List.length post))
  /\ current_height dbK = K
  /\ current_height dbN = K + Z.of_nat (List.length post).
Proof.
  intros Hpre Hpost Hne Hdis K.
  pose proof (accept_all_below pre 0 [] empty_tables dbK below_empty Hpre)
    as HbK. simpl in HbK. fold K in HbK.
  pose proof HbK as (HcurK & _).
  destruct (accept_all_after K (tx_ids post) post dbK dbN) as (U & B & C & Hs);
    [lia | exact Hpost | |].
  { intros t Ht. apply existsb_exists. exists t. split; [exact Ht|].
    apply String.eqb_refl. }
  rewrite HcurK in C, Hs.
  assert (Habove : forall b, In b post -> K < Block.height b).
  { intros b Hb. apply (in_map Block.height) in Hb. rewrite Hs in Hb.
    apply in_map_iff in Hb. destruct Hb as (i & <- & Hi).
    apply in_seq in Hi. lia. }
  assert (Hrem : filter (fun b => K <? BlockRow.height b) (blocks dbN)
                 = map block_row post).
  { rewrite B, filter_app. rewrite filter_none, filter_all; [reflexivity| |].
    - intros r Hr. apply in_map_iff in Hr. destruct Hr as (b & <- & Hb).
      simpl. apply Z.ltb_lt. now apply Habove.
    - intros r Hr.
      assert (Hh : In (BlockRow.height r) (heights dbK)).
      { unfold heights. now apply in_map. }
      apply current_height_bound in Hh. apply Z.ltb_ge. lia. }
  assert (Hids : removed_tx_ids K dbN = tx_ids post).
  { unfold removed_tx_ids, tx_ids. rewrite Hrem, map_map, flat_map_concat_map.
    reflexivity. }
  assert (Hroll : rolled_back K dbN = dbK).
  { change (rolled_back K dbN) with (undo K (removed_tx_ids K dbN) dbN).
    rewrite Hids, U. apply (undo_below K (tx_ids pre)); assumption. }
  assert (Hlen : (0 < List.length post)%nat).
  { destruct post; [congruence | simpl; lia]. }
  split; [|repeat split; assumption].
  unfold post_rollback, run, BEGIN, COMMIT. cbn [working committed].
  rewrite rollbackToHeight_eq.
  destruct (Z.geb_spec K (current_height dbN)); [lia|].
  destruct (Z.ltb_spec K 0); [lia|].
  rewrite Hrem, Hroll, map_map. cbn [fst snd]. simpl BlockRow.height.
  rewrite length_map.
  destruct (Nat.eqb_spec (List.length post) 0); [lia | reflexivity].
Qed.

Lemma rollback_inverts_acceptance_witness :
  post_rollback (Some 2) Scenario.db3
  = (mkReply 200 (RolledBack 2 [3]), Scenario.db2)
  /\ post_rollback (Some 0) Scenario.db3
     = (mkReply 200 (RolledBack 0 [1; 2; 3]), empty_tables).
Proof.
  split.
  - destruct (rollback_inverts_acceptance
                [Scenario.BLOCK_1; Scenario.BLOCK_2] [Scenario.BLOCK_3]
                Scenario.db2 Scenario.db3) as [E _].
    + vm_compute. reflexivity.
    + vm_compute. reflexivity.
    + discriminate.
    + intros t [<- | []] [H | [H | []]]; discriminate H.
    + exact E.
  - destruct (rollback_inverts_acceptance
                [] [Scenario.BLOCK_1; Scenario.BLOCK_2; Scenario.BLOCK_3]
                empty_tables Scenario.db3) as [E _].
    + reflexivity.
    + vm_compute. reflexivity.
    + discriminate.
    + intros t _ [].
    + exact E.
Defined.

(** Three accepted blocks, the third carrying a transaction named [b] like
    the one of the second: rolling back to height 2 clears the spender [b]
    of [a:0], which the second block set.  The tables differ from those
    after the first two blocks, and [addr1] holds 10 again while [addr2]
    keeps its 10. *)
Lemma rollback_after_reused_identifier :
  let db2 :=
    mkTables
      [block_row Reuse.block1; block_row Reuse.block2]
      [Utxo.mk "a" 0 "addr1" 1000000000 1 (Some "b"%string);
       Utxo.mk "b" 0 "addr2" 1000000000 2 None] in
  let db3 :=
    mkTables
      [block_row Reuse.block1; block_row Reuse.block2; block_row Reuse.block3]
      (utxos db2) in
  let rolled :=
    mkTables
      (blocks db2)
      [Utxo.mk "a" 0 "addr1" 1000000000 1 None;
       Utxo.mk "b" 0 "addr2" 1000000000 2 None] in
  accept_all [Reuse.block1; Reuse.block2] empty_tables = Some db2
  /\ accept_all [Reuse.block3] db2 = Some db3
  /\ post_rollback (Some 2) db3 = (mkReply 200 (RolledBack 2 [3]), rolled)
  /\ select_balance "addr1" db2 = 0
  /\ select_balance "addr1" rolled = 1000000000
  /\ select_balance "addr2" rolled = 1000000000.
Proof. vm_compute. repeat split; reflexivity. Qed.

(** ** The primary key of the entries, in every reachable state *)

Lemma distinct_NoDup (l : list (string * Z)) : distinct l = true -> NoDup l.
Proof.
  induction l as [|k l IH]; simpl; intros H; [constructor|].
  apply andb_true_iff in H. destruct H as [Hk Hl].
  constructor; [|now apply IH].
  intros Hin. apply negb_true_iff in Hk.
  assert (Hex : existsb (key_eqb k) l = true).
  { apply existsb_exists. exists k. split; [exact Hin|].
    unfold key_eqb. now rewrite String.eqb_refl, Z.eqb_refl. }
  congruence.
Qed.

Lemma spend_all_key spends r : Utxo.key (spend_all spends r) = Utxo.key r.
Proof.
  unfold spend_all. revert r.
  induction spends as [|s spends IH]; intros r; simpl; [reflexivity|].
  rewrite IH. destruct (spend_row_cases s r) as [-> | [_ ->]]; reflexivity.
Qed.

Lemma unspend_row_key T r : Utxo.key (unspend_row T r) = Utxo.key r.
Proof.
  unfold unspend_row. destruct (Utxo.spent_tx_id r); [|reflexivity].
  now destruct (existsb _ T).
Qed.

Lemma primary_key_accept block db db' :
  primary_key db -> processBlock block db = (inr tt, db') -> primary_key db'.
Proof.
  unfold primary_key. intros Hpk H. apply processBlock_accepted in H.
  destruct H as (_ & _ & st & rows & _ & Hrows & -> & Hd). cbn [utxos].
  destruct (snd st) as [|u us] eqn:E.
  - injection Hrows as <-. rewrite app_nil_r, apply_spends_map, map_map.
    erewrite map_ext; [exact Hpk|]. intros r. apply spend_all_key.
  - apply distinct_NoDup. apply Hd. discriminate.
Qed.

Lemma primary_key_rollback target db r db' :
  primary_key db -> rollbackToHeight target db = (r, db') -> primary_key db'.
Proof.
  unfold primary_key. intros Hpk. rewrite rollbackToHeight_eq.
  destruct (target >=? current_height db); [now intros [= <- <-]|].
  destruct (target <? 0); intros [= <- <-]; [exact Hpk|].
  unfold rolled_back. cbn [utxos]. apply selection_keeps_keys_distinct.
  rewrite map_map. erewrite map_ext; [exact Hpk|].
  intros x. apply unspend_row_key.
Qed.

Lemma reachable_primary_key db : reachable db -> primary_key db.
Proof.
  induction 1 as [|req db _ IH]; [constructor|].
  destruct req as [block | address | [target|]]; simpl; auto.
  - unfold post_blocks, run, BEGIN, COMMIT, ROLLBACK.
    destruct (String.eqb (Block.id block) ""); [exact IH|].
    cbn [working committed].
    destruct (processBlock block db) as [[e|[]] db'] eqn:E; simpl;
      [exact IH | exact (primary_key_accept _ _ _ IH E)].
  - unfold post_rollback, run, BEGIN, COMMIT, ROLLBACK.
    cbn [working committed].
    destruct (rollbackToHeight target db) as [[e|l] db'] eqn:E; simpl;
      [exact IH | exact (primary_key_rollback _ _ _ _ IH E)].
Qed.

(** ** The scenario of the test suite, request by request *)

Example scenario_test :
  let code_of r db := code (fst (handle r db)) in
  let balance a db := body (get_balance a db) in
  code_of (PostBlocks Scenario.invalidHeightBlock) empty_tables = 400
  /\ code_of (PostBlocks Scenario.invalidHashBlock) empty_tables = 400
  /\ code_of (PostBlocks Scenario.BLOCK_1) empty_tables = 201
  /\ balance "addr1"%string Scenario.db1 = Balance "addr1" 10
  /\ balance "addr2"%string Scenario.db1 = Balance "addr2" 0
  /\ code_of (PostBlocks Scenario.BLOCK_2) Scenario.db1 = 201
  /\ balance "addr1"%string Scenario.db2 = Balance "addr1" 0
  /\ balance "addr2"%string Scenario.db2 = Balance "addr2" 4
  /\ balance "addr3"%string Scenario.db2 = Balance "addr3" 6
  /\ code_of (PostBlocks Scenario.BLOCK_3) Scenario.db2 = 201
  /\ balance "addr3"%string Scenario.db3 = Balance "addr3" 0
  /\ balance "addr4"%string Scenario.db3 = Balance "addr4" 2
  /\ code_of (PostBlocks Scenario.doubleSpendBlock) Scenario.db3 = 400
  /\ handle (PostRollback (Some 2)) Scenario.db3
     = (mkReply 200 (RolledBack 2 [3]), Scenario.db2)
  /\ handle (PostBlocks Scenario.BLOCK_3) Scenario.db2
     = (mkReply 201 (BlockIndexed 3), Scenario.db3).
Proof. vm_compute. repeat split; reflexivity. Qed.

(** A block refused by the primary key of the bulk insert: when the error is
    raised the block row is already written in the transaction, and the
    [ROLLBACK] of the handler restores the tables. *)
Example late_failure_is_rolled_back :
  processBlock LateFailure.block Scenario.db1
  = (inl (StorageError (UniqueViolation "utxos_pkey")),
     mkTables (blocks Scenario.db1 ++ [block_row LateFailure.block])
              (utxos Scenario.db1))
  /\ post_blocks LateFailure.block Scenario.db1
     = (mkReply 400 (Failed (StorageError (UniqueViolation "utxos_pkey"))),
        Scenario.db1).
Proof. vm_compute. split; reflexivity. Qed.

(** * Further properties of the code *)

(** ** [getCurrentHeight] *)

(** X1 -- [getCurrentHeight] reads and does not write; its result bounds
    every recorded height, is one of them when there is a block, and is 0
    when there is none. *)
Theorem current_height_is_largest (db : Tables) :
  getCurrentHeight db = (inr (current_height db), db)
  /\ (forall h, In h (heights db) -> h <= current_height db)
  /\ (blocks db <> [] -> In (current_height db) (heights db))
  /\ (blocks db = [] -> current_height db = 0).
Proof.
  split; [reflexivity|]. split; [apply current_height_bound|].
  split; [apply current_height_in | apply current_height_empty].
Qed.

(** ** The [SELECT] of the referenced entries *)

Lemma selected_iff db tx r :
  In r (selected db tx) <->
  In r (utxos db)
  /\ exists i, In i (Transaction.inputs tx) /\ Utxo.key r = ref i.
Proof.
  unfold selected. rewrite filter_In. split.
  - intros [Hr Hex]. split; [exact Hr|].
    apply existsb_exists in Hex. destruct Hex as (x & Hx & Hq).
    apply String.eqb_eq in Hq. unfold inputReferences in Hx.
    apply in_map_iff in Hx. destruct Hx as (i & <- & Hi).
    apply concat_key_inj in Hq. destruct Hq as [Ht Hn].
    exists i. split; [exact Hi|]. unfold Utxo.key, ref. now rewrite Ht, Hn.
  - intros [Hr (i & Hi & Hk)]. split; [exact Hr|].
    apply existsb_exists.
    exists (concat_key (Input.txId i) (Input.index i)). split.
    + unfold inputReferences.
      exact (in_map (fun j => concat_key (Input.txId j) (Input.index j))
               _ _ Hi).
    + apply String.eqb_eq. unfold Utxo.key, ref in Hk.
      now injection Hk as -> ->.
Qed.

(** X2 -- For inputs whose [txId]s contain no quote and no NUL, the
    [SELECT] by concatenated text returns exactly the persisted entries
    whose [(tx_id, output_index)] is the [(txId, index)] of one of the
    inputs, and writes nothing: the text [tx_id_index] identifies the
    pair. *)
Theorem select_returns_referenced_entries
    (db : Tables) (inputs : list Input.t) :
  (forall i, In i inputs -> plain (Input.txId i) = true) ->
  exists rows,
    select_utxos_in (inputReferences inputs) db = (inr rows, db)
    /\ forall r, In r rows <->
         In r (utxos db) /\ exists i, In i inputs /\ Utxo.key r = ref i.
Proof.
  intros _. eexists. split; [reflexivity|]. intros r.
  exact (selected_iff db
           (Transaction.mk EmptyString inputs []) r).
Qed.

Lemma select_returns_referenced_entries_witness :
  exists rows,
    select_utxos_in (inputReferences [Input.mk "tx2" 1]) Scenario.db2
    = (inr rows, Scenario.db2)
    /\ forall r, In r rows <->
         In r (utxos Scenario.db2)
         /\ exists i, In i [Input.mk "tx2" 1] /\ Utxo.key r = ref i.
Proof.
  apply (select_returns_referenced_entries Scenario.db2 [Input.mk "tx2" 1]).
  intros i [<- | []]. reflexivity.
Defined.

(** ** The errors of the loop over the inputs *)

Lemma resolve_inputs_error_detail tx rows inputs acc db e :
  fst (resolve_inputs tx rows inputs acc db) = inl e ->
  exists i, In i inputs /\
    ((e = UtxoNotFound (Transaction.id tx) i
      /\ find (same_ref i) rows = None)
     \/ exists u s, find (same_ref i) rows = Some u
                    /\ Utxo.spent_tx_id u = Some s
                    /\ e = AlreadySpent (Transaction.id tx) i s).
Proof.
  revert acc. induction inputs as [|i inputs IH]; intros acc H; simpl in H.
  - discriminate H.
  - destruct (find (same_ref i) rows) as [u|] eqn:Hu.
    + destruct (Utxo.spent_tx_id u) as [s|] eqn:Hs.
      * injection H as <-. exists i. split; [now left|]. right.
        exists u, s. auto.
      * destruct (IH _ H) as (j & Hj & He). exists j.
        split; [now right | exact He].
    + injection H as <-. exists i. split; [now left|]. left. auto.
Qed.

Lemma found_when_all_selected db tx i :
  primary_key db ->
  List.length (selected db tx) = List.length (Transaction.inputs tx) ->
  In i (Transaction.inputs tx) ->
  exists u, find (same_ref i) (selected db tx) = Some u
            /\ In u (utxos db) /\ Utxo.key u = ref i.
Proof.
  intros Hpk Hlen Hi.
  destruct (selected_all db tx Hpk Hlen) as [_ Hall].
  destruct (Hall i Hi) as (r & Hr & Hk).
  rewrite find_selected by exact Hi.
  destruct (find (same_ref i) (utxos db)) as [u|] eqn:Hf.
  - exists u. split; [reflexivity|]. apply find_some in Hf.
    destruct Hf as [Hu Hm]. split; [exact Hu | now apply same_ref_key].
  - exfalso. apply (find_none _ _ Hf) in Hr. apply same_ref_key in Hk.
    congruence.
Qed.




Lemma db3_primary_key : primary_key Scenario.db3.
Proof. exact (reachable_primary_key _ db3_reachable). Qed.

Lemma db1_reachable : reachable Scenario.db1.
Proof. exact (reach_handle (PostBlocks Scenario.BLOCK_1) _ reach_empty). Qed.


Lemma present_selected db tx :
  primary_key db -> present db tx ->
  List.length (selected db tx) = List.length (Transaction.inputs tx).
Proof.
  intros Hpk [Hnd Hall].
  set (K := map Utxo.key (selected db tx)).
  assert (HK : NoDup K) by (now apply selection_keeps_keys_distinct).
  pose proof (selected_iff db tx) as Hsel.
  assert (H1 : incl K (map ref (Transaction.inputs tx))).
  { intros k Hk. unfold K in Hk. apply in_map_iff in Hk.
    destruct Hk as (r & <- & Hr). apply Hsel in Hr.
    destruct Hr as (_ & i & Hi & ->). now apply in_map. }
  assert (H2 : incl (map ref (Transaction.inputs tx)) K).
  { intros k Hk. apply in_map_iff in Hk. destruct Hk as (i & <- & Hi).
    destruct (Hall i Hi) as (r & Hr & Hkey). rewrite <- Hkey.
    unfold K. apply in_map. apply Hsel. split; [exact Hr|]. eauto. }
  pose proof (NoDup_incl_length HK H1) as L1.
  pose proof (NoDup_incl_length Hnd H2) as L2.
  unfold K in *. rewrite !length_map in *. lia.
Qed.

Lemma process_tx_with_inputs block tx st db :
  Transaction.inputs tx <> [] ->
  process_tx block tx st db =
  if negb (List.length (selected db tx)
           =? List.length (Transaction.inputs tx))%nat
  then (inl (MissingUtxo (Transaction.id tx)), db)
  else
    match fst (resolve_inputs tx (selected db tx) (Transaction.inputs tx)
                 (0%float, fst st) db) with
    | inl e => (inl e, db)
    | inr _ =>
        if negb (conserved (input_total (selected db tx) tx)
                           (output_total tx))
        then (inl (ValueMismatch (Transaction.id tx)
                     (toFixed8 (input_total (selected db tx) tx))
                     (toFixed8 (output_total tx))), db)
        else (inr ((fst st ++ spends_of tx)%list,
                   (snd st ++ staged block tx)%list), db)
    end.
Proof.
  intros Hne. rewrite process_tx_eq.
  destruct (Transaction.inputs tx); [congruence | reflexivity].
Qed.

(** X4 -- A second spend across blocks is refused.  Take a block that
    passes the height and hash checks, none of whose input [txId]s contains
    a quote or a NUL, and a transaction [tx] of it, reached after its
    predecessors validated, whose inputs are distinct keys of persisted
    entries.  If one of these entries has a spender, then [processBlock]
    throws the already-spent error for [tx], naming a spent input and the
    spender stored in its entry, and writes nothing. *)
Theorem spent_input_is_refused
    (block : Block.t) (db : Tables) (pre post : list Transaction.t)
    (tx : Transaction.t) (st : list Spend * list NewUtxo) :
  primary_key db ->
  plain_inputs (Block.transactions block) ->
  Block.height block = current_height db + 1 ->
  Block.id block
  = calculateBlockHash (Block.height block)
      (map Transaction.id (Block.transactions block)) ->
  Block.transactions block = (pre ++ tx :: post)%list ->
  fst (process_transactions block pre ([], []) db) = inr st ->
  present db tx ->
  (exists i r s, In i (Transaction.inputs tx) /\ In r (utxos db)
                 /\ Utxo.key r = ref i /\ Utxo.spent_tx_id r = Some s) ->
  exists i r s,
    In i (Transaction.inputs tx) /\ In r (utxos db)
    /\ Utxo.key r = ref i /\ Utxo.spent_tx_id r = Some s
    /\ processBlock block db
       = (inl (AlreadySpent (Transaction.id tx) i s), db).
Proof.
  intros Hpk _ Hh Hid Htxs Hpre Hpres (i0 & r0 & s0 & Hi0 & Hr0 & Hk0 & Hs0).
  pose proof (present_selected db tx Hpk Hpres) as Hlen.
  assert (Hne : Transaction.inputs tx <> []).
  { intros E. rewrite E in Hi0. contradiction. }
  assert (Hres : exists j u s,
             In j (Transaction.inputs tx)
             /\ find (same_ref j) (selected db tx) = Some u
             /\ Utxo.spent_tx_id u = Some s
             /\ fst (resolve_inputs tx (selected db tx)
                       (Transaction.inputs tx) (0%float, fst st) db)
                = inl (AlreadySpent (Transaction.id tx) j s)).
  { destruct (fst (resolve_inputs tx (selected db tx) (Transaction.inputs tx)
                     (0%float, fst st) db)) as [err|ok] eqn:Hr.
    - apply resolve_inputs_error_detail in Hr.
      destruct Hr as (j & Hj & [[_ Hnone] | (u & s & Hf & Hs & ->)]).
      + exfalso.
        destruct (found_when_all_selected db tx j Hpk Hlen Hj)
          as (u & Hu & _). congruence.
      + exists j, u, s. auto.
    - exfalso. apply resolve_inputs_inv in Hr.
      destruct (Hr i0 Hi0) as (u & Hf & Hn).
      destruct (found_when_all_selected db tx i0 Hpk Hlen Hi0)
        as (u' & Hu' & Hin & Hkey).
      assert (u' = u) by congruence. subst u'.
      assert (u = r0).
      { apply (key_determines_row (utxos db)); auto. congruence. }
      subst u. congruence. }
  destruct Hres as (j & u & s & Hj & Hf & Hs & Hr).
  destruct (found_when_all_selected db tx j Hpk Hlen Hj)
    as (u' & Hu' & Hin & Hkey).
  assert (u' = u) by congruence. subst u'.
  exists j, u, s. repeat split; auto.
  rewrite processBlock_eq.
  destruct (Z.eqb_spec (Block.height block) (current_height db + 1));
    [|contradiction]. simpl.
  destruct (String.eqb_spec (Block.id block)
              (calculateBlockHash (Block.height block)
                 (map Transaction.id (Block.transactions block))));
    [|contradiction]. simpl.
  unfold validate. rewrite Htxs, process_transactions_app, Hpre.
  simpl. unfold bind.
  rewrite (process_tx_with_inputs _ _ _ _ Hne), Hlen, Nat.eqb_refl, Hr.
  reflexivity.
Qed.

Lemma spent_input_is_refused_witness :
  exists i r s,
    In i [Input.mk "tx2" 1] /\ In r (utxos Scenario.db3)
    /\ Utxo.key r = ref i /\ Utxo.spent_tx_id r = Some s
    /\ processBlock Scenario.doubleSpendBlock Scenario.db3
       = (inl (AlreadySpent "tx4_double_spend" i s), Scenario.db3).
Proof.
  apply (spent_input_is_refused Scenario.doubleSpendBlock Scenario.db3 [] []
           (Transaction.mk "tx4_double_spend" [Input.mk "tx2" 1]
              [Output.mk "hacker" 6])
           ([], [])).
  - exact db3_primary_key.
  - intros t i [<- | []] [<- | []]. reflexivity.
  - vm_compute. reflexivity.
  - vm_compute. reflexivity.
  - reflexivity.
  - reflexivity.
  - split.
    + vm_compute. constructor; [simpl; tauto | constructor].
    + intros i [<- | []]. vm_compute. eexists.
      split; [right; right; now left | reflexivity].
  - vm_compute. eexists _, _, _. split; [now left|].
    split; [right; right; now left|]. split; reflexivity.
Defined.

(** ** What an accepted block writes *)

Lemma process_transactions_closed block txs st db st' :
  fst (process_transactions block txs st db) = inr st' ->
  st' = ((fst st ++ flat_map spends_of txs)%list,
         (snd st ++ flat_map (staged block) txs)%list).
Proof.
  revert st. induction txs as [|tx txs IH]; intros st H.
  - simpl in H. injection H as <-. simpl. rewrite !app_nil_r.
    now destruct st.
  - simpl in H. unfold bind in H. rewrite process_tx_eq in H.
    assert (Hstep : fst (process_transactions block txs
                           ((fst st ++ spends_of tx)%list,
                            (snd st ++ staged block tx)%list) db)
                    = inr st').
    { destruct (Transaction.inputs tx) as [|i l] eqn:Hin.
      - unfold spends_of. rewrite Hin. simpl. rewrite app_nil_r. exact H.
      - destruct (negb (_ =? _)%nat); [discriminate H|].
        destruct (fst (resolve_inputs _ _ _ _ _)); [discriminate H|].
        destruct (negb (conserved _ _)); [discriminate H | exact H]. }
    rewrite (IH _ Hstep). simpl. now rewrite <- !app_assoc.
Qed.

Lemma utxo_rows_closed news rows :
  utxo_rows news = inr rows ->
  rows = map row_of news
  /\ forall u, In u news ->
       Z.abs (round8 (n_value u)) < 10 ^ 20
       /\ int4 (n_output_index u) = true /\ int4 (n_block_height u) = true.
Proof.
  revert rows. induction news as [|u news IH]; intros rows H.
  - injection H as <-. split; [reflexivity | contradiction].
  - simpl in H. destruct (utxo_row u) as [v|r0] eqn:E; [discriminate H|].
    destruct (utxo_rows news) as [v|rs]; [discriminate H|].
    injection H as <-. destruct (IH rs eq_refl) as [-> Hfit].
    unfold utxo_row in E.
    destruct (int4 (n_output_index u) && int4 (n_block_height u)) eqn:Hi;
      [|discriminate E]. simpl in E.
    unfold numeric_20_8 in E.
    destruct (is_finite (n_value u)); [|discriminate E].
    destruct (Z.ltb_spec (Z.abs (round8 (n_value u))) (10 ^ 20));
      [|discriminate E].
    injection E as <-. apply andb_true_iff in Hi. split; [reflexivity|].
    intros u' [<- | Hu']; [tauto | now apply Hfit].
Qed.


Lemma write_block_fresh block st db db' :
  write_block block st db = (inr tt, db') ->
  int4 (Block.height block) = true
  /\ forall b, In b (blocks db) -> BlockRow.id b <> Block.id block.
Proof.
  unfold write_block, bind, insert_block.
  destruct (int4 (Block.height block)); [|discriminate]. simpl.
  destruct (existsb (Z.eqb (Block.height block)) _); [discriminate|].
  destruct (existsb (String.eqb (Block.id block)) _) eqn:E; [discriminate|].
  intros _. split; [reflexivity|]. intros b Hb Hid.
  assert (existsb (String.eqb (Block.id block))
            (map BlockRow.id (blocks db)) = true); [|congruence].
  apply existsb_exists. exists (BlockRow.id b).
  split; [now apply in_map | now apply String.eqb_eq].
Qed.

Lemma accepted_writes (block : Block.t) (db db' : Tables) :
  processBlock block db = (inr tt, db') ->
  db' = mkTables
          (blocks db ++ [block_row block])
          (apply_spends (block_spends block) (utxos db)
           ++ map row_of (block_outputs block))
  /\ (forall b, In b (blocks db) -> BlockRow.id b <> Block.id block)
  /\ int4 (Block.height block) = true
  /\ (forall u, In u (block_outputs block) ->
        Z.abs (round8 (n_value u)) < 10 ^ 20
        /\ n_block_height u = Block.height block).
Proof.
  intros H. pose proof H as Hacc. rewrite processBlock_eq in H.
  destruct (negb (Block.height block =? current_height db + 1));
    [discriminate H|].
  destruct (negb (String.eqb _ _)); [discriminate H|].
  destruct (validate block db) as [e|st] eqn:Hv; [discriminate H|].
  pose proof (process_transactions_closed _ _ _ _ _ Hv) as Hst.
  simpl in Hst. fold (block_spends block) (block_outputs block) in Hst.
  destruct (write_block_fresh _ _ _ _ H) as [Hint Hfresh].
  apply write_block_inv in H. destruct H as (_ & rows & Hrows & -> & _).
  subst st. cbn [fst snd] in *.
  destruct (utxo_rows_closed _ _ Hrows) as [-> Hfit].
  repeat split; auto.
  - now apply Hfit.
  - unfold block_outputs in H. apply in_flat_map in H.
    destruct H as (tx & _ & Hu). exact (staged_from_height _ _ _ _ _ Hu).
Qed.

(** X5 -- What an accepted block writes.  When [processBlock] returns, the
    tables are the old ones with one more block row (height, id and the
    identifiers of the transactions in order), the conditional spend update
    applied for every input of every transaction in order, and one new
    unspent entry per declared output, keyed by transaction identifier and
    position, holding the declared value rounded to 8 fractional digits and
    the block's height.  The block's id was not recorded before, its height
    fits an [INTEGER] and every stored value fits [NUMERIC(20,8)]. *)
Theorem accepted_block_writes (block : Block.t) (db db' : Tables) :
  processBlock block db = (inr tt, db') ->
  db' = mkTables
          (blocks db ++ [block_row block])
          (apply_spends (block_spends block) (utxos db)
           ++ map row_of (block_outputs block))
  /\ (forall b, In b (blocks db) -> BlockRow.id b <> Block.id block)
  /\ int4 (Block.height block) = true
  /\ (forall u, In u (block_outputs block) ->
        Z.abs (round8 (n_value u)) < 10 ^ 20
        /\ n_block_height u = Block.height block).
Proof. exact (accepted_writes block db db'). Qed.

Lemma accepted_block_writes_witness :
  Scenario.db2
  = mkTables
      (blocks Scenario.db1 ++ [block_row Scenario.BLOCK_2])
      (apply_spends (block_spends Scenario.BLOCK_2) (utxos Scenario.db1)
       ++ map row_of (block_outputs Scenario.BLOCK_2)).
Proof.
  assert (E : processBlock Scenario.BLOCK_2 Scenario.db1
              = (inr tt, Scenario.db2)) by (vm_compute; reflexivity).
  exact (proj1 (accepted_block_writes _ _ _ E)).
Defined.

(** ** The entries a block spends *)

Lemma block_spends_iff block s :
  In s (block_spends block) <->
  exists tx i, In tx (Block.transactions block)
               /\ In i (Transaction.inputs tx)
               /\ s = mkSpend (Input.txId i) (Input.index i)
                              (Transaction.id tx).
Proof.
  unfold block_spends. rewrite in_flat_map. split.
  - intros (tx & Htx & Hs). unfold spends_of in Hs. apply in_map_iff in Hs.
    destruct Hs as (i & <- & Hi). eauto.
  - intros (tx & i & Htx & Hi & ->). exists tx. split; [exact Htx|].
    unfold spends_of.
    exact (in_map (fun j => mkSpend (Input.txId j) (Input.index j)
                                    (Transaction.id tx)) _ _ Hi).
Qed.

Lemma referenced_iff block r :
  referenced block r = true <->
  exists s, In s (block_spends block)
            /\ Utxo.key r = (sp_txId s, sp_index s).
Proof.
  unfold referenced. rewrite existsb_exists. split.
  - intros (tx & Htx & Hex). apply existsb_exists in Hex.
    destruct Hex as (i & Hi & Hm). apply same_ref_key in Hm.
    exists (mkSpend (Input.txId i) (Input.index i) (Transaction.id tx)).
    split; [apply block_spends_iff; eauto | exact Hm].
  - intros (s & Hs & Hk). apply block_spends_iff in Hs.
    destruct Hs as (tx & i & Htx & Hi & ->). exists tx. split; [exact Htx|].
    apply existsb_exists. exists i. split; [exact Hi|].
    now apply same_ref_key.
Qed.

Lemma spend_row_other s r :
  Utxo.key r <> (sp_txId s, sp_index s) -> spend_row s r = r.
Proof.
  intros Hne. unfold spend_row.
  destruct (String.eqb_spec (Utxo.tx_id r) (sp_txId s)); [|reflexivity].
  destruct (Z.eqb_spec (Utxo.output_index r) (sp_index s)); [|reflexivity].
  exfalso. apply Hne. unfold Utxo.key. congruence.
Qed.

Lemma spend_row_same s r :
  Utxo.key r = (sp_txId s, sp_index s) -> Utxo.spent_tx_id r = None ->
  spend_row s r = Utxo.set_spent (Some (spenderId s)) r.
Proof.
  intros Hk Hn. unfold spend_row, Utxo.key in *. injection Hk as -> ->.
  now rewrite String.eqb_refl, Z.eqb_refl, Hn.
Qed.

Lemma spend_all_spent spends r t :
  Utxo.spent_tx_id r = Some t -> spend_all spends r = r.
Proof.
  unfold spend_all. revert r.
  induction spends as [|s spends IH]; intros r H; simpl; [reflexivity|].
  rewrite (spend_row_keeps_spender s r t H). now apply IH.
Qed.

Lemma spend_all_untouched spends r :
  (forall s, In s spends -> Utxo.key r <> (sp_txId s, sp_index s)) ->
  spend_all spends r = r.
Proof.
  unfold spend_all. revert r.
  induction spends as [|s spends IH]; intros r H; simpl; [reflexivity|].
  rewrite spend_row_other by (apply H; now left).
  apply IH. intros s' Hs'. apply H. now right.
Qed.

Lemma spend_all_touched spends r :
  Utxo.spent_tx_id r = None ->
  (exists s, In s spends /\ Utxo.key r = (sp_txId s, sp_index s)) ->
  exists s, In s spends
            /\ spend_all spends r = Utxo.set_spent (Some (spenderId s)) r.
Proof.
  unfold spend_all. revert r.
  induction spends as [|s spends IH]; intros r Hn (s0 & Hs0 & Hk);
    [contradiction|].
  simpl.
  destruct (String.eqb_spec (Utxo.tx_id r) (sp_txId s)) as [Et|Et];
    [destruct (Z.eqb_spec (Utxo.output_index r) (sp_index s)) as [Ei|Ei]|].
  - exists s. split; [now left|].
    rewrite spend_row_same by (auto; unfold Utxo.key; congruence).
    apply (spend_all_spent spends _ (spenderId s)). reflexivity.
  - rewrite spend_row_other by (unfold Utxo.key; congruence).
    destruct Hs0 as [-> | Hs0];
      [exfalso; unfold Utxo.key in Hk; congruence|].
    destruct (IH r Hn) as (s' & Hs' & E); [eauto|].
    exists s'. split; [now right | exact E].
  - rewrite spend_row_other by (unfold Utxo.key; congruence).
    destruct Hs0 as [-> | Hs0];
      [exfalso; unfold Utxo.key in Hk; congruence|].
    destruct (IH r Hn) as (s' & Hs' & E); [eauto|].
    exists s'. split; [now right | exact E].
Qed.

Lemma referenced_was_unspent block db st r :
  primary_key db -> validate block db = inr st ->
  In r (utxos db) -> referenced block r = true ->
  Utxo.spent_tx_id r = None.
Proof.
  intros Hpk Hv Hr Href. apply referenced_iff in Href.
  destruct Href as (s & Hs & Hk). apply block_spends_iff in Hs.
  destruct Hs as (tx & i & Htx & Hi & ->). simpl in Hk.
  destruct (validate_each _ _ _ _ _ Hv tx Htx) as (s1 & s2 & E).
  assert (Hne : Transaction.inputs tx <> []).
  { intros E0. rewrite E0 in Hi. contradiction. }
  rewrite (process_tx_with_inputs _ _ _ _ Hne) in E.
  destruct (negb (_ =? _)%nat); [discriminate E|].
  destruct (fst (resolve_inputs _ _ _ _ _)) as [e|ok] eqn:Hres;
    [discriminate E|].
  apply resolve_inputs_inv in Hres. destruct (Hres i Hi) as (u & Hf & Hn).
  apply find_some in Hf. destruct Hf as [Hu Hm].
  apply same_ref_key in Hm. apply selected_iff in Hu. destruct Hu as [Hu _].
  assert (u = r); [|now subst].
  apply (key_determines_row (utxos db)); auto. now rewrite Hm.
Qed.

(** X6 -- The entries an accepted block spends.  After [processBlock]
    returns, an entry that no input of the block refers to is still there
    unchanged; an entry that some input refers to had no spender before and
    is now recorded as spent by a transaction of the block. *)
Theorem accepted_block_spends_its_inputs
    (block : Block.t) (db db' : Tables) :
  primary_key db ->
  processBlock block db = (inr tt, db') ->
  forall r, In r (utxos db) ->
    (referenced block r = false -> In r (utxos db'))
    /\ (referenced block r = true ->
        Utxo.spent_tx_id r = None
        /\ exists tx, In tx (Block.transactions block)
             /\ In (Utxo.set_spent (Some (Transaction.id tx)) r)
                   (utxos db')).
Proof.
  intros Hpk H r Hr.
  destruct (accepted_writes _ _ _ H) as (-> & _).
  apply processBlock_accepted in H.
  destruct H as (_ & _ & st & _ & Hv & _).
  cbn [utxos]. rewrite apply_spends_map. split.
  - intros Hno. apply in_or_app. left. apply in_map_iff. exists r.
    split; [|exact Hr]. apply spend_all_untouched. intros s Hs Hk.
    assert (referenced block r = true); [|congruence].
    apply referenced_iff. eauto.
  - intros Href.
    pose proof (referenced_was_unspent _ _ _ _ Hpk Hv Hr Href) as Hn.
    split; [exact Hn|]. apply referenced_iff in Href.
    destruct (spend_all_touched (block_spends block) r Hn Href)
      as (s & Hs & E).
    apply block_spends_iff in Hs. destruct Hs as (tx & i & Htx & _ & ->).
    exists tx. split; [exact Htx|]. apply in_or_app. left.
    apply in_map_iff. exists r. split; [exact E | exact Hr].
Qed.

Lemma accepted_block_spends_its_inputs_witness :
  In (Utxo.mk "tx1" 0 "addr1" 1000000000 1 (Some "tx2"%string))
     (utxos Scenario.db2).
Proof.
  assert (E : processBlock Scenario.BLOCK_2 Scenario.db1
              = (inr tt, Scenario.db2)) by (vm_compute; reflexivity).
  assert (Hr : In (Utxo.mk "tx1" 0 "addr1" 1000000000 1 None)
                  (utxos Scenario.db1)) by (vm_compute; now left).
  destruct (accepted_block_spends_its_inputs _ _ _
              (reachable_primary_key _ db1_reachable) E _ Hr) as [_ Hsp].
  destruct (Hsp eq_refl) as (_ & tx & [<- | []] & Hin). exact Hin.
Defined.

(** ** Balances after an accepted block *)

Lemma unspent_sum_app address l1 l2 :
  unspent_sum address (l1 ++ l2)
  = unspent_sum address l1 + unspent_sum address l2.
Proof.
  induction l1 as [|r l1 IH]; simpl; [reflexivity | rewrite IH; lia].
Qed.

Lemma spend_all_address spends r :
  Utxo.address (spend_all spends r) = Utxo.address r.
Proof.
  unfold spend_all. revert r.
  induction spends as [|s spends IH]; intros r; simpl; [reflexivity|].
  rewrite IH. destruct (spend_row_cases s r) as [-> | [_ ->]]; reflexivity.
Qed.

Lemma unspent_sum_spent address block rows :
  unspent_sum address (map (spend_all (block_spends block)) rows)
  = unspent_sum address
      (filter (fun r => negb (referenced block r)) rows).
Proof.
  induction rows as [|r rows IH]; simpl; [reflexivity|].
  destruct (referenced block r) eqn:Href; simpl.
  - rewrite IH, spend_all_address.
    destruct (String.eqb (Utxo.address r) address); [|reflexivity].
    destruct (Utxo.spent_tx_id r) as [t|] eqn:Hs.
    + rewrite (spend_all_spent _ _ _ Hs), Hs. reflexivity.
    + apply referenced_iff in Href.
      destruct (spend_all_touched _ r Hs Href) as (s & _ & ->). reflexivity.
  - rewrite IH. rewrite spend_all_untouched; [reflexivity|].
    intros s Hs Hk. assert (referenced block r = true); [|congruence].
    apply referenced_iff. eauto.
Qed.

Lemma unspent_sum_staged address txid height outputs index a :
  unspent_sum address (map row_of (staged_from txid height outputs index)) + a
  = fold_left Z.add
      (map (fun o => round8 (Output.value o))
         (filter (fun o => String.eqb (Output.address o) address) outputs)) a.
Proof.
  revert index a. induction outputs as [|o outputs IH]; intros index a;
    simpl; [reflexivity|].
  destruct (String.eqb (Output.address o) address); simpl.
  - rewrite <- (IH (index + 1)). lia.
  - rewrite <- (IH (index + 1)). lia.
Qed.

Lemma unspent_sum_outputs address block txs a :
  unspent_sum address (map row_of (flat_map (staged block) txs)) + a
  = fold_left Z.add
      (map (fun o => round8 (Output.value o))
         (filter (fun o => String.eqb (Output.address o) address)
            (flat_map Transaction.outputs txs))) a.
Proof.
  revert a. induction txs as [|tx txs IH]; intros a; simpl; [reflexivity|].
  rewrite map_app, unspent_sum_app, filter_app, map_app, fold_left_app.
  rewrite <- (IH (fold_left Z.add _ a)).
  rewrite <- (unspent_sum_staged address (Transaction.id tx)
                (Block.height block) (Transaction.outputs tx) 0 a).
  unfold staged. lia.
Qed.

(** X7 -- The balance after an accepted block.  For every address, the sum
    the balance query returns after [processBlock] is the sum over the old
    entries of the address that are unspent and that no input of the block
    refers to, plus the declared values, rounded as stored, of the block's
    outputs to the address.  In particular a block that neither pays an
    address nor refers to an entry of it leaves its balance unchanged. *)
Theorem balance_after_accepted_block
    (block : Block.t) (db db' : Tables) (address : string) :
  processBlock block db = (inr tt, db') ->
  select_balance address db'
  = unspent_sum address
      (filter (fun r => negb (referenced block r)) (utxos db))
    + credited address block
  /\ (credited address block = 0 ->
      (forall r, In r (utxos db) -> Utxo.address r = address ->
                 referenced block r = false) ->
      get_balance address db' = get_balance address db).
Proof.
  intros H. destruct (accepted_writes _ _ _ H) as (-> & _).
  assert (E : select_balance address
                (mkTables (blocks db ++ [block_row block])
                   (apply_spends (block_spends block) (utxos db)
                    ++ map row_of (block_outputs block)))
              = unspent_sum address
                  (filter (fun r => negb (referenced block r)) (utxos db))
                + credited address block).
  { rewrite select_balance_eq. cbn [utxos].
    rewrite unspent_sum_app, apply_spends_map, unspent_sum_spent.
    f_equal. unfold credited, block_outputs.
    rewrite <- (unspent_sum_outputs address block). lia. }
  split; [exact E|]. intros Hzero Hfree.
  assert (Hz : unspent_sum address
                 (filter (fun r => negb (referenced block r)) (utxos db))
               = unspent_sum address (utxos db)).
  { revert Hfree. generalize (utxos db) as rows.
    induction rows as [|r rows IH]; intros Hfree; [reflexivity|].
    assert (IH' := IH (fun r' Hr' => Hfree r' (or_intror Hr'))).
    simpl. destruct (String.eqb_spec (Utxo.address r) address) as [Ea|Ea].
    - rewrite (Hfree r (or_introl eq_refl) Ea). simpl.
      destruct (String.eqb_spec (Utxo.address r) address); [|contradiction].
      now rewrite IH'.
    - destruct (referenced block r); simpl; [exact IH'|].
      destruct (String.eqb_spec (Utxo.address r) address); [contradiction|].
      now rewrite IH'. }
  unfold get_balance. rewrite E, Hzero, Z.add_0_r, Hz, select_balance_eq.
  reflexivity.
Qed.

Lemma balance_after_accepted_block_witness :
  select_balance "addr3" Scenario.db3 = 0
  /\ select_balance "addr4" Scenario.db3 = 200000000
  /\ get_balance "addr2" Scenario.db3 = get_balance "addr2" Scenario.db2.
Proof.
  assert (E : processBlock Scenario.BLOCK_3 Scenario.db2
              = (inr tt, Scenario.db3)) by (vm_compute; reflexivity).
  split; [|split].
  - rewrite (proj1 (balance_after_accepted_block _ _ _ "addr3" E)).
    vm_compute. reflexivity.
  - rewrite (proj1 (balance_after_accepted_block _ _ _ "addr4" E)).
    vm_compute. reflexivity.
  - apply (proj2 (balance_after_accepted_block _ _ _ "addr2" E)).
    + vm_compute. reflexivity.
    + intros r Hr Ha. vm_compute in Hr.
      destruct Hr as [<- | [<- | [<- | []]]];
        try (vm_compute in Ha; discriminate Ha).
      vm_compute. reflexivity.
Defined.

(** ** Replays, the structure check and blocks without transactions *)

(** X8 -- An accepted block cannot be replayed: submitted again to the
    tables it produced, it is refused with the invalid-height error, which
    expects the next height, and nothing changes. *)
Theorem accepted_block_is_not_replayed (block : Block.t) (db db' : Tables) :
  processBlock block db = (inr tt, db') ->
  processBlock block db'
  = (inl (InvalidHeight (Block.height block + 1) (Block.height block)), db')
  /\ post_blocks block db'
     = (mkReply 400
          (Failed (InvalidHeight (Block.height block + 1)
                                 (Block.height block))), db').
Proof.
  intros H.
  destruct (accepted_effect _ _ _ H) as (Hh & spends & rows & -> & _).
  assert (Hid : Block.id block <> ""%string).
  { apply processBlock_accepted in H. destruct H as (_ & Hid & _).
    intros E. rewrite E in Hid.
    pose proof (f_equal String.length Hid) as Hl. revert Hl.
    unfold calculateBlockHash.
    rewrite (proj1 (hex_join _)), digest_length. discriminate. }
  set (db' := mkTables _ _).
  assert (Hcur : current_height db' = Block.height block).
  { apply (current_height_push db (block_row block)). exact Hh. }
  assert (E : processBlock block db'
              = (inl (InvalidHeight (Block.height block + 1)
                        (Block.height block)), db')).
  { rewrite (wrong_height_is_thrown block db') by lia. now rewrite Hcur. }
  split; [exact E|].
  unfold post_blocks, run, BEGIN, ROLLBACK. cbn [working committed].
  destruct (String.eqb_spec (Block.id block) ""); [contradiction|].
  now rewrite E.
Qed.

Lemma accepted_block_is_not_replayed_witness :
  post_blocks Scenario.BLOCK_2 Scenario.db2
  = (mkReply 400 (Failed (InvalidHeight 3 2)), Scenario.db2).
Proof.
  assert (E : processBlock Scenario.BLOCK_2 Scenario.db1
              = (inr tt, Scenario.db2)) by (vm_compute; reflexivity).
  exact (proj2 (accepted_block_is_not_replayed _ _ _ E)).
Defined.

Lemma accepted_by_the_handler block db db' :
  processBlock block db = (inr tt, db') ->
  post_blocks block db
  = (mkReply 201 (BlockIndexed (Block.height block)), db').
Proof.
  intros H. unfold post_blocks, run, BEGIN, COMMIT. cbn [working committed].
  destruct (String.eqb_spec (Block.id block) "") as [E|_].
  - exfalso. apply processBlock_accepted in H. destruct H as (_ & Hid & _).
    rewrite E in Hid. pose proof (f_equal String.length Hid) as Hl.
    revert Hl. unfold calculateBlockHash.
    rewrite (proj1 (hex_join _)), digest_length. discriminate.
  - now rewrite H.
Qed.

Lemma handler_replies block db :
  code (fst (post_blocks block db)) = 201
  \/ (code (fst (post_blocks block db)) = 400
      /\ snd (post_blocks block db) = db).
Proof.
  unfold post_blocks, run, BEGIN, COMMIT, ROLLBACK. cbn [working committed].
  destruct (String.eqb (Block.id block) ""); [right; now split|].
  destruct (processBlock block db) as [[e|[]] d]; simpl;
    [right; now split | now left].
Qed.

(** X9 -- The structure check of the handler refuses no block that
    [processBlock] would accept: a block is answered 201 exactly when
    [processBlock] returns, the tables committed are those it produced, and
    every other request is answered 400 with the tables unchanged.  (An
    empty [id] can never equal the 64 characters of the computed hash.) *)
Theorem handler_accepts_what_the_core_accepts (block : Block.t) (db : Tables) :
  (forall db', processBlock block db = (inr tt, db') ->
     post_blocks block db = (mkReply 201 (BlockIndexed (Block.height block)),
                             db'))
  /\ (code (fst (post_blocks block db)) = 201 <->
      exists db', processBlock block db = (inr tt, db'))
  /\ (code (fst (post_blocks block db)) = 201
      \/ (code (fst (post_blocks block db)) = 400
          /\ snd (post_blocks block db) = db)).
Proof.
  assert (Hok : forall db', processBlock block db = (inr tt, db') ->
     post_blocks block db = (mkReply 201 (BlockIndexed (Block.height block)),
                             db')).
  { intros db' H. now apply accepted_by_the_handler. }
  split; [exact Hok|]. split.
  - split.
    + intros H. exists (snd (post_blocks block db)).
      now apply post_blocks_accepted.
    + intros (db' & H). now rewrite (Hok db' H).
  - unfold post_blocks, run, BEGIN, COMMIT, ROLLBACK.
    cbn [working committed].
    destruct (String.eqb (Block.id block) ""); [right; now split|].
    destruct (processBlock block db) as [[e|[]] d]; simpl;
      [right; now split | now left].
Qed.

(** X10 -- A block without transactions.  The successor block with the
    hash of its height alone is accepted whenever its id is not recorded
    yet and its height fits an [INTEGER]: it adds its block row and leaves
    every entry as it is. *)
Theorem empty_block_is_accepted (block : Block.t) (db : Tables) :
  Block.transactions block = [] ->
  Block.height block = current_height db + 1 ->
  Block.id block = calculateBlockHash (Block.height block) [] ->
  int4 (Block.height block) = true ->
  (forall b, In b (blocks db) -> BlockRow.id b <> Block.id block) ->
  post_blocks block db
  = (mkReply 201 (BlockIndexed (Block.height block)),
     mkTables (blocks db ++ [block_row block]) (utxos db)).
Proof.
  intros Htx Hh Hid Hint Hfresh.
  apply accepted_by_the_handler.
  rewrite processBlock_eq, Htx.
  destruct (Z.eqb_spec (Block.height block) (current_height db + 1));
    [|contradiction]. simpl.
  destruct (String.eqb_spec (Block.id block)
              (calculateBlockHash (Block.height block) []));
    [|contradiction]. simpl.
  unfold validate. rewrite Htx. simpl.
  unfold write_block, bind, insert_block. rewrite Hint. simpl.
  assert (H1 : existsb (Z.eqb (Block.height block))
                 (map BlockRow.height (blocks db)) = false).
  { apply not_true_is_false. intros E.
    apply existsb_exists in E. destruct E as (h & Hin & Eq).
    apply Z.eqb_eq in Eq. subst h.
    apply (current_height_bound db) in Hin. lia. }
  assert (H2 : existsb (String.eqb (Block.id block))
                 (map BlockRow.id (blocks db)) = false).
  { apply not_true_is_false. intros E.
    apply existsb_exists in E. destruct E as (x & Hin & Eq).
    apply String.eqb_eq in Eq. subst x. apply in_map_iff in Hin.
    destruct Hin as (b & Hb & Hin). exact (Hfresh b Hin Hb). }
  rewrite H1, H2. unfold ret, block_row. rewrite Htx. reflexivity.
Qed.

Lemma empty_block_is_accepted_witness :
  post_blocks (Collision.empty_block 1) empty_tables
  = (mkReply 201 (BlockIndexed 1),
     mkTables [block_row (Collision.empty_block 1)] []).
Proof.
  apply (empty_block_is_accepted (Collision.empty_block 1) empty_tables).
  - reflexivity.
  - reflexivity.
  - reflexivity.
  - reflexivity.
  - intros b [].
Defined.

(** ** The unique block id *)

(** X11 -- The hash does not separate the height from the identifiers, nor
    the identifiers from each other: two blocks whose decimal height
    followed by the identifiers read the same have the same hash.  And a
    block whose id is already recorded is never accepted; when it passes the
    height check, the hash check and validation, it is refused by the
    unique constraint on [blocks.id] before anything is written. *)
Theorem recorded_id_is_refused (block : Block.t) (db : Tables) :
  (exists b, In b (blocks db) /\ BlockRow.id b = Block.id block) ->
  (forall height ids height' ids',
      (string_of_Z height ++ join ids)%string
      = (string_of_Z height' ++ join ids')%string ->
      calculateBlockHash height ids = calculateBlockHash height' ids')
  /\ code (fst (post_blocks block db)) = 400
  /\ snd (post_blocks block db) = db
  /\ (Block.height block = current_height db + 1 ->
      Block.id block
      = calculateBlockHash (Block.height block)
          (map Transaction.id (Block.transactions block)) ->
      int4 (Block.height block) = true ->
      forall st, validate block db = inr st ->
        processBlock block db
        = (inl (StorageError (UniqueViolation "blocks_id_key")), db)).
Proof.
  intros (b & Hb & Hid). split; [|split; [|split]].
  - intros height ids height' ids' E. unfold calculateBlockHash.
    now rewrite E.
  - destruct (handler_replies block db) as [H201 | [H400 _]];
      [|exact H400].
    exfalso. apply post_blocks_accepted in H201.
    destruct (accepted_writes _ _ _ H201) as (_ & Hfresh & _).
    exact (Hfresh b Hb Hid).
  - destruct (handler_replies block db) as [H201 | [_ Hdb]]; [|exact Hdb].
    exfalso. apply post_blocks_accepted in H201.
    destruct (accepted_writes _ _ _ H201) as (_ & Hfresh & _).
    exact (Hfresh b Hb Hid).
  - intros Hh Hhash Hint st Hv. rewrite processBlock_eq.
    destruct (Z.eqb_spec (Block.height block) (current_height db + 1));
      [|contradiction]. simpl.
    destruct (String.eqb_spec (Block.id block)
                (calculateBlockHash (Block.height block)
                   (map Transaction.id (Block.transactions block))));
      [|contradiction]. simpl.
    rewrite Hv. unfold write_block, bind, insert_block. rewrite Hint. simpl.
    assert (H1 : existsb (Z.eqb (Block.height block))
                   (map BlockRow.height (blocks db)) = false).
    { apply not_true_is_false. intros E.
      apply existsb_exists in E. destruct E as (h & Hin & Eq).
      apply Z.eqb_eq in Eq. subst h.
      apply (current_height_bound db) in Hin. lia. }
    assert (H2 : existsb (String.eqb (Block.id block))
                   (map BlockRow.id (blocks db)) = true).
    { apply existsb_exists. exists (BlockRow.id b).
      split; [now apply in_map | now apply String.eqb_eq]. }
    now rewrite H1, H2.
Qed.

Lemma recorded_id_is_refused_witness :
  calculateBlockHash 1 ["0x"%string] = calculateBlockHash 10 ["x"%string]
  /\ post_blocks Collision.tenth Collision.db9
     = (mkReply 400 (Failed (StorageError (UniqueViolation "blocks_id_key"))),
        Collision.db9).
Proof.
  assert (Hrec : exists b, In b (blocks Collision.db9)
                           /\ BlockRow.id b = Block.id Collision.tenth).
  { exists (block_row Collision.first). split; vm_compute; auto. }
  destruct (recorded_id_is_refused Collision.tenth Collision.db9 Hrec)
    as (Hcat & _ & _ & Hkey).
  split; [apply Hcat; reflexivity|].
  assert (E : processBlock Collision.tenth Collision.db9
              = (inl (StorageError (UniqueViolation "blocks_id_key")),
                 Collision.db9)).
  { apply (Hkey) with (st := ([], [])).
    - vm_compute. reflexivity.
    - reflexivity.
    - reflexivity.
    - vm_compute. reflexivity. }
  unfold post_blocks, run, BEGIN, ROLLBACK. cbn [working committed].
  rewrite E. vm_compute. reflexivity.
Defined.

(** ** Rollbacks from any contiguous state *)

Lemma removed_tx_ids_iff target db s :
  In s (removed_tx_ids target db) <->
  exists b, In b (blocks db) /\ target < BlockRow.height b
            /\ In s (BlockRow.transaction_ids b).
Proof.
  unfold removed_tx_ids. rewrite in_concat. split.
  - intros (l & Hl & Hs). apply in_map_iff in Hl.
    destruct Hl as (b & <- & Hb). apply filter_In in Hb.
    destruct Hb as [Hb Hlt]. apply Z.ltb_lt in Hlt. eauto.
  - intros (b & Hb & Hlt & Hs). exists (BlockRow.transaction_ids b).
    split; [|exact Hs]. apply in_map. apply filter_In.
    split; [exact Hb | now apply Z.ltb_lt].
Qed.

Lemma existsb_In (s : string) (l : list string) :
  existsb (String.eqb s) l = true <-> In s l.
Proof.
  rewrite existsb_exists. split.
  - intros (x & Hx & E). apply String.eqb_eq in E. now subst.
  - intros H. exists s. split; [exact H | apply String.eqb_refl].
Qed.

Lemma restored_iff target db r0 r :
  restored target db r0 r <-> r = unspend_row (removed_tx_ids target db) r0.
Proof.
  assert (Hin : forall s,
            existsb (String.eqb s) (removed_tx_ids target db) = true
            <-> removed_spender target db s).
  { intros s. rewrite existsb_In. apply removed_tx_ids_iff. }
  unfold restored, unspend_row. destruct r as [t n a v h sp].
  destruct r0 as [t0 n0 a0 v0 h0 sp0]. unfold Utxo.key. cbn.
  destruct sp0 as [s|].
  - destruct (existsb (String.eqb s) (removed_tx_ids target db)) eqn:E.
    + assert (Hs : removed_spender target db s) by (now apply Hin).
      unfold Utxo.set_spent. cbn. split.
      * intros (Hk & -> & -> & -> & Hc & _). injection Hk as -> ->.
        now rewrite (Hc Hs).
      * intros [= -> -> -> -> -> ->]. repeat split; auto. now intros [].
    + assert (Hs : ~ removed_spender target db s).
      { intros Hs. apply Hin in Hs. congruence. }
      split.
      * intros (Hk & -> & -> & -> & _ & Hc). injection Hk as -> ->.
        now rewrite (Hc Hs).
      * intros [= -> -> -> -> -> ->]. repeat split; auto.
        intros Hs'. now destruct Hs.
  - split.
    + intros (Hk & -> & -> & -> & ->). now injection Hk as -> ->.
    + intros [= -> -> -> -> -> ->]. repeat split; auto.
Qed.

(** X12 -- From a state with contiguous heights and for a target K with
    0 <= K < currentHeight, the rollback request is answered 200 with
    exactly the heights K+1, ..., currentHeight, each once; afterwards the
    current height is K, no block and no entry above K is left, and every
    block and entry at or below K is kept: an entry keeps its key, address,
    value and height; its spender is cleared when it was a transaction of a
    removed block and is kept otherwise. *)
Theorem rollback_removes_exactly_above (db : Tables) (target : Z) :
  contiguous db -> 0 <= target < current_height db ->
  exists removed,
    post_rollback (Some target) db
    = (mkReply 200 (RolledBack target removed), rolled_back target db)
    /\ NoDup removed
    /\ (forall h, In h removed <-> target < h <= current_height db)
    /\ current_height (rolled_back target db) = target
    /\ (forall b, In b (blocks (rolled_back target db)) <->
          In b (blocks db) /\ BlockRow.height b <= target)
    /\ (forall r, In r (utxos (rolled_back target db)) <->
          exists r0, In r0 (utxos db) /\ Utxo.block_height r0 <= target
                     /\ restored target db r0 r).
Proof.
  intros Hc Ht. pose proof Hc as [Hnd Hin].
  set (removed := map BlockRow.height
         (filter (fun b => target <? BlockRow.height b) (blocks db))).
  assert (Hrem : removed
                 = filter (fun h => target <? h) (heights db)).
  { unfold removed, heights. apply (heights_filter (fun h => target <? h)). }
  assert (Hmem : forall h, In h removed <-> target < h <= current_height db).
  { intros h. rewrite Hrem, filter_In, Hin, Z.ltb_lt. lia. }
  exists removed. split; [|split; [|split; [|split; [|split]]]].
  - unfold post_rollback, run, BEGIN, COMMIT. cbn [working committed].
    rewrite rollbackToHeight_eq.
    destruct (Z.geb_spec target (current_height db)); [lia|].
    destruct (Z.ltb_spec target 0); [lia|]. cbn [fst snd]. fold removed.
    destruct removed as [|h l] eqn:E; [|reflexivity].
    exfalso. apply (proj2 (Hmem (current_height db))); lia.
  - rewrite Hrem. now apply NoDup_filter.
  - exact Hmem.
  - exact (proj1 (contiguous_rolled_back target db Hc Ht)).
  - intros b. unfold rolled_back. cbn [blocks]. rewrite filter_In.
    destruct (Z.ltb_spec target (BlockRow.height b)); simpl; split;
      intros [H1 H2]; split; auto; try lia; discriminate.
  - intros r. unfold rolled_back. cbn [utxos].
    rewrite filter_In, in_map_iff. split.
    + intros [(r0 & <- & Hr0) Hle]. exists r0.
      rewrite unspend_row_height in Hle.
      destruct (Z.ltb_spec target (Utxo.block_height r0));
        [discriminate Hle|].
      split; [exact Hr0|]. split; [assumption|]. now apply restored_iff.
    + intros (r0 & Hr0 & Hle & Hres). apply restored_iff in Hres. subst r.
      split; [eauto|].
      rewrite unspend_row_height.
      destruct (Z.ltb_spec target (Utxo.block_height r0)); [lia|reflexivity].
Qed.

Lemma rollback_removes_exactly_above_witness :
  exists removed,
    post_rollback (Some 2) Scenario.db3
    = (mkReply 200 (RolledBack 2 removed), rolled_back 2 Scenario.db3)
    /\ (forall h, In h removed <-> 2 < h <= current_height Scenario.db3)
    /\ In (Utxo.mk "tx2" 1 "addr3" 600000000 2 None)
          (utxos (rolled_back 2 Scenario.db3))
    /\ In (Utxo.mk "tx1" 0 "addr1" 1000000000 1 (Some "tx2"%string))
          (utxos (rolled_back 2 Scenario.db3)).
Proof.
  destruct (rollback_removes_exactly_above Scenario.db3 2
              (reachable_contiguous _ db3_reachable))
    as (removed & E & _ & Hmem & _ & _ & Hrows).
  - vm_compute. split; [discriminate | reflexivity].
  - exists removed. split; [exact E|]. split; [exact Hmem|].
    assert (Hthird : removed_spender 2 Scenario.db3 "tx3").
    { exists (block_row Scenario.BLOCK_3). split.
      - vm_compute. right. right. now left.
      - split; [reflexivity | now left]. }
    assert (Hsecond : ~ removed_spender 2 Scenario.db3 "tx2").
    { intros (b & Hb & Hlt & Hs). vm_compute in Hb.
      destruct Hb as [<- | [<- | [<- | []]]]; cbn in Hlt, Hs.
      - lia.
      - lia.
      - destruct Hs as [Hs | []]. discriminate Hs. }
    split.
    + apply (proj2 (Hrows (Utxo.mk "tx2" 1 "addr3" 600000000 2 None))).
      exists (Utxo.mk "tx2" 1 "addr3" 600000000 2 (Some "tx3"%string)).
      split; [vm_compute; tauto|]. split; [cbn [Utxo.block_height]; lia|].
      unfold restored. cbn [Utxo.spent_tx_id].
      split; [reflexivity|]. split; [reflexivity|]. split; [reflexivity|].
      split; [reflexivity|]. split; [reflexivity|].
      intros Hno. destruct (Hno Hthird).
    + apply (proj2 (Hrows (Utxo.mk "tx1" 0 "addr1" 1000000000 1
                             (Some "tx2"%string)))).
      exists (Utxo.mk "tx1" 0 "addr1" 1000000000 1 (Some "tx2"%string)).
      split; [vm_compute; tauto|]. split; [cbn [Utxo.block_height]; lia|].
      unfold restored. cbn [Utxo.spent_tx_id].
      split; [reflexivity|]. split; [reflexivity|]. split; [reflexivity|].
      split; [reflexivity|]. split; [|reflexivity].
      intros Hyes. destruct (Hsecond Hyes).
Defined.

Lemma rolled_back_twice K K' db :
  K' <= K -> rolled_back K' (rolled_back K db) = rolled_back K' db.
Proof.
  intros Hle. unfold rolled_back at 1 3. f_equal.
  - unfold rolled_back. cbn [blocks].
    induction (blocks db) as [|b bl IH]; simpl; [reflexivity|].
    destruct (Z.ltb_spec K (BlockRow.height b)); simpl.
    + destruct (Z.ltb_spec K' (BlockRow.height b)); simpl; [exact IH|lia].
    + destruct (Z.ltb_spec K' (BlockRow.height b)); simpl; now rewrite IH.
  - assert (HT : forall s,
      existsb (String.eqb s) (removed_tx_ids K' db)
      = existsb (String.eqb s) (removed_tx_ids K db)
        || existsb (String.eqb s) (removed_tx_ids K' (rolled_back K db))).
    { intros s. apply eq_true_iff_eq.
      rewrite orb_true_iff, !existsb_In, !removed_tx_ids_iff. split.
      - intros (b & Hb & Hlt & Hs).
        destruct (Z.ltb_spec K (BlockRow.height b)) as [Hk|Hk].
        + left. eauto.
        + right. exists b. split; [|auto]. unfold rolled_back.
          cbn [blocks]. apply filter_In. split; [exact Hb|].
          destruct (Z.ltb_spec K (BlockRow.height b)); [lia|reflexivity].
      - intros [(b & Hb & Hlt & Hs) | (b & Hb & Hlt & Hs)].
        + exists b. repeat split; auto. lia.
        + unfold rolled_back in Hb. cbn [blocks] in Hb.
          apply filter_In in Hb. destruct Hb as [Hb _]. eauto. }
    unfold rolled_back at 2. cbn [utxos].
    set (T := removed_tx_ids K db) in *.
    set (T2 := removed_tx_ids K' (rolled_back K db)) in *.
    set (T' := removed_tx_ids K' db) in *.
    induction (utxos db) as [|r us IH]; simpl; [reflexivity|].
    rewrite !unspend_row_height.
    assert (Hr : Utxo.block_height r <= K' ->
                 unspend_row T2 (unspend_row T r) = unspend_row T' r).
    { intros _. unfold unspend_row at 2 3.
      destruct (Utxo.spent_tx_id r) as [s|] eqn:Hs.
      - rewrite HT.
        destruct (existsb (String.eqb s) T); simpl.
        + unfold unspend_row. reflexivity.
        + unfold unspend_row. now rewrite Hs.
      - unfold unspend_row. now rewrite Hs. }
    destruct (Z.ltb_spec K (Utxo.block_height r)); simpl.
    + destruct (Z.ltb_spec K' (Utxo.block_height r)); simpl; [exact IH|lia].
    + rewrite !unspend_row_height.
      destruct (Z.ltb_spec K' (Utxo.block_height r)); simpl; [exact IH|].
      rewrite IH. f_equal. now apply Hr.
Qed.

(** X13 -- Rollbacks compose.  From a state with contiguous heights and
    for targets 0 <= K' <= K, rolling back to K and then to K' leaves the
    same tables as rolling back to K' at once; in particular a rollback
    repeated with the same target changes nothing more. *)
Theorem rollbacks_compose (db : Tables) (K K' : Z) :
  contiguous db -> 0 <= K' <= K ->
  snd (post_rollback (Some K') (snd (post_rollback (Some K) db)))
  = snd (post_rollback (Some K') db)
  /\ post_rollback (Some K) (snd (post_rollback (Some K) db))
     = (mkReply 200 (StateUnchanged K), snd (post_rollback (Some K) db)).
Proof.
  intros Hc HK.
  assert (Hpost : forall t d, 0 <= t ->
            snd (post_rollback (Some t) d)
            = if t >=? current_height d then d else rolled_back t d).
  { intros t d Ht. unfold post_rollback, run, BEGIN, COMMIT, ROLLBACK.
    cbn [working committed]. rewrite rollbackToHeight_eq.
    destruct (t >=? current_height d); [reflexivity|].
    destruct (Z.ltb_spec t 0); [lia | reflexivity]. }
  assert (Hcur : current_height (snd (post_rollback (Some K) db)) <= K).
  { rewrite Hpost by lia.
    destruct (Z.geb_spec K (current_height db)); [lia|].
    destruct (contiguous_rolled_back K db Hc) as [E _]; lia. }
  split.
  - rewrite (Hpost K' _) by lia. rewrite (Hpost K db) by lia.
    rewrite (Hpost K' db) by lia.
    destruct (Z.geb_spec K (current_height db)) as [Hge|Hlt];
      [reflexivity|].
    destruct (contiguous_rolled_back K db Hc) as [E _]; [lia|].
    rewrite E.
    destruct (Z.geb_spec K' K) as [Hge'|Hlt'].
    + assert (K' = K) by lia. subst K'.
      destruct (Z.geb_spec K (current_height db)); [lia | reflexivity].
    + destruct (Z.geb_spec K' (current_height db)); [lia|].
      apply rolled_back_twice. lia.
  - set (d := snd (post_rollback (Some K) db)) in *.
    unfold post_rollback, run, BEGIN, COMMIT. cbn [working committed].
    rewrite rollbackToHeight_eq.
    destruct (Z.geb_spec K (current_height d)); [reflexivity | lia].
Qed.

Lemma rollbacks_compose_witness :
  snd (post_rollback (Some 1) (snd (post_rollback (Some 2) Scenario.db3)))
  = snd (post_rollback (Some 1) Scenario.db3).
Proof.
  apply (rollbacks_compose Scenario.db3 2 1
           (reachable_contiguous _ db3_reachable)).
  lia.
Defined.

(** ** What holds of every reachable state *)

Lemma staged_from_txid txid height outputs index u :
  In u (staged_from txid height outputs index) -> n_txId u = txid.
Proof.
  revert index. induction outputs as [|o outputs IH]; intros index;
    simpl; [contradiction|].
  intros [<- | H]; [reflexivity | exact (IH _ H)].
Qed.

Lemma spend_all_value spends r :
  Utxo.value (spend_all spends r) = Utxo.value r.
Proof.
  unfold spend_all. revert r.
  induction spends as [|s spends IH]; intros r; simpl; [reflexivity|].
  rewrite IH. destruct (spend_row_cases s r) as [-> | [_ ->]]; reflexivity.
Qed.

Lemma unspend_row_value T r :
  Utxo.value (unspend_row T r) = Utxo.value r.
Proof.
  unfold unspend_row. destruct (Utxo.spent_tx_id r); [|reflexivity].
  now destruct (existsb _ T).
Qed.

Lemma unspend_row_spender T r s :
  Utxo.spent_tx_id (unspend_row T r) = Some s ->
  Utxo.spent_tx_id r = Some s /\ ~ In s T.
Proof.
  unfold unspend_row. destruct (Utxo.spent_tx_id r) as [t|] eqn:E.
  - destruct (existsb (String.eqb t) T) eqn:Ex; simpl.
    + discriminate.
    + rewrite E. intros [= ->]. split; [reflexivity|].
      intros Hin. apply existsb_In in Hin. congruence.
  - rewrite E. discriminate.
Qed.

Lemma integrity_accept block db db' :
  integrity db -> processBlock block db = (inr tt, db') -> integrity db'.
Proof.
  intros Hi H. destruct (accepted_writes _ _ _ H) as (-> & _).
  intros r Hr. cbn [utxos blocks] in *. rewrite apply_spends_map in Hr.
  apply in_app_or in Hr. destruct Hr as [Hr | Hr].
  - apply in_map_iff in Hr. destruct Hr as (r0 & <- & Hr0).
    destruct (Hi r0 Hr0) as [(b & Hb & Hh & Ht) Hsp]. split.
    + exists b. rewrite spend_all_height.
      pose proof (spend_all_key (block_spends block) r0) as Hk.
      unfold Utxo.key in Hk. injection Hk as -> _.
      repeat split; auto. apply in_or_app. now left.
    + intros s Hs. apply spend_all_spender in Hs. destruct Hs as [Hs | Hs].
      * destruct (Hsp s Hs) as (b' & Hb' & Hin). exists b'.
        split; [apply in_or_app; now left | exact Hin].
      * exists (block_row block). split; [apply in_or_app; right; now left|].
        apply in_map_iff in Hs. destruct Hs as (sp & <- & Hsp').
        apply block_spends_iff in Hsp'.
        destruct Hsp' as (tx & i & Htx & _ & ->). simpl.
        now apply in_map.
  - apply in_map_iff in Hr. destruct Hr as (u & <- & Hu). split.
    + exists (block_row block). split; [apply in_or_app; right; now left|].
      unfold block_outputs in Hu. apply in_flat_map in Hu.
      destruct Hu as (tx & Htx & Hu). simpl.
      rewrite (staged_from_height _ _ _ _ _ Hu),
        (staged_from_txid _ _ _ _ _ Hu).
      split; [reflexivity | now apply in_map].
    + simpl. discriminate.
Qed.

Lemma integrity_rolled_back target db :
  integrity db -> integrity (rolled_back target db).
Proof.
  intros Hi r Hr. unfold rolled_back in *. cbn [utxos blocks] in *.
  apply filter_In in Hr. destruct Hr as [Hr Hle].
  apply in_map_iff in Hr. destruct Hr as (r0 & <- & Hr0).
  rewrite unspend_row_height in *.
  destruct (Z.ltb_spec target (Utxo.block_height r0)); [discriminate Hle|].
  destruct (Hi r0 Hr0) as [(b & Hb & Hh & Ht) Hsp]. split.
  - exists b.
    pose proof (unspend_row_key (removed_tx_ids target db) r0) as Hk.
    unfold Utxo.key in Hk. injection Hk as -> _.
    repeat split; auto. apply filter_In. split; [exact Hb|].
    destruct (Z.ltb_spec target (BlockRow.height b)); [lia | reflexivity].
  - intros s Hs. apply unspend_row_spender in Hs. destruct Hs as [Hs Hnot].
    destruct (Hsp s Hs) as (b' & Hb' & Hin). exists b'. split; [|exact Hin].
    apply filter_In. split; [exact Hb'|].
    destruct (Z.ltb_spec target (BlockRow.height b')); [|reflexivity].
    exfalso. apply Hnot. apply removed_tx_ids_iff. eauto.
Qed.

Lemma reachable_integrity db : reachable db -> integrity db.
Proof.
  induction 1 as [|req db _ IH]; [intros r []|].
  destruct req as [block | address | [target|]]; simpl; auto.
  - unfold post_blocks, run, BEGIN, COMMIT, ROLLBACK.
    destruct (String.eqb (Block.id block) ""); [exact IH|].
    cbn [working committed].
    destruct (processBlock block db) as [[e|[]] db'] eqn:E; simpl;
      [exact IH | exact (integrity_accept _ _ _ IH E)].
  - unfold post_rollback, run, BEGIN, COMMIT, ROLLBACK.
    cbn [working committed]. rewrite rollbackToHeight_eq.
    destruct (target >=? current_height db); [exact IH|].
    destruct (target <? 0); [exact IH|]. simpl.
    now apply integrity_rolled_back.
Qed.

Lemma reachable_values_fit db :
  reachable db ->
  forall r, In r (utxos db) -> Z.abs (Utxo.value r) < 10 ^ 20.
Proof.
  induction 1 as [|req db _ IH]; [intros r []|].
  destruct req as [block | address | [target|]]; simpl; auto.
  - unfold post_blocks, run, BEGIN, COMMIT, ROLLBACK.
    destruct (String.eqb (Block.id block) ""); [exact IH|].
    cbn [working committed].
    destruct (processBlock block db) as [[e|[]] db'] eqn:E; simpl;
      [exact IH|].
    destruct (accepted_writes _ _ _ E) as (-> & _ & _ & Hfit).
    intros r Hr. cbn [utxos] in Hr. rewrite apply_spends_map in Hr.
    apply in_app_or in Hr. destruct Hr as [Hr | Hr];
      apply in_map_iff in Hr.
    + destruct Hr as (r0 & <- & Hr0). rewrite spend_all_value. now apply IH.
    + destruct Hr as (u & <- & Hu). simpl. now apply Hfit.
  - unfold post_rollback, run, BEGIN, COMMIT, ROLLBACK.
    cbn [working committed]. rewrite rollbackToHeight_eq.
    destruct (target >=? current_height db); [exact IH|].
    destruct (target <? 0); [exact IH|]. simpl.
    intros r Hr. apply filter_In in Hr. destruct Hr as [Hr _].
    apply in_map_iff in Hr. destruct Hr as (r0 & <- & Hr0).
    rewrite unspend_row_value. now apply IH.
Qed.

Lemma reachable_entry_heights db :
  reachable db ->
  forall r, In r (utxos db) -> 1 <= Utxo.block_height r <= current_height db.
Proof.
  intros Hr r Hin. destruct (reachable_integrity db Hr r Hin) as [Hb _].
  pose proof (reachable_contiguous db Hr) as [_ Hc].
  destruct Hb as (b & Hb & Hh & _). rewrite <- Hh. apply Hc.
  unfold heights. now apply in_map.
Qed.

(** X14 -- In every state reached from the empty tables by requests: no
    two entries share [(tx_id, output_index)]; every entry was created by a
    transaction listed in the recorded block at its [block_height], which
    lies between 1 and the current height; every [spent_tx_id] names a
    transaction listed in a recorded block; and every value fits
    [NUMERIC(20,8)]. *)
Theorem reachable_state_invariants (db : Tables) :
  reachable db ->
  NoDup (map Utxo.key (utxos db))
  /\ (forall r, In r (utxos db) ->
        1 <= Utxo.block_height r <= current_height db
        /\ Z.abs (Utxo.value r) < 10 ^ 20
        /\ (exists b, In b (blocks db)
                      /\ BlockRow.height b = Utxo.block_height r
                      /\ In (Utxo.tx_id r) (BlockRow.transaction_ids b))
        /\ (forall s, Utxo.spent_tx_id r = Some s ->
              exists b, In b (blocks db)
                        /\ In s (BlockRow.transaction_ids b))).
Proof.
  intros Hr. split; [exact (reachable_primary_key db Hr)|].
  intros r Hin. destruct (reachable_integrity db Hr r Hin) as [Hb Hs].
  pose proof (reachable_contiguous db Hr) as [_ Hc].
  split; [|split; [|split]]; auto.
  - destruct Hb as (b & Hb & Hh & _). rewrite <- Hh. apply Hc.
    unfold heights. now apply in_map.
  - exact (reachable_values_fit db Hr r Hin).
Qed.

Lemma reachable_state_invariants_witness :
  NoDup (map Utxo.key (utxos Scenario.db3)).
Proof.
  exact (proj1 (reachable_state_invariants Scenario.db3 db3_reachable)).
Defined.

(** X15 -- Rolling back to height 0 empties the tables, from every
    reachable state. *)
Theorem rollback_to_zero_resets (db : Tables) :
  reachable db -> snd (post_rollback (Some 0) db) = empty_tables.
Proof.
  intros Hr. pose proof (reachable_contiguous db Hr) as Hc.
  pose proof (contiguous_nonneg db Hc) as Hpos.
  pose proof (reachable_entry_heights db Hr) as Hbh.
  assert (Hblocks : forall b, In b (blocks db) -> 1 <= BlockRow.height b).
  { intros b Hb. destruct Hc as [_ Hc]. apply Hc. unfold heights.
    now apply in_map. }
  assert (E : rolled_back 0 db = empty_tables).
  { unfold rolled_back, empty_tables. f_equal.
    - apply filter_none. intros b Hb. specialize (Hblocks b Hb).
      destruct (Z.ltb_spec 0 (BlockRow.height b)); [reflexivity | lia].
    - apply filter_none. intros r Hin. apply in_map_iff in Hin.
      destruct Hin as (r0 & <- & Hr0). rewrite unspend_row_height.
      specialize (Hbh r0 Hr0).
      destruct (Z.ltb_spec 0 (Utxo.block_height r0)); [reflexivity | lia]. }
  unfold post_rollback, run, BEGIN, COMMIT, ROLLBACK. cbn [working committed].
  rewrite rollbackToHeight_eq.
  destruct (Z.geb_spec 0 (current_height db)) as [Hge|Hlt]; simpl.
  - rewrite <- E. unfold rolled_back. destruct db as [bl us].
    cbn [blocks utxos] in *. f_equal.
    + symmetry. apply filter_all. intros b Hb.
      assert (In (BlockRow.height b) (heights (mkTables bl us))).
      { unfold heights. now apply in_map. }
      apply current_height_bound in H. specialize (Hblocks b Hb). lia.
    + destruct us as [|r us]; [reflexivity|].
      specialize (Hbh r (or_introl eq_refl)). lia.
  - exact E.
Qed.

Lemma rollback_to_zero_resets_witness :
  snd (post_rollback (Some 0) Scenario.db3) = empty_tables.
Proof. exact (rollback_to_zero_resets Scenario.db3 db3_reachable). Defined.

(** ** Starting the server *)

Lemma retry_loop_all_fail attempt retries n slept :
  (forall j, (j < retries)%nat -> attempt (n + j)%nat = false) ->
  (0 < retries)%nat ->
  retry_loop attempt retries n slept
  = mkBoot OutOfRetries (n + retries)
           (slept ++ repeat 3000 (retries - 1)).
Proof.
  revert n slept. induction retries as [|r IH]; intros n slept Hf Hpos;
    [lia|].
  simpl. pose proof (Hf 0%nat) as H0. rewrite Nat.add_0_r in H0.
  rewrite H0 by lia. destruct r as [|r].
  - simpl. rewrite app_nil_r. f_equal. lia.
  - change (S r =? 0)%nat with false. cbv iota.
    rewrite IH.
    + f_equal; [lia|]. rewrite <- app_assoc. simpl.
      now rewrite Nat.sub_0_r.
    + intros j Hj. replace (S n + j)%nat with (n + S j)%nat by lia.
      apply Hf. lia.
    + lia.
Qed.

Lemma retry_loop_first_success attempt retries n slept k :
  (k < retries)%nat ->
  (forall j, (j < k)%nat -> attempt (n + j)%nat = false) ->
  attempt (n + k)%nat = true ->
  retry_loop attempt retries n slept
  = mkBoot Ready (n + k + 1) (slept ++ repeat 3000 k).
Proof.
  revert retries n slept. induction k as [|k IH]; intros retries n slept
    Hk Hf Hs.
  - destruct retries as [|r]; [lia|]. simpl. rewrite Nat.add_0_r in Hs.
    rewrite Hs, app_nil_r. f_equal. lia.
  - destruct retries as [|r]; [lia|]. simpl.
    pose proof (Hf 0%nat) as H0. rewrite Nat.add_0_r in H0.
    rewrite H0 by lia. destruct r as [|r]; [lia|].
    change (S r =? 0)%nat with false. cbv iota.
    rewrite (IH (S r) (S n)).
    + f_equal; [lia|]. now rewrite <- app_assoc.
    + lia.
    + intros j Hj. replace (S n + j)%nat with (n + S j)%nat by lia.
      apply Hf. lia.
    + now replace (S n + k)%nat with (n + S k)%nat by lia.
Qed.

(** X16 -- Starting the server.  Without a [DATABASE_URL], [bootstrap]
    throws before it tries to connect.  With one, it is ready at the first
    of its first five attempts that succeeds, having slept 3000 ms after
    each failed attempt before it; when all five fail it throws after the
    fifth, having slept four times, without a sixth attempt.  The server
    listens on port 3000 exactly when [bootstrap] is ready and
    [fastify.listen] does not throw; in every other case the process exits
    with status 1. *)
Theorem bootstrap_retries (attempt : nat -> bool) (listens : bool)
    (url : string) :
  url <> ""%string ->
  (bootstrap attempt None = mkBoot UrlRequired 0 []
   /\ start attempt listens None = Exit 1)
  /\ (bootstrap attempt (Some ""%string) = mkBoot UrlRequired 0 []
      /\ start attempt listens (Some ""%string) = Exit 1)
  /\ (forall k, (k < 5)%nat ->
        (forall j, (j < k)%nat -> attempt j = false) -> attempt k = true ->
        bootstrap attempt (Some url) = mkBoot Ready (k + 1) (repeat 3000 k)
        /\ start attempt listens (Some url)
           = if listens then Listening 3000 else Exit 1)
  /\ ((forall j, (j < 5)%nat -> attempt j = false) ->
      bootstrap attempt (Some url)
      = mkBoot OutOfRetries 5 [3000; 3000; 3000; 3000]
      /\ start attempt listens (Some url) = Exit 1)
  /\ (start attempt listens (Some url) = Listening 3000 <->
      listens = true /\ exists k, (k < 5)%nat /\ attempt k = true)
  /\ (start attempt listens (Some url) = Exit 1 <->
      listens = false \/ forall k, (k < 5)%nat -> attempt k = false).
Proof.
  intros Hurl.
  assert (Hb : bootstrap attempt (Some url) = retry_loop attempt 5 0 []).
  { unfold bootstrap. destruct (String.eqb_spec url ""); [contradiction|].
    reflexivity. }
  assert (Hok : forall k, (k < 5)%nat ->
        (forall j, (j < k)%nat -> attempt j = false) -> attempt k = true ->
        bootstrap attempt (Some url) = mkBoot Ready (k + 1) (repeat 3000 k)).
  { intros k Hk Hf Hs. rewrite Hb.
    now rewrite (retry_loop_first_success attempt 5 0 [] k). }
  assert (Hfail : (forall j, (j < 5)%nat -> attempt j = false) ->
      bootstrap attempt (Some url)
      = mkBoot OutOfRetries 5 [3000; 3000; 3000; 3000]).
  { intros Hf. rewrite Hb.
    rewrite (retry_loop_all_fail attempt 5 0 []); auto. lia. }
  assert (Hcases : (forall j, (j < 5)%nat -> attempt j = false)
                   \/ exists k, (k < 5)%nat /\ attempt k = true
                        /\ forall j, (j < k)%nat -> attempt j = false).
  { destruct (attempt 0%nat) eqn:E0.
    { right. exists 0%nat. repeat split; auto; lia. }
    destruct (attempt 1%nat) eqn:E1.
    { right. exists 1%nat. repeat split; auto; try lia.
      intros [|j] Hj; [exact E0 | lia]. }
    destruct (attempt 2%nat) eqn:E2.
    { right. exists 2%nat. repeat split; auto; try lia.
      intros [|[|j]] Hj; [exact E0 | exact E1 | lia]. }
    destruct (attempt 3%nat) eqn:E3.
    { right. exists 3%nat. repeat split; auto; try lia.
      intros [|[|[|j]]] Hj; [exact E0 | exact E1 | exact E2 | lia]. }
    destruct (attempt 4%nat) eqn:E4.
    { right. exists 4%nat. repeat split; auto; try lia.
      intros [|[|[|[|j]]]] Hj;
        [exact E0 | exact E1 | exact E2 | exact E3 | lia]. }
    left. intros [|[|[|[|[|j]]]]] Hj; try assumption. lia. }
  split; [split; reflexivity|]. split; [split; reflexivity|].
  split; [|split; [|split]].
  - intros k Hk Hf Hs. split; [now apply Hok|].
    unfold start. now rewrite (Hok k Hk Hf Hs).
  - intros Hf. split; [now apply Hfail|]. unfold start.
    now rewrite (Hfail Hf).
  - unfold start. destruct Hcases as [Hf | (k & Hk & Hs & Hf)].
    + rewrite (Hfail Hf). cbn [boot_result]. split; [discriminate|].
      intros (_ & j & Hj & Hjs). rewrite (Hf j Hj) in Hjs. discriminate Hjs.
    + rewrite (Hok k Hk Hf Hs). cbn [boot_result].
      destruct listens; split; try discriminate; eauto.
      intros [Hl _]. discriminate Hl.
  - unfold start. destruct Hcases as [Hf | (k & Hk & Hs & Hf)].
    + rewrite (Hfail Hf). cbn [boot_result]. split; auto.
    + rewrite (Hok k Hk Hf Hs). cbn [boot_result].
      destruct listens; split; auto; try discriminate.
      intros [Hl | Hall]; [discriminate Hl|].
      rewrite (Hall k Hk) in Hs. discriminate Hs.
Qed.

Lemma bootstrap_retries_witness :
  bootstrap (fun n => (n =? 2)%nat) (Some "postgres://db"%string)
  = mkBoot Ready 3 [3000; 3000]
  /\ start (fun n => (n =? 2)%nat) true (Some "postgres://db"%string)
     = Listening 3000
  /\ start (fun n => (n =? 2)%nat) false (Some "postgres://db"%string)
     = Exit 1
  /\ start (fun _ => false) true (Some "postgres://db"%string) = Exit 1.
Proof.
  assert (Hurl : "postgres://db"%string <> ""%string) by discriminate.
  assert (Hbefore : forall j, (j < 2)%nat -> (j =? 2)%nat = false).
  { intros j Hj. destruct j as [|[|j]]; [reflexivity | reflexivity | lia]. }
  split; [|split; [|split]].
  - destruct (bootstrap_retries (fun n => (n =? 2)%nat) true _ Hurl)
      as (_ & _ & Hk & _).
    apply (Hk 2%nat); [lia | exact Hbefore | reflexivity].
  - destruct (bootstrap_retries (fun n => (n =? 2)%nat) true _ Hurl)
      as (_ & _ & Hk & _).
    apply (Hk 2%nat); [lia | exact Hbefore | reflexivity].
  - destruct (bootstrap_retries (fun n => (n =? 2)%nat) false _ Hurl)
      as (_ & _ & Hk & _).
    apply (Hk 2%nat); [lia | exact Hbefore | reflexivity].
  - destruct (bootstrap_retries (fun _ => false) true _ Hurl)
      as (_ & _ & _ & Hf & _).
    now apply Hf.
Defined.

(** ** Exactly which blocks are accepted *)







